(** * Zoni v2: parcel regulatory analysis engine

    A shallow embedding of the analysis core of the Zoni v2 plugin
    (boundary classification, zone decomposition, zone-overlap resolution,
    slope classification, compliance evaluation and the orchestrator) and
    the properties of it that the specification states.

    Conventions of the embedding:
    - a Python [float] is an exact rational ([Q]); rounding to binary64,
      infinities and NaN are outside the model;
    - a Python [str] is the byte string of its UTF-8 encoding, so that the
      order of [sorted] on strings (code point order) is the byte order
      [String.le]; case mapping and accent removal are modelled on ASCII and
      on the Latin-1 letters, other code points pass unchanged;
    - a [dict] used as a map is a [gmap], a [set] is a [gset];
    - a raised exception is the [Raise] outcome of the monad [res];
    - the geometry engine (QGIS) is a capability: its answers are fields of
      the records the functions receive. *)

From Stdlib Require Import QArith Qround Qabs String Ascii.
From stdpp Require Import base list strings gmap sorting.

Open Scope string_scope.

(** ** Outcomes of fallible code *)

Inductive exn : Type :=
  | ValueError (msg : string)
  | NameError (name : string)
  | KeyError (key : string)
  | ZeroDivisionError
  | OSError (msg : string).

Inductive res (A : Type) : Type :=
  | Ok (a : A)
  | Raise (e : exn).
Arguments Ok {A} a.
Arguments Raise {A} e.

Definition res_bind {A B} (r : res A) (k : A → res B) : res B :=
  match r with
  | Ok a => k a
  | Raise e => Raise e
  end.

Notation "x ←? r ; k" := (res_bind r (λ x, k))
  (at level 100, r at next level, right associativity).

(** ** Numbers *)

Definition Qlt_bool (a b : Q) : bool := negb (Qle_bool b a).

(** [x == 0] on a float. *)
Definition Qzero_bool (a : Q) : bool := Qeq_bool a 0.

(** [int(x)] of a float: truncation toward zero. *)
Definition py_int_of_float (q : Q) : Z :=
  if Qlt_bool q 0 then Qceiling q else Qfloor q.

(** [round(x, 2)]: to the nearest hundredth, ties to the even hundredth. *)
Definition py_round2 (q : Q) : Q :=
  let s := (q * 100)%Q in
  let f := Qfloor s in
  let d := (s - inject_Z f)%Q in
  let n :=
    if Qlt_bool d (1 # 2) then f
    else if Qlt_bool (1 # 2) d then (f + 1)%Z
    else if Z.even f then f else (f + 1)%Z in
  (inject_Z n / 100)%Q.

Definition Qsum (l : list Q) : Q := foldr Qplus 0%Q l.

(** ** Text *)

Module PyStr.

Definition chars (s : string) : list ascii := list_ascii_of_string s.
Definition of_chars (l : list ascii) : string := string_of_list_ascii l.

Definition code (c : ascii) : N := N_of_ascii c.
Definition chr (n : N) : ascii := ascii_of_N n.

Definition between (lo hi n : N) : bool := ((lo <=? n) && (n <=? hi))%N.

(** [str.isspace] on the ASCII range. *)
Definition isspace (c : ascii) : bool :=
  between 9 13 (code c) || between 28 32 (code c).

Fixpoint dropwhile (f : ascii → bool) (l : list ascii) : list ascii :=
  match l with
  | [] => []
  | c :: l' => if f c then dropwhile f l' else l
  end.

Definition strip_chars (l : list ascii) : list ascii :=
  rev (dropwhile isspace (rev (dropwhile isspace l))).

(** [s.strip()] *)
Definition strip (s : string) : string := of_chars (strip_chars (chars s)).

Definition upper_ascii (c : ascii) : ascii :=
  if between 97 122 (code c) then chr (code c - 32) else c.

Definition lower_ascii (c : ascii) : ascii :=
  if between 65 90 (code c) then chr (code c + 32) else c.

(** [s.upper()]: ASCII letters, and the Latin-1 letters, which UTF-8
    writes as the lead byte 195 and a second byte. *)
Fixpoint upper_chars (l : list ascii) : list ascii :=
  match l with
  | [] => []
  | c1 :: l' =>
      if (code c1 =? 195)%N then
        match l' with
        | [] => [c1]
        | c2 :: r =>
            let n := code c2 in
            if between 160 190 n && negb (n =? 183)%N
            then c1 :: chr (n - 32) :: upper_chars r
            else if (n =? 159)%N then chr 83 :: chr 83 :: upper_chars r
            else if (n =? 191)%N then chr 197 :: chr 184 :: upper_chars r
            else c1 :: c2 :: upper_chars r
        end
      else upper_ascii c1 :: upper_chars l'
  end.

Definition upper (s : string) : string := of_chars (upper_chars (chars s)).

(** [s.lower()], on the same range. *)
Fixpoint lower_chars (l : list ascii) : list ascii :=
  match l with
  | [] => []
  | c1 :: l' =>
      if (code c1 =? 195)%N then
        match l' with
        | [] => [c1]
        | c2 :: r =>
            let n := code c2 in
            if between 128 158 n && negb (n =? 151)%N
            then c1 :: chr (n + 32) :: lower_chars r
            else c1 :: c2 :: lower_chars r
        end
      else lower_ascii c1 :: lower_chars l'
  end.

Definition lower (s : string) : string := of_chars (lower_chars (chars s)).

(** Base letter of a Latin-1 letter with a diacritic, from the second byte
    of its encoding. *)
Definition base_latin1 (n : N) : option N :=
  if between 128 133 n then Some 65%N
  else if (n =? 135)%N then Some 67%N
  else if between 136 139 n then Some 69%N
  else if between 140 143 n then Some 73%N
  else if (n =? 145)%N then Some 78%N
  else if between 146 150 n then Some 79%N
  else if between 153 156 n then Some 85%N
  else if (n =? 157)%N then Some 89%N
  else if between 160 165 n then Some 97%N
  else if (n =? 167)%N then Some 99%N
  else if between 168 171 n then Some 101%N
  else if between 172 175 n then Some 105%N
  else if (n =? 177)%N then Some 110%N
  else if between 178 182 n then Some 111%N
  else if between 185 188 n then Some 117%N
  else if (n =? 189)%N || (n =? 191)%N then Some 121%N
  else None.

(** [unicodedata.normalize("NFD", s)] with the characters of category Mn
    removed: a Latin-1 letter becomes its base letter, a combining mark
    of the block U+0300..U+036F is dropped. *)
Fixpoint sem_marcas_chars (l : list ascii) : list ascii :=
  match l with
  | [] => []
  | c1 :: l' =>
      match l' with
      | [] => [c1]
      | c2 :: r =>
          let n := code c2 in
          if (code c1 =? 195)%N then
            match base_latin1 n with
            | Some b => chr b :: sem_marcas_chars r
            | None => c1 :: c2 :: sem_marcas_chars r
            end
          else if (code c1 =? 204)%N && between 128 191 n
          then sem_marcas_chars r
          else if (code c1 =? 205)%N && between 128 175 n
          then sem_marcas_chars r
          else c1 :: sem_marcas_chars l'
      end
  end.

Definition sem_marcas (s : string) : string :=
  of_chars (sem_marcas_chars (chars s)).

(** [s.startswith(p)] *)
Definition startswith (s p : string) : bool := String.prefix p s.

Definition startswith_any (s : string) (ps : list string) : bool :=
  existsb (startswith s) ps.

(** [p in s] *)
Fixpoint contains (p s : string) : bool :=
  String.prefix p s ||
  match s with
  | EmptyString => false
  | String _ s' => contains p s'
  end.

(** [s.replace(a, "")] for a one-character [a]. *)
Definition remove_char (a : ascii) (l : list ascii) : list ascii :=
  List.filter (λ c, negb (Ascii.eqb c a)) l.

(** [s.replace(a, b)] for one-character [a] and [b]. *)
Definition replace_char (a b : ascii) (l : list ascii) : list ascii :=
  List.map (λ c, if Ascii.eqb c a then b else c) l.

(** [sep.join(l)] *)
Fixpoint join (sep : string) (l : list string) : string :=
  match l with
  | [] => ""
  | [x] => x
  | x :: l' => x ++ sep ++ join sep l'
  end.

(** [bool(s)]: a string is true when it is not empty. *)
Definition truthy (s : string) : bool :=
  match s with EmptyString => false | _ => true end.

(** [sorted(set(l))] *)
Definition sorted_set (l : list string) : list string :=
  merge_sort String.le (elements (list_to_set l : gset string)).

(** [max(l, key=f)]: the first of the elements with the greatest key. *)
Fixpoint max_by {A} (f : A → Q) (best : A) (l : list A) : A :=
  match l with
  | [] => best
  | x :: l' => max_by f (if Qlt_bool (f best) (f x) then x else best) l'
  end.

Definition py_max {A} (f : A → Q) (l : list A) : option A :=
  match l with
  | [] => None
  | x :: l' => Some (max_by f x l')
  end.

End PyStr.

(** ** regras_zoneamento.py: zone parameters and compliance evaluation *)

(** A value of the [indices] object of the parameter table, after
    [json.load]: null, a number or a string. *)
Inductive json : Type :=
  | JNull
  | JNum (q : Q)
  | JStr (s : string).

Module Numeral.

Definition digit_of (c : ascii) : option Z :=
  let n := PyStr.code c in
  if PyStr.between 48 57 n then Some (Z.of_N n - 48)%Z else None.

(** The longest prefix of digits, and what follows it. *)
Fixpoint take_digits (l : list ascii) : list Z * list ascii :=
  match l with
  | [] => ([], [])
  | c :: l' =>
      match digit_of c with
      | Some d => let '(ds, r) := take_digits l' in (d :: ds, r)
      | None => ([], l)
      end
  end.

Definition value (ds : list Z) : Z := fold_left (λ acc d, (10 * acc + d)%Z) ds 0%Z.

Definition pow10 (n : nat) : Z := (10 ^ Z.of_nat n)%Z.

(** An optional sign: [true] for a minus. *)
Definition take_sign (l : list ascii) : bool * list ascii :=
  match l with
  | c :: l' =>
      if Ascii.eqb c "-" then (true, l')
      else if Ascii.eqb c "+" then (false, l')
      else (false, l)
  | [] => (false, [])
  end.

Definition signed (neg : bool) (q : Q) : Q := if neg then (- q)%Q else q.

(** The exponent part of a float literal, when there is one. *)
Definition exponent (l : list ascii) : option Z :=
  match l with
  | [] => Some 0%Z
  | c :: l' =>
      if Ascii.eqb c "e" || Ascii.eqb c "E" then
        let '(neg, l1) := take_sign l' in
        match take_digits l1 with
        | (d :: ds, []) => Some (if neg then (- value (d :: ds))%Z else value (d :: ds))
        | _ => None
        end
      else None
  end.

Definition scale (q : Q) (e : Z) : Q :=
  if (0 <=? e)%Z then (q * inject_Z (10 ^ e))%Q
  else (q / inject_Z (10 ^ (- e)))%Q.

(** [float(s)] on decimal literals: blanks around, a sign, digits with at
    most one point, an exponent. [None] is the [ValueError] of [float].
    The literals [inf] and [nan] and digit groups written with [_] are
    not covered. *)
Definition py_float (s : string) : option Q :=
  let '(neg, l1) := take_sign (PyStr.strip_chars (PyStr.chars s)) in
  let '(ip, l2) := take_digits l1 in
  let '(fp, l3) :=
    match l2 with
    | c :: l2' => if Ascii.eqb c "." then take_digits l2' else ([], l2)
    | [] => ([], [])
    end in
  match ip, fp with
  | [], [] => None
  | _, _ =>
      match exponent l3 with
      | Some e =>
          Some (signed neg
                  (scale (inject_Z (value ip)
                          + inject_Z (value fp) / inject_Z (pow10 (length fp))) e))
      | None => None
      end
  end.

(** [int(s)] on a string: blanks around, a sign, digits. *)
Definition py_int (s : string) : option Z :=
  let '(neg, l1) := take_sign (PyStr.strip_chars (PyStr.chars s)) in
  match take_digits l1 with
  | (d :: ds, []) => Some (if neg then (- value (d :: ds))%Z else value (d :: ds))
  | _ => None
  end.

End Numeral.

Record ParametrosZona : Type := {
  codigo : string;
  CA_min : option Q;
  CA_bas : option Q;
  CA_max : option Q;
  Tperm : option Q;
  Tocup : option Q;
  Npav_bas : option Z;
  Npav_max : option Z;
  Gab_bas : option Q;
  Gab_max : option Q;
  extras : gmap string json
}.

(** [_conv] of [carregar_parametros_de_arquivo]: a string loses its blanks
    and its dots, its commas become points, and it is read by [float]; a
    string [float] refuses gives [None]; any other value is passed on. *)
Definition _conv (valor : option json) : option Q :=
  match valor with
  | Some (JStr s) =>
      Numeral.py_float
        (PyStr.of_chars
           (PyStr.replace_char "," "."
              (PyStr.remove_char "." (PyStr.strip_chars (PyStr.chars s)))))
  | Some (JNum q) => Some q
  | Some JNull => None
  | None => None
  end.

(** [int(indices[k]) if k in indices and indices[k] is not None else None] *)
Definition conv_int (valor : option json) : res (option Z) :=
  match valor with
  | Some (JNum q) => Ok (Some (py_int_of_float q))
  | Some (JStr s) =>
      match Numeral.py_int s with
      | Some n => Ok (Some n)
      | None => Raise (ValueError "invalid literal for int() with base 10")
      end
  | Some JNull => Ok None
  | None => Ok None
  end.

Definition campos_indices : list string :=
  ["CA_min"; "CA_bas"; "CA_max"; "Tperm"; "Tocup";
   "Npav_bas"; "Npav_max"; "Gab_bas"; "Gab_max"].

(** The body of the loop of [carregar_parametros_de_arquivo] for the entry
    [codigo] whose [indices] object is [indices]. *)
Definition carregar_zona (cod : string) (indices : gmap string json)
  : res ParametrosZona :=
  nb ←? conv_int (indices !! "Npav_bas");
  nm ←? conv_int (indices !! "Npav_max");
  Ok {| codigo := cod;
        CA_min := _conv (indices !! "CA_min");
        CA_bas := _conv (indices !! "CA_bas");
        CA_max := _conv (indices !! "CA_max");
        Tperm := _conv (indices !! "Tperm");
        Tocup := _conv (indices !! "Tocup");
        Npav_bas := nb;
        Npav_max := nm;
        Gab_bas := _conv (indices !! "Gab_bas");
        Gab_max := _conv (indices !! "Gab_max");
        extras := filter (λ kv, kv.1 ∉ campos_indices) indices |}.

(** [carregar_parametros_de_arquivo] on the object [json.load] returned:
    the entries in file order, each with its [indices] object (empty when
    absent or null). *)
Fixpoint carregar_parametros (bruto : list (string * gmap string json))
  (acc : gmap string ParametrosZona) : res (gmap string ParametrosZona) :=
  match bruto with
  | [] => Ok acc
  | (cod, indices) :: resto =>
      p ←? carregar_zona cod indices;
      carregar_parametros resto (<[cod := p]> acc)
  end.

(** Reading the file can fail before any entry is looked at. *)
Definition carregar_parametros_de_arquivo
  (arquivo : res (list (string * gmap string json)))
  : res (gmap string ParametrosZona) :=
  bruto ←? arquivo;
  carregar_parametros bruto ∅.

(** The violation texts of [avaliar_edificacao_na_zona], one constructor per
    f-string, with the values the text is formatted from. *)
Inductive pendencia : Type :=
  | CA_inferior_ao_minimo (ca_real ca_min : Q) (zona : string)
  | CA_superior_ao_maximo (ca_real ca_max : Q) (zona : string)
  | Tocup_superior_a_maxima (tocup_real tocup : Q) (zona : string)
  | Tperm_inferior_a_minima (tperm_real tperm : Q) (zona : string)
  | Npav_superior_ao_maximo (npav npav_max : Z) (zona : string)
  | Altura_superior_ao_gabarito (altura gab_max : Q) (zona : string).

(** The advisory texts of [avaliar_edificacao_na_zona]. *)
Inductive observacao : Type :=
  | CA_nao_avaliado
  | Tocup_nao_avaliada
  | Tperm_nao_avaliada
  | Npav_nao_informado
  | Altura_nao_informada.

(** The scenario field a violation text is about. *)
Inductive campo_cenario : Type :=
  | Area_construida | Area_ocupada | Area_permeavel | Numero_pavimentos | Altura_maxima.

Definition campo_da_pendencia (p : pendencia) : campo_cenario :=
  match p with
  | CA_inferior_ao_minimo _ _ _ | CA_superior_ao_maximo _ _ _ => Area_construida
  | Tocup_superior_a_maxima _ _ _ => Area_ocupada
  | Tperm_inferior_a_minima _ _ _ => Area_permeavel
  | Npav_superior_ao_maximo _ _ _ => Numero_pavimentos
  | Altura_superior_ao_gabarito _ _ _ => Altura_maxima
  end.

Definition campo_da_observacao (o : observacao) : campo_cenario :=
  match o with
  | CA_nao_avaliado => Area_construida
  | Tocup_nao_avaliada => Area_ocupada
  | Tperm_nao_avaliada => Area_permeavel
  | Npav_nao_informado => Numero_pavimentos
  | Altura_nao_informada => Altura_maxima
  end.

Record ResultadoAvaliacaoZona : Type := {
  av_zona : string;
  av_parametros : ParametrosZona;
  conforme : bool;
  pendencias : list pendencia;
  observacoes : list observacao;
  valores_calculados : gmap string Q
}.

Record CenarioEdificacao : Type := {
  area_lote_m2 : Q;
  area_construida_total_m2 : option Q;
  area_ocupada_projecao_m2 : option Q;
  area_permeavel_m2 : option Q;
  altura_maxima_m : option Q;
  numero_pavimentos : option Z
}.

(** The three lists the evaluation appends to. *)
(** Whether the scenario gives the field. *)
Definition informado (c : CenarioEdificacao) (f : campo_cenario) : bool :=
  match f with
  | Area_construida => bool_decide (is_Some (area_construida_total_m2 c))
  | Area_ocupada => bool_decide (is_Some (area_ocupada_projecao_m2 c))
  | Area_permeavel => bool_decide (is_Some (area_permeavel_m2 c))
  | Numero_pavimentos => bool_decide (is_Some (numero_pavimentos c))
  | Altura_maxima => bool_decide (is_Some (altura_maxima_m c))
  end.

Record estado_avaliacao : Type := {
  st_pend : list pendencia;
  st_obs : list observacao;
  st_val : gmap string Q
}.

Definition add_pend (b : bool) (p : pendencia) (st : estado_avaliacao) :=
  if b then {| st_pend := st_pend st ++ [p]; st_obs := st_obs st; st_val := st_val st |}
  else st.

Definition add_obs (o : observacao) (st : estado_avaliacao) :=
  {| st_pend := st_pend st; st_obs := st_obs st ++ [o]; st_val := st_val st |}.

Definition set_val (k : string) (v : Q) (st : estado_avaliacao) :=
  {| st_pend := st_pend st; st_obs := st_obs st; st_val := <[k := v]> (st_val st) |}.

(** [limite is not None and test limite] *)
Definition com_limite {A} (limite : option A) (test : A → bool) : bool :=
  match limite with
  | Some l => test l
  | None => false
  end.

Definition tol_indice : Q := 1 # 1000000.
Definition tol_altura : Q := 1 # 100.

Definition passo_ca (zona : string) (p : ParametrosZona) (c : CenarioEdificacao)
  (st : estado_avaliacao) : estado_avaliacao :=
  match area_construida_total_m2 c with
  | Some ac =>
      let ca_real := (ac / area_lote_m2 c)%Q in
      let st := set_val "CA_real" ca_real st in
      let st :=
        add_pend (com_limite (CA_min p) (λ m, Qlt_bool ca_real (m - tol_indice)))
          (CA_inferior_ao_minimo ca_real (default 0%Q (CA_min p)) zona) st in
      add_pend (com_limite (CA_max p) (λ m, Qlt_bool (m + tol_indice) ca_real))
        (CA_superior_ao_maximo ca_real (default 0%Q (CA_max p)) zona) st
  | None => add_obs CA_nao_avaliado st
  end.

Definition passo_tocup (zona : string) (p : ParametrosZona) (c : CenarioEdificacao)
  (st : estado_avaliacao) : estado_avaliacao :=
  match area_ocupada_projecao_m2 c with
  | Some ao =>
      let tocup_real := (ao / area_lote_m2 c)%Q in
      let st := set_val "Tocup_real" tocup_real st in
      add_pend (com_limite (Tocup p) (λ m, Qlt_bool (m + tol_indice) tocup_real))
        (Tocup_superior_a_maxima tocup_real (default 0%Q (Tocup p)) zona) st
  | None => add_obs Tocup_nao_avaliada st
  end.

Definition passo_tperm (zona : string) (p : ParametrosZona) (c : CenarioEdificacao)
  (st : estado_avaliacao) : estado_avaliacao :=
  match area_permeavel_m2 c with
  | Some ap =>
      let tperm_real := (ap / area_lote_m2 c)%Q in
      let st := set_val "Tperm_real" tperm_real st in
      add_pend (com_limite (Tperm p) (λ m, Qlt_bool (tperm_real + tol_indice) m))
        (Tperm_inferior_a_minima tperm_real (default 0%Q (Tperm p)) zona) st
  | None => add_obs Tperm_nao_avaliada st
  end.

Definition passo_npav (zona : string) (p : ParametrosZona) (c : CenarioEdificacao)
  (st : estado_avaliacao) : estado_avaliacao :=
  match numero_pavimentos c with
  | Some n =>
      let st := set_val "Npav_real" (inject_Z n) st in
      add_pend (com_limite (Npav_max p) (λ m, (m <? n)%Z))
        (Npav_superior_ao_maximo n (default 0%Z (Npav_max p)) zona) st
  | None => add_obs Npav_nao_informado st
  end.

Definition passo_altura (zona : string) (p : ParametrosZona) (c : CenarioEdificacao)
  (st : estado_avaliacao) : estado_avaliacao :=
  match altura_maxima_m c with
  | Some h =>
      let st := set_val "Gab_real" h st in
      add_pend (com_limite (Gab_max p) (λ m, Qlt_bool (m + tol_altura) h))
        (Altura_superior_ao_gabarito h (default 0%Q (Gab_max p)) zona) st
  | None => add_obs Altura_nao_informada st
  end.

Definition msg_area_lote : string := "Área do lote deve ser maior que zero.".

Definition avaliar_edificacao_na_zona (zona : string) (p : ParametrosZona)
  (c : CenarioEdificacao) : res ResultadoAvaliacaoZona :=
  if Qle_bool (area_lote_m2 c) 0 then Raise (ValueError msg_area_lote)
  else
    let st := {| st_pend := []; st_obs := []; st_val := ∅ |} in
    let st := passo_ca zona p c st in
    let st := passo_tocup zona p c st in
    let st := passo_tperm zona p c st in
    let st := passo_npav zona p c st in
    let st := passo_altura zona p c st in
    Ok {| av_zona := zona;
          av_parametros := p;
          conforme := Nat.eqb (length (st_pend st)) 0;
          pendencias := st_pend st;
          observacoes := st_obs st;
          valores_calculados := st_val st |}.

(** ** zoneamento_lote.py: zone-geometry decomposition *)

Definition CAMPOS_CODIGO_ZONA_CANDIDATOS : list string :=
  ["Zoneamento"; "zoneamento"; "ZONA"; "zona"; "ZONE"; "zone";
   "CODIGO"; "Codigo"; "codigo"; "COD_ZONA"; "cod_zona"].

(** What the geometry engine answers for one feature of the zoning layer
    and the parcel at hand. *)
Record FeicaoZoneamento : Type := {
  fz_geom_vazia : bool;          (* geometry() is None or isEmpty() *)
  fz_intersecta : bool;          (* geom_zona.intersects(lote_geom) *)
  fz_inter_vazia : bool;         (* the intersection is None or isEmpty() *)
  fz_area_inter : Q;             (* inter.area() *)
  fz_atributos : list string     (* str() of the attributes, by field index *)
}.

Record CamadaZoneamento : Type := {
  cz_campos : list string;
  cz_feicoes : list FeicaoZoneamento
}.

Record ResultadoZoneamentoGeom : Type := {
  zonas : list string;
  areas_por_zona : gmap string Q;
  area_total_zoneada : Q;
  percentuais : gmap string Q
}.

Definition ResultadoZoneamentoGeom_vazio : ResultadoZoneamentoGeom :=
  {| zonas := []; areas_por_zona := ∅; area_total_zoneada := 0; percentuais := ∅ |}.

Definition pertence (x : string) (l : list string) : bool := bool_decide (x ∈ l).

(** [camada] is [None] for a layer that is absent or is not a vector layer. *)
Definition detectar_campo_codigo_zona (camada : option CamadaZoneamento)
  (campo_forcado : option string) : option string :=
  match camada with
  | None => None
  | Some cam =>
      let nomes_campos := cz_campos cam in
      match campo_forcado with
      | Some c =>
          if PyStr.truthy c && pertence c nomes_campos then Some c
          else List.find (λ nome, pertence nome nomes_campos) CAMPOS_CODIGO_ZONA_CANDIDATOS
      | None => List.find (λ nome, pertence nome nomes_campos) CAMPOS_CODIGO_ZONA_CANDIDATOS
      end
  end.

(** [fields().indexFromName(nome)] *)
Fixpoint indexFromName (nome : string) (campos : list string) : option nat :=
  match campos with
  | [] => None
  | c :: cs => if String.eqb c nome then Some 0%nat else S <$> indexFromName nome cs
  end.

(** One turn of the loop over the features: the map of areas after it, or
    the [KeyError] of an attribute that is not there. *)
Definition acumular_feicao (idx_codigo : nat) (feat : FeicaoZoneamento)
  (areas : gmap string Q) : res (gmap string Q) :=
  if fz_geom_vazia feat then Ok areas
  else if negb (fz_intersecta feat) then Ok areas
  else if fz_inter_vazia feat then Ok areas
  else if Qle_bool (fz_area_inter feat) 0 then Ok areas
  else
    match fz_atributos feat !! idx_codigo with
    | None => Raise (KeyError "idx_codigo")
    | Some v =>
        let cod := PyStr.strip v in
        if negb (PyStr.truthy cod) then Ok areas
        else Ok (<[cod := (default 0%Q (areas !! cod) + fz_area_inter feat)%Q]> areas)
    end.

Fixpoint acumular_feicoes (idx_codigo : nat) (feats : list FeicaoZoneamento)
  (areas : gmap string Q) : res (gmap string Q) :=
  match feats with
  | [] => Ok areas
  | feat :: resto =>
      areas' ←? acumular_feicao idx_codigo feat areas;
      acumular_feicoes idx_codigo resto areas'
  end.

Definition soma_valores (m : gmap string Q) : Q := Qsum (map_to_list m).*2.

Definition calcular_zoneamento_incidente (lote_vazio : bool)
  (camada : option CamadaZoneamento) (campo_codigo_zona : option string)
  : res ResultadoZoneamentoGeom :=
  if lote_vazio then Ok ResultadoZoneamentoGeom_vazio
  else
    match camada with
    | None => Ok ResultadoZoneamentoGeom_vazio
    | Some cam =>
        match detectar_campo_codigo_zona camada campo_codigo_zona with
        | None => Ok ResultadoZoneamentoGeom_vazio
        | Some campo_codigo =>
            match indexFromName campo_codigo (cz_campos cam) with
            | None => Ok ResultadoZoneamentoGeom_vazio
            | Some idx_codigo =>
                areas ←? acumular_feicoes idx_codigo (cz_feicoes cam) ∅;
                if bool_decide (areas = ∅) then Ok ResultadoZoneamentoGeom_vazio
                else
                  let zs := merge_sort String.le (elements (dom areas)) in
                  let area_total := soma_valores areas in
                  Ok {| zonas := zs;
                        areas_por_zona := areas;
                        area_total_zoneada := area_total;
                        percentuais :=
                          if Qle_bool area_total 0 then (λ _, 0%Q) <$> areas
                          else (λ a, (a * 100 / area_total)%Q) <$> areas |}
            end
        end
    end.

(** ** regra_sobreposicao_zoneamento.py: the overlap rulebook *)

Module Regra.

Definition MAPA_LOGRADOURO_EIXO : list (string * string) :=
  [("AV GOVERNADOR CELSO RAMOS", "EU1")].

Definition MAPA_LOGRADOURO_SEMIEIXO : list (string * string) :=
  [("RUA SAO PAULO", "SEMIEIXO"); ("RUA OLINDINA PEIXOTO", "SEMIEIXO")].

Record ResultadoRegraSobreposicao : Type := {
  zonas_consideradas : list string;
  zona_principal : option string;
  tipo_regra : string;
  motivo : string;
  zonas_especiais : list string;
  zonas_eixo : list string;
  zonas_macros : list string
}.

Definition _classificar_zona (codigo : string) : string :=
  if negb (PyStr.truthy codigo) then "OUTRA"
  else
    let cod := PyStr.strip (PyStr.upper codigo) in
    if PyStr.startswith cod "ZE" then "ESPECIAL"
    else if PyStr.startswith_any cod
              ["EIXOACESSO"; "EIXOORLA"; "EU1"; "EU2"; "EU3"; "EU4"; "EA"; "EO"; "EM"]
            || PyStr.contains "EIXO" cod then "EIXO"
    else if PyStr.startswith cod "SEMI" then "SEMIEIXO"
    else if PyStr.startswith_any cod
              ["MUQ"; "MEU"; "MUIS"; "MUCON"; "MUO"; "MUPA"; "MRO"; "MRPA"] then "MACRO"
    else "OUTRA".

Definition MACROZONAS_COEXISTENTES : list string := ["MUO"; "MUPA1"; "MUPA2"; "MRPA"].

Definition _normalizar_nome_logradouro (nome : string) : string :=
  if negb (PyStr.truthy nome) then ""
  else PyStr.sem_marcas (PyStr.strip (PyStr.upper nome)).

(** The first entry of a table whose pattern occurs in the name. *)
Definition procurar_padrao (tabela : list (string * string)) (nome_norm : string)
  : option string :=
  snd <$> List.find (λ pz, PyStr.contains (fst pz) nome_norm) tabela.

Definition _zona_por_logradouro (nome_logradouro : string) : option string :=
  if negb (PyStr.truthy nome_logradouro) then None
  else
    let nome_norm := _normalizar_nome_logradouro nome_logradouro in
    match procurar_padrao MAPA_LOGRADOURO_EIXO nome_norm with
    | Some zona => Some zona
    | None => procurar_padrao MAPA_LOGRADOURO_SEMIEIXO nome_norm
    end.

(** The names of the streets the parcel fronts: the keys of
    [testadas_por_logradouro]. *)
Definition vias (testadas_por_logradouro : gmap string Q) : list string :=
  (map_to_list testadas_por_logradouro).*1.

(** Note 37 deduced from the names of the frontage streets. *)
Definition acesso_lucio_deduzido (testadas_por_logradouro : gmap string Q) : bool :=
  existsb (λ nome_via,
             let n := _normalizar_nome_logradouro nome_via in
             PyStr.contains "LUCIO" n && PyStr.contains "MENDES" n)
          (vias testadas_por_logradouro).

Definition zonas_deduzidas (testadas_por_logradouro : gmap string Q) : list string :=
  omap (λ nome_via,
          match _zona_por_logradouro nome_via with
          | Some z => if PyStr.truthy z then Some z else None
          | None => None
          end)
       (vias testadas_por_logradouro).

(** The loop of [_zona_maior_area]: [melhor] and [melhor_area] so far. *)
Fixpoint maior_area_loop (areas : gmap string Q) (codigos : list string)
  (melhor : option string) (melhor_area : Q) : option string :=
  match codigos with
  | [] => melhor
  | cod :: resto =>
      let a := default 0%Q (areas !! cod) in
      if Qlt_bool melhor_area a
      then maior_area_loop areas resto (Some cod) a
      else maior_area_loop areas resto melhor melhor_area
  end.

Definition _zona_maior_area (areas : gmap string Q) (codigos : list string)
  : option string :=
  maior_area_loop areas codigos None (-1)%Q.

Definition com_categoria (cat : string) (zs : list string) : list string :=
  List.filter (λ z, String.eqb (_classificar_zona z) cat) zs.

Definition fmt (o : option string) : string := default "None" o.

Definition motivo_sem_zoneamento : string :=
  "Nenhuma zona do Anexo III foi identificada sobre o lote. " ++
  "Verificar se a camada de zoneamento está correta ou se o lote " ++
  "está fora da área de abrangência da LC 275/2025.".

Definition motivo_nota10 : string :=
  "Aplicada a Nota 10 do Anexo III da LC 275/2025: " ++
  "empreendimento com acesso único por logradouro específico " ++
  "na Zona ZEOT2. Para fins de índices urbanísticos e parâmetros " ++
  "urbanos, prevalece a disciplina da ZEOT2 sobre as demais zonas incidentes.".

Definition motivo_nota37 : string :=
  "Aplicada a Nota 37 do Anexo III da LC 275/2025: " ++
  "acesso principal do empreendimento voltado para logradouro " ++
  "classificado como MUQ3 (eixo). Para fins de índices urbanísticos " ++
  "e parâmetros de recuo frontal na testada principal, prevalece MUQ3; " ++
  "demais frentes e parâmetros podem observar as macrozonas incidentes.".

Definition motivo_especial (zp : option string) : string :=
  "Foram identificadas zonas especiais (ZE...) incidentes sobre o lote. " ++
  "Pelas regras de sobreposição do Anexo III, a zona especial de maior área " ++
  "(" ++ fmt zp ++ ") prevalece para definição dos parâmetros urbanísticos principais, " ++
  "sem prejuízo de eventuais condicionantes adicionais de eixos ou macrozonas.".

Definition motivo_eixo_sobre_macro (zp : option string) : string :=
  "Foram identificadas zonas de eixo urbano em conjunto com macrozonas " ++
  "não protegidas por regime especial de coexistência. " ++
  "O eixo " ++ fmt zp ++ " prevalece para definição dos parâmetros urbanísticos " ++
  "principais, mantendo-se a aplicação das macrozonas variáveis nas " ++
  "demais áreas do lote.".

Definition motivo_eixo_sobre_semieixo (zp : option string) : string :=
  "Foram identificadas testadas voltadas simultaneamente para eixo e " ++
  "semieixo urbano. Conforme hierarquia viária da LC 275/2025, o eixo " ++
  fmt zp ++ " prevalece para definição dos parâmetros urbanísticos principais.".

Definition motivo_coexistencia : string :=
  "Foram identificadas macrozonas com regime jurídico de coexistência " ++
  "obrigatória (MUO, MUPA, MRPA). Conforme a LC 275/2025, essas zonas " ++
  "não são substituídas por eixos, semieixos ou outras macrozonas, " ++
  "devendo cada uma ser aplicada exclusivamente sobre sua área " ++
  "espacial de incidência no lote ou gleba.".

Definition motivo_apenas_eixo (zp : option string) : string :=
  "Apenas zonas de eixo urbano foram identificadas sobre o lote, sem " ++
  "macrozona associada na área analisada. Considera-se o eixo de maior " ++
  "área (" ++ fmt zp ++ ") como zona principal, devendo-se complementar a interpretação " ++
  "com a leitura do Plano Diretor e do Anexo III para eventuais ajustes.".

Definition motivo_macro_unica (zp : option string) : string :=
  "Foi identificada uma única macrozona sobre o lote " ++
  "(" ++ fmt zp ++ "). Para fins de parâmetros urbanísticos, aplica-se " ++
  "diretamente a disciplina dessa macrozona, sem sobreposição de eixos.".

Definition motivo_macro_multipla (zp : option string) : string :=
  "Foram identificadas múltiplas macrozonas incidentes sobre o lote. " ++
  "A macrozona de maior área (" ++ fmt zp ++ ") tende a ser predominante, porém a " ++
  "interpretação definitiva depende de análise caso a caso, observando " ++
  "as áreas de cada zona, a posição das testadas e o disposto na LC 275/2025.".

Definition motivo_sem_regra : string :=
  "Foram identificadas zonas incidentes sobre o lote, mas o conjunto não " ++
  "se enquadra em nenhuma das regras específicas (Nota 10, Nota 37, eixo " ++
  "sobre macrozona ou presença de zona especial ZE...). A definição de zona " ++
  "principal deve ser feita por análise técnica, com base nas áreas relativas " ++
  "de cada zona e na leitura direta da LC 275/2025 e do Plano Diretor.".

Definition vazia {A} (l : list A) : bool :=
  match l with [] => true | _ => false end.

Definition aplicar_regra_sobreposicao (zonas : list string)
  (areas_por_zona : gmap string Q) (testadas_por_logradouro : gmap string Q)
  (nota10_ativada nota37_ativada : bool) : ResultadoRegraSobreposicao :=
  let zonas_unicas := PyStr.sorted_set zonas in
  if vazia zonas_unicas then
    {| zonas_consideradas := []; zona_principal := None;
       tipo_regra := "SEM_ZONEAMENTO"; motivo := motivo_sem_zoneamento;
       zonas_especiais := []; zonas_eixo := []; zonas_macros := [] |}
  else if nota10_ativada then
    let consideradas := PyStr.sorted_set (zonas_unicas ++ ["ZEOT2"]) in
    {| zonas_consideradas := consideradas; zona_principal := Some "ZEOT2";
       tipo_regra := "NOTA_10_ZEOT2"; motivo := motivo_nota10;
       zonas_especiais := if pertence "ZEOT2" consideradas then ["ZEOT2"] else [];
       zonas_eixo := com_categoria "EIXO" consideradas;
       zonas_macros := com_categoria "MACRO" consideradas |}
  else if nota37_ativada || acesso_lucio_deduzido testadas_por_logradouro then
    let consideradas := PyStr.sorted_set (zonas_unicas ++ ["MUQ3"]) in
    {| zonas_consideradas := consideradas; zona_principal := Some "MUQ3";
       tipo_regra := "NOTA_37_MUQ3"; motivo := motivo_nota37;
       zonas_especiais := com_categoria "ESPECIAL" consideradas;
       zonas_eixo := ["MUQ3"];
       zonas_macros := com_categoria "MACRO" consideradas |}
  else
    let deduzidas := zonas_deduzidas testadas_por_logradouro in
    let zonas_unicas :=
      if vazia deduzidas then zonas_unicas
      else PyStr.sorted_set (zonas_unicas ++ deduzidas) in
    let especiais := com_categoria "ESPECIAL" zonas_unicas in
    let eixo := com_categoria "EIXO" zonas_unicas in
    let semieixo := com_categoria "SEMIEIXO" zonas_unicas in
    let macros := com_categoria "MACRO" zonas_unicas in
    let macros_fixas := List.filter (λ z, pertence z MACROZONAS_COEXISTENTES) macros in
    let macros_variaveis :=
      List.filter (λ z, negb (pertence z MACROZONAS_COEXISTENTES)) macros in
    let maior := _zona_maior_area areas_por_zona in
    if negb (vazia especiais) then
      let zp := maior especiais in
      {| zonas_consideradas := zonas_unicas; zona_principal := zp;
         tipo_regra := "ZONA_ESPECIAL_PREDOMINANTE"; motivo := motivo_especial zp;
         zonas_especiais := especiais; zonas_eixo := eixo; zonas_macros := macros |}
    else if negb (vazia eixo) && negb (vazia macros_variaveis) then
      let zp := maior eixo in
      {| zonas_consideradas := zonas_unicas; zona_principal := zp;
         tipo_regra := "EIXO_SOBRE_MACRO"; motivo := motivo_eixo_sobre_macro zp;
         zonas_especiais := []; zonas_eixo := eixo; zonas_macros := macros |}
    else if negb (vazia eixo) && negb (vazia semieixo) then
      let zp := maior eixo in
      {| zonas_consideradas := zonas_unicas; zona_principal := zp;
         tipo_regra := "EIXO_SOBRE_SEMIEIXO"; motivo := motivo_eixo_sobre_semieixo zp;
         zonas_especiais := []; zonas_eixo := eixo; zonas_macros := macros |}
    else if negb (vazia macros_fixas) then
      {| zonas_consideradas := zonas_unicas;
         zona_principal := if negb (vazia eixo) then maior eixo else None;
         tipo_regra := "COEXISTENCIA_MACROZONAS_FIXAS"; motivo := motivo_coexistencia;
         zonas_especiais := []; zonas_eixo := eixo; zonas_macros := macros |}
    else if negb (vazia eixo) && vazia macros then
      let zp := maior eixo in
      {| zonas_consideradas := zonas_unicas; zona_principal := zp;
         tipo_regra := "APENAS_EIXO"; motivo := motivo_apenas_eixo zp;
         zonas_especiais := []; zonas_eixo := eixo; zonas_macros := [] |}
    else if negb (vazia macros) && vazia eixo then
      match macros with
      | [z] =>
          {| zonas_consideradas := zonas_unicas; zona_principal := Some z;
             tipo_regra := "MACRO_UNICA"; motivo := motivo_macro_unica (Some z);
             zonas_especiais := []; zonas_eixo := []; zonas_macros := macros |}
      | _ =>
          let zp := maior macros in
          {| zonas_consideradas := zonas_unicas; zona_principal := zp;
             tipo_regra := "MACRO_MULTIPLA"; motivo := motivo_macro_multipla zp;
             zonas_especiais := []; zonas_eixo := []; zonas_macros := macros |}
      end
    else
      {| zonas_consideradas := zonas_unicas; zona_principal := None;
         tipo_regra := "SEM_REGRA_ESPECIFICA"; motivo := motivo_sem_regra;
         zonas_especiais := especiais; zonas_eixo := eixo; zonas_macros := macros |}.

End Regra.

(** ** intersecao_zoneamento.py: the raw zoning intersection *)

Record ResultadoZoneamento : Type := {
  rz_zona : option string;
  rz_macrozona : option string;
  rz_eixos : list string;
  rz_especiais : list string;
  rz_mensagens : list string
}.

Definition com_mensagem (msg : string) (r : ResultadoZoneamento) : ResultadoZoneamento :=
  {| rz_zona := rz_zona r; rz_macrozona := rz_macrozona r; rz_eixos := rz_eixos r;
     rz_especiais := rz_especiais r; rz_mensagens := rz_mensagens r ++ [msg] |}.

Definition com_zona (z : option string) (r : ResultadoZoneamento) : ResultadoZoneamento :=
  {| rz_zona := z; rz_macrozona := rz_macrozona r; rz_eixos := rz_eixos r;
     rz_especiais := rz_especiais r; rz_mensagens := rz_mensagens r |}.

(** ** zoneamento_resolvedor.py: the resolver of the analysis engine *)

Module Resolvedor.

Record ZonaAplicada : Type := {
  za_codigo : string;
  za_tipo : string;
  za_area_m2 : Q;
  za_percentual_area : Q;
  za_parametros : option ParametrosZona;
  za_notas : list string;
  za_origem : string
}.

Record ZonaResolvida : Type := {
  zonas_aplicadas : list ZonaAplicada;
  notas_ativas : list string;
  tipo_regra : string;
  resumo : string;
  observacoes : list string;
  macrozona : option string;
  eixos : list string;
  especiais : list string;
  zona_principal : option string;
  zonas_incidentes : list string;
  parametros : option ParametrosZona;
  motivo : string
}.

Definition _classificar_zona (codigo : string) : string :=
  if negb (PyStr.truthy codigo) then "ORDINARIA"
  else
    let cod := PyStr.upper (PyStr.strip codigo) in
    if PyStr.startswith cod "ZE" then "ESPECIAL"
    else if PyStr.startswith cod "EU" || PyStr.startswith cod "EIXO" then "EIXO"
    else if PyStr.startswith cod "MUPA" || PyStr.startswith cod "MRO"
            || PyStr.startswith cod "MRPA" then "AMBIENTAL"
    else if PyStr.startswith cod "MUQ" || PyStr.startswith cod "MUO"
            || PyStr.startswith cod "MUCON" || String.eqb cod "MEU"
            || String.eqb cod "MUIS" then "MACRO"
    else if PyStr.startswith cod "MACRO" || PyStr.startswith cod "MZ" then "MACRO"
    else "ORDINARIA".

Definition _eh_macro_coexistencia (cod : string) : bool :=
  let c := PyStr.upper cod in
  PyStr.startswith c "MUQ" || PyStr.startswith c "MUO" || PyStr.startswith c "MUCON"
  || String.eqb c "MEU" || String.eqb c "MUIS".

Definition resumo_sem_zoneamento : string :=
  "Nenhum zoneamento foi detectado sobre o lote.".
Definition resumo_nota10 : string :=
  "Aplicada Nota 10 (empreendimento com acesso único em ZEOT2).".
Definition resumo_nota37 : string :=
  "Aplicada Nota 37 (lote com frente para a Rua Lúcio Joaquim Mendes em MUQ3).".
Definition resumo_especiais (nomes : string) : string :=
  "Zonas Especiais incidentes: " ++ nomes ++
  ". São consideradas regimes mais restritivos, " ++
  "devendo ser observadas em conjunto com os demais.".
Definition resumo_eixos (nomes : string) : string :=
  "Incidência de eixo(s)/semieixo(s): " ++ nomes ++
  ". Para testadas voltadas a estes logradouros, " ++
  "os recuos frontais deverão ser referidos ao eixo da via; " ++
  "para as demais frentes, prevalecem os recuos das " ++
  "macrozonas/zonas ordinárias correspondentes.".
Definition resumo_ambientais (nomes : string) : string :=
  "Macrozona(s) ambiental(is) identificada(s): " ++ nomes ++
  ". Esses regimes não são sobrepostos por eixos ou " ++
  "zonas urbanas, devendo ter suas condicionantes ambientais " ++
  "aplicadas proporcionalmente à área incidente.".
Definition resumo_macros (nomes : string) : string :=
  "Coexistem macrozonas urbanas do grupo MUO/MUQ/MUCON/MEU/MUIS " ++
  "(" ++ nomes ++ "). Os parâmetros urbanísticos devem ser aplicados " ++
  "proporcionalmente à área de cada macrozona.".
Definition observacao_muis_meu : string :=
  "Há coexistência de áreas em MUIS e MEU. " ++
  "Aplica-se o art. 29 da LC 278/2025 quanto à transformação " ++
  "de área de expansão urbana em urbana, com efeitos " ++
  "urbanísticos e tributários imediatos.".
Definition resumo_ordinarias : string :=
  "Foram identificadas múltiplas zonas ordinárias " ++
  "com áreas equivalentes. Cada zona deve ser " ++
  "aplicada na sua respectiva área de interseção, " ++
  "sem eleição de uma zona única predominante " ++
  "para o lote/gleba.".
Definition resumo_simples : string :=
  "Coexistência simples de zoneamentos incidentes sobre o lote, " ++
  "sem regra específica de prevalência codificada. Cada zona " ++
  "deve ser aplicada na sua área correspondente.".
Definition resumo_referencia (z : string) : string :=
  "Para fins de síntese dos índices urbanísticos, " ++
  "adota-se a zona '" ++ z ++ "' como zona de referência " ++
  "por possuir maior área incidente no lote/gleba.".

(** What [_resolver_sobreposicoes] returns. *)
Record Sobreposicoes : Type := {
  s_zonas_aplicadas : list ZonaAplicada;
  s_notas_ativas : list string;
  s_tipo_regra : string;
  s_resumo : string;
  s_observacoes : list string;
  s_zona_referencia : option string
}.

Definition nao_vazias (l : list string) : list string := List.filter PyStr.truthy l.

Definition area_de (zonas_areas : gmap string Q) (z : string) : Q :=
  default 0%Q (zonas_areas !! z).

(** The set of zones the rules look at: the incident ones, the axes and
    special zones of the raw intersection, and the zones of the notes. *)
Definition zonas_set (zonas : list string) (res_zon : ResultadoZoneamento)
  (nota10_ativada nota37_ativada : bool) : gset string :=
  list_to_set zonas ∪ list_to_set (nao_vazias (rz_eixos res_zon))
  ∪ list_to_set (nao_vazias (rz_especiais res_zon))
  ∪ (if nota10_ativada then {["ZEOT2"]} else ∅)
  ∪ (if nota37_ativada then {["MUQ3"]} else ∅).

Definition info_zona (zonas_areas : gmap string Q) (area_total_incidente : Q)
  (notas : list string) (z : string) : ZonaAplicada :=
  let area := area_de zonas_areas z in
  let nota10 := String.eqb z "ZEOT2" && pertence "10" notas in
  let nota37 := String.eqb z "MUQ3" && pertence "37" notas in
  {| za_codigo := z;
     za_tipo := _classificar_zona z;
     za_area_m2 := area;
     za_percentual_area :=
       if Qlt_bool 0 area_total_incidente
       then (area / area_total_incidente * 100)%Q else 0%Q;
     za_parametros := None;
     za_notas := ((if nota10 then ["10"] else []) ++ (if nota37 then ["37"] else []))%list;
     za_origem := if nota37 then "NOTA37" else if nota10 then "NOTA10" else "INTERSECCAO" |}.

Definition do_tipo (t : string) (l : list ZonaAplicada) : list ZonaAplicada :=
  List.filter (λ z, String.eqb (za_tipo z) t) l.

Definition nomes (l : list ZonaAplicada) : string :=
  PyStr.join ", " (za_codigo <$> l).

Definition maior_area (l : list ZonaAplicada) : option string :=
  za_codigo <$> PyStr.py_max za_area_m2 l.

(** [sorted(l, key=area, reverse=True)] *)
Definition por_area_decrescente (l : list ZonaAplicada) : list ZonaAplicada :=
  merge_sort (λ x y, Is_true (Qle_bool (za_area_m2 y) (za_area_m2 x))) l.

(** The test of step 3.6 on the two largest ordinary zones. *)
Definition ordinarias_equivalentes (ordinarias : list ZonaAplicada)
  (area_total_incidente : Q) : bool :=
  match por_area_decrescente ordinarias with
  | z0 :: z1 :: _ =>
      Qlt_bool 0 area_total_incidente
      && Qlt_bool (Qabs (za_area_m2 z0 - za_area_m2 z1) / area_total_incidente) (5 # 100)
  | _ => false
  end.

Definition _resolver_sobreposicoes (zonas_incidentes : list string)
  (zonas_areas : gmap string Q) (res_zon : ResultadoZoneamento)
  (nota10_ativada nota37_ativada : bool) : Sobreposicoes :=
  let zonas := nao_vazias zonas_incidentes in
  if Regra.vazia zonas then
    {| s_zonas_aplicadas := []; s_notas_ativas := [];
       s_tipo_regra := "SEM_ZONEAMENTO"; s_resumo := resumo_sem_zoneamento;
       s_observacoes := []; s_zona_referencia := None |}
  else
    (* 1. notes 10 and 37 *)
    let notas :=
      ((if nota10_ativada then ["10"] else []) ++ (if nota37_ativada then ["37"] else []))%list in
    let resumo_parts :=
      ((if nota10_ativada then [resumo_nota10] else [])
       ++ (if nota37_ativada then [resumo_nota37] else []))%list in
    let tipo :=
      if nota37_ativada then (if nota10_ativada then "NOTAS_10_E_37" else "NOTA_37_MUQ3")
      else if nota10_ativada then "NOTA_10_ZEOT2" else "COEXISTENCIA_SIMPLES" in
    let ref : option string :=
      if nota10_ativada then Some "ZEOT2"
      else if nota37_ativada then Some "MUQ3" else None in
    (* 2. classification *)
    let zonas_ordenadas :=
      merge_sort String.le
        (elements (zonas_set zonas res_zon nota10_ativada nota37_ativada)) in
    let area_total_incidente := Qsum (area_de zonas_areas <$> zonas_ordenadas) in
    let info_zonas :=
      info_zona zonas_areas area_total_incidente notas <$> zonas_ordenadas in
    let zonas_especiais := do_tipo "ESPECIAL" info_zonas in
    let zonas_eixos := do_tipo "EIXO" info_zonas in
    let zonas_ambientais := do_tipo "AMBIENTAL" info_zonas in
    let zonas_macro := do_tipo "MACRO" info_zonas in
    let zonas_ordinarias := do_tipo "ORDINARIA" info_zonas in
    (* 3.1 special zones *)
    let resumo_parts :=
      if Regra.vazia zonas_especiais then resumo_parts
      else (resumo_parts ++ [resumo_especiais (nomes zonas_especiais)])%list in
    let tipo :=
      if negb (Regra.vazia zonas_especiais) && negb (bool_decide (is_Some ref))
         && String.eqb tipo "COEXISTENCIA_SIMPLES"
      then "ESPECIAL_PREDOMINANTE" else tipo in
    let ref :=
      match ref with
      | Some z => Some z
      | None => maior_area zonas_especiais
      end in
    (* 3.2 axes *)
    let resumo_parts :=
      if Regra.vazia zonas_eixos then resumo_parts
      else (resumo_parts ++ [resumo_eixos (nomes zonas_eixos)])%list in
    let ref :=
      match ref with
      | Some z => Some z
      | None => maior_area zonas_eixos
      end in
    let tipo :=
      if negb (Regra.vazia zonas_eixos) && String.eqb tipo "COEXISTENCIA_SIMPLES"
      then "EIXOS_COEXISTENTES" else tipo in
    (* 3.3 environmental macrozones *)
    let resumo_parts :=
      if Regra.vazia zonas_ambientais then resumo_parts
      else (resumo_parts ++ [resumo_ambientais (nomes zonas_ambientais)])%list in
    (* 3.4 coexisting urban macrozones *)
    let macros_coexistentes :=
      List.filter (λ z, _eh_macro_coexistencia (za_codigo z)) info_zonas in
    let varias := (1 <? length macros_coexistentes)%nat in
    let resumo_parts :=
      if varias then (resumo_parts ++ [resumo_macros (nomes macros_coexistentes)])%list
      else resumo_parts in
    let tipo :=
      if varias && (String.eqb tipo "COEXISTENCIA_SIMPLES"
                    || String.eqb tipo "EIXOS_COEXISTENTES")
      then "COEXISTENCIA_MACROS_URBANAS" else tipo in
    (* 3.5 MUIS with MEU *)
    let codigos_presentes := (λ z, PyStr.upper (za_codigo z)) <$> info_zonas in
    let obs :=
      if pertence "MUIS" codigos_presentes && pertence "MEU" codigos_presentes
      then [observacao_muis_meu] else [] in
    (* 3.6 ordinary zones of equivalent areas *)
    let equivalentes :=
      Regra.vazia zonas_eixos && Regra.vazia zonas_especiais && Regra.vazia zonas_macro
      && (1 <? length zonas_ordinarias)%nat
      && ordinarias_equivalentes zonas_ordinarias area_total_incidente in
    let resumo_parts :=
      if equivalentes then (resumo_parts ++ [resumo_ordinarias])%list else resumo_parts in
    let tipo :=
      if equivalentes && String.eqb tipo "COEXISTENCIA_SIMPLES"
      then "COEXISTENCIA_ORDINARIAS_EQUIVALENTES" else tipo in
    (* 3.7 nothing said so far *)
    let resumo_parts :=
      if Regra.vazia resumo_parts then [resumo_simples] else resumo_parts in
    (* 3.8 the zone of largest area, for the synthesis of the indices *)
    let candidatos :=
      let nao_ambientais :=
        List.filter (λ z, negb (String.eqb (za_tipo z) "AMBIENTAL")) info_zonas in
      if Regra.vazia nao_ambientais then info_zonas else nao_ambientais in
    let fallback : option string :=
      match ref with
      | Some _ => None
      | None => maior_area candidatos
      end in
    let tipo :=
      if bool_decide (is_Some fallback) && String.eqb tipo "COEXISTENCIA_SIMPLES"
      then "ZONA_PREDOMINANTE" else tipo in
    let resumo_parts :=
      match fallback with
      | Some z => (resumo_parts ++ [resumo_referencia z])%list
      | None => resumo_parts
      end in
    let ref :=
      match ref with
      | Some z => Some z
      | None => fallback
      end in
    {| s_zonas_aplicadas := info_zonas; s_notas_ativas := notas;
       s_tipo_regra := tipo; s_resumo := PyStr.join " " resumo_parts;
       s_observacoes := obs; s_zona_referencia := ref |}.

Definition com_parametros (tabela : gmap string ParametrosZona) (za : ZonaAplicada)
  : ZonaAplicada :=
  match tabela !! za_codigo za with
  | Some param =>
      {| za_codigo := za_codigo za; za_tipo := za_tipo za; za_area_m2 := za_area_m2 za;
         za_percentual_area := za_percentual_area za; za_parametros := Some param;
         za_notas := za_notas za; za_origem := za_origem za |}
  | None => za
  end.

(** [ZoneamentoResolvedor.resolver]; [tabela] is the parameter table the
    constructor loaded. *)
Definition resolver (tabela : gmap string ParametrosZona)
  (res_zon : ResultadoZoneamento) (res_geom : ResultadoZoneamentoGeom)
  (nota10_ativada nota37_ativada : bool) : ZonaResolvida :=
  let incidentes := zonas res_geom in
  let areas := areas_por_zona res_geom in
  let '(incidentes, areas) :=
    match rz_zona res_zon with
    | Some z =>
        if PyStr.truthy z && negb (pertence z incidentes)
        then ((incidentes ++ [z])%list,
              match areas !! z with Some _ => areas | None => <[z := 0%Q]> areas end)
        else (incidentes, areas)
    | None => (incidentes, areas)
    end in
  let s := _resolver_sobreposicoes incidentes areas res_zon nota10_ativada nota37_ativada in
  let aplicadas := com_parametros tabela <$> s_zonas_aplicadas s in
  {| zonas_aplicadas := aplicadas;
     notas_ativas := s_notas_ativas s;
     tipo_regra := s_tipo_regra s;
     resumo := s_resumo s;
     observacoes := s_observacoes s;
     macrozona := rz_macrozona res_zon;
     eixos := za_codigo <$> do_tipo "EIXO" aplicadas;
     especiais := za_codigo <$> do_tipo "ESPECIAL" aplicadas;
     zona_principal := s_zona_referencia s;
     zonas_incidentes := PyStr.sorted_set (za_codigo <$> aplicadas);
     parametros :=
       match s_zona_referencia s with
       | Some z => if PyStr.truthy z then tabela !! z else None
       | None => None
       end;
     motivo := "" |}.

End Resolvedor.

(** ** intersecao_inclinacao.py: slope classification *)

Module Inclinacao.

(** One entry of [faixas]; the last three fields are absent from the
    entries the orchestrator writes itself. *)
Record Faixa : Type := {
  faixa : string;
  area_m2 : Q;
  percentual : Q;
  cor : string;
  app : bool;
  min_graus : option Q;
  max_graus : option Q;
  count : option nat
}.

(** The message texts, one constructor per f-string. *)
Inductive mensagem : Type :=
  | Texto (s : string)
  | ErroTecnico (e : exn)
  | Diferenca (diferenca_percentual area_total area_lote : Q)
  | AreaCoerente (area_total : Q)
  | AreaAnalisada (area_total : Q)
  | RasterAnalisado (nome : string)
  | Resolucao (x_res y_res : Q)
  | PixelsValidos (n : nat)
  | AppPorInclinacao (area_app percentual_app : Q).

Record ResultadoInclinacao : Type := {
  faixas : list Faixa;
  area_total_m2 : Q;
  area_app_inclinacao_m2 : Q;
  percentual_app_inclinacao : Q;
  mensagens : list mensagem;
  tem_app_por_inclinacao : bool;
  estatisticas : option (gmap string Q)
}.

(** The slope raster and what the geometry engine answers about it for
    the parcel at hand. *)
Record CamadaInclinacao : Type := {
  ci_nome : string;
  ci_valida : bool;                  (* isValid() *)
  ci_x_res : Q;                      (* rasterUnitsPerPixelX() *)
  ci_y_res : Q;                      (* rasterUnitsPerPixelY() *)
  ci_extent_vazio : bool;            (* the raster and parcel extents do not meet *)
  ci_largura : Q;                    (* extent.width() *)
  ci_altura : Q;                     (* extent.height() *)
  ci_bloco : option (nat → nat → Q); (* provider.block(...): value at row, col *)
  ci_nodata : option Q;              (* the no-data value, when the source has one *)
  ci_dentro : nat → nat → bool      (* the parcel contains the centre of the pixel *)
}.

Record Categoria : Type := {
  cat_id : nat;
  cat_label : string;
  cat_cor : string;
  cat_app : bool;
  cat_min : Q;
  cat_max : Q
}.

Definition classificar_inclinacao (valor_graus : Q) : nat * string * bool :=
  if Qle_bool valor_graus 3 then (1%nat, "≤ 3°", false)
  else if Qle_bool valor_graus 8 then (2%nat, "3° - 8°", false)
  else if Qle_bool valor_graus 15 then (3%nat, "8° - 15°", false)
  else if Qle_bool valor_graus 30 then (4%nat, "15° - 30°", false)
  else if Qle_bool valor_graus 45 then (5%nat, "30° - 45°", false)
  else (6%nat, "> 45° (APP)", true).

Definition obter_categorias_completas : list Categoria :=
  [ {| cat_id := 1; cat_label := "≤ 3°"; cat_cor := "#1a9641"; cat_app := false;
       cat_min := 0; cat_max := 3 |};
    {| cat_id := 2; cat_label := "3° - 8°"; cat_cor := "#fbfdbc"; cat_app := false;
       cat_min := 3; cat_max := 8 |};
    {| cat_id := 3; cat_label := "8° - 15°"; cat_cor := "#fee4a1"; cat_app := false;
       cat_min := 8; cat_max := 15 |};
    {| cat_id := 4; cat_label := "15° - 30°"; cat_cor := "#fec981"; cat_app := false;
       cat_min := 15; cat_max := 30 |};
    {| cat_id := 5; cat_label := "30° - 45°"; cat_cor := "#fdae61"; cat_app := false;
       cat_min := 30; cat_max := 45 |};
    {| cat_id := 6; cat_label := "> 45° (APP)"; cat_cor := "#d7191c"; cat_app := true;
       cat_min := 45; cat_max := 90 |} ].

Definition _resultado_erro_objeto (m : mensagem) : ResultadoInclinacao :=
  {| faixas := []; area_total_m2 := 0; area_app_inclinacao_m2 := 0;
     percentual_app_inclinacao := 0; mensagens := [m];
     tem_app_por_inclinacao := false; estatisticas := Some ∅ |}.

(** The counters of the loop over the pixels. *)
Record contagem : Type := {
  contadores : gmap nat nat;
  pixels_totais : nat;
  pixels_validos : nat
}.

Definition contagem_inicial : contagem :=
  {| contadores := list_to_map ((λ c, (cat_id c, 0%nat)) <$> obter_categorias_completas);
     pixels_totais := 0; pixels_validos := 0 |}.

Definition eh_nodata (nodata : option Q) (valor : Q) : bool :=
  match nodata with
  | Some nd => Qlt_bool (Qabs (valor - nd)) (1 # 10000)
  | None => false
  end.

(** The body of the loop for the pixel at [row], [col]. *)
Definition contar_pixel (cam : CamadaInclinacao) (bloco : nat → nat → Q)
  (c : contagem) (rc : nat * nat) : contagem :=
  let '(row, col) := rc in
  if ci_dentro cam row col then
    let valor := bloco row col in
    let totais := S (pixels_totais c) in
    if eh_nodata (ci_nodata cam) valor then
      {| contadores := contadores c; pixels_totais := totais;
         pixels_validos := pixels_validos c |}
    else if Qle_bool 0 valor && Qle_bool valor 90 then
      let cat := (classificar_inclinacao valor).1.1 in
      {| contadores := <[cat := S (default 0%nat (contadores c !! cat))]> (contadores c);
         pixels_totais := totais;
         pixels_validos := S (pixels_validos c) |}
    else
      {| contadores := contadores c; pixels_totais := totais;
         pixels_validos := pixels_validos c |}
  else c.

(** [for row in range(rows): for col in range(cols)] *)
Definition pixels (rows cols : nat) : list (nat * nat) :=
  row ← seq 0 rows; col ← seq 0 cols; [(row, col)].

Definition Qnat (n : nat) : Q := inject_Z (Z.of_nat n).

(** [max(1, int(extensao / res) + 1)] *)
Definition tamanho_bloco (extensao res : Q) : nat :=
  Z.to_nat (Z.max 1 (py_int_of_float (extensao / res) + 1)).

Definition faixa_da_categoria (area_pixel_m2 : Q) (validos : nat) (c : contagem)
  (cat : Categoria) : option Faixa :=
  let n := default 0%nat (contadores c !! cat_id cat) in
  if (0 <? n)%nat then
    Some {| faixa := cat_label cat;
            area_m2 := py_round2 (Qnat n * area_pixel_m2);
            percentual := py_round2 (Qnat n / Qnat validos * 100);
            cor := cat_cor cat;
            app := cat_app cat;
            min_graus := Some (cat_min cat);
            max_graus := Some (cat_max cat);
            count := Some n |}
  else None.

Definition area_app (area_pixel_m2 : Q) (c : contagem) : Q :=
  Qsum ((λ cat, Qnat (default 0%nat (contadores c !! cat_id cat)) * area_pixel_m2)%Q
          <$> List.filter cat_app obter_categorias_completas).

(** [analisar_inclinacao_terreno]; an exception raised in its body is
    caught there and becomes an error result. The entries of [faixas] are
    produced in the order of the bands, which the final sort keeps. *)
Definition analisar_inclinacao_terreno (lote_vazio : bool) (cam : CamadaInclinacao)
  (area_lote_m2 : option Q) : ResultadoInclinacao :=
  if negb (ci_valida cam) then _resultado_erro_objeto (Texto "Camada de inclinação inválida")
  else if lote_vazio then _resultado_erro_objeto (Texto "Geometria do lote vazia")
  else
    let x_res := ci_x_res cam in
    let y_res := ci_y_res cam in
    let area_pixel_m2 := Qabs (x_res * y_res) in
    if ci_extent_vazio cam
    then _resultado_erro_objeto (Texto "Raster não cobre a área do lote")
    else if Qzero_bool x_res || Qzero_bool y_res
    then _resultado_erro_objeto (ErroTecnico ZeroDivisionError)
    else
      let cols := tamanho_bloco (ci_largura cam) x_res in
      let rows := tamanho_bloco (ci_altura cam) y_res in
      match ci_bloco cam with
      | None => _resultado_erro_objeto (Texto "Não foi possível ler dados do raster")
      | Some bloco =>
          let c := foldl (contar_pixel cam bloco) contagem_inicial (pixels rows cols) in
          let validos := pixels_validos c in
          if (validos =? 0)%nat
          then _resultado_erro_objeto (Texto "Nenhum pixel válido dentro do lote")
          else
            let area_total := (Qnat validos * area_pixel_m2)%Q in
            let area_app_m2 := area_app area_pixel_m2 c in
            let resultados :=
              omap (faixa_da_categoria area_pixel_m2 validos c) obter_categorias_completas in
            let msg_area :=
              match area_lote_m2 with
              | Some al =>
                  if Qlt_bool 0 al then
                    let dif := Qabs ((area_total - al) / al * 100) in
                    if Qlt_bool 20 dif then Diferenca dif area_total al
                    else AreaCoerente area_total
                  else AreaAnalisada area_total
              | None => AreaAnalisada area_total
              end in
            let percentual_app :=
              if Qlt_bool 0 area_total then (area_app_m2 / area_total * 100)%Q else 0%Q in
            {| faixas := resultados;
               area_total_m2 := py_round2 area_total;
               area_app_inclinacao_m2 := py_round2 area_app_m2;
               percentual_app_inclinacao := py_round2 percentual_app;
               mensagens :=
                 ([msg_area; RasterAnalisado (ci_nome cam); Resolucao x_res y_res;
                   PixelsValidos validos]
                  ++ (if Qlt_bool 0 area_app_m2
                      then [AppPorInclinacao area_app_m2 percentual_app] else []))%list;
               tem_app_por_inclinacao := Qlt_bool 0 area_app_m2;
               estatisticas :=
                 Some (<["pixels_totais" := Qnat (pixels_totais c)]>
                       (<["pixels_validos" := Qnat validos]>
                        (<["resolucao_x" := x_res]>
                         (<["resolucao_y" := y_res]>
                          (<["area_pixel_m2" := area_pixel_m2]>
                           (<["percentual_cobertura" :=
                                if (0 <? pixels_totais c)%nat
                                then (Qnat validos / Qnat (pixels_totais c) * 100)%Q
                                else 0%Q]> ∅)))))) |}
      end.

End Inclinacao.

(** ** testadas.py: boundary segments, frontages and divides *)

Module Testadas.

Definition Ponto : Type := Q * Q.

(** A parcel geometry: a polygon is its rings, a multipolygon a list of
    polygons; a ring is the list of its vertices, the first one repeated
    at the end. *)
Inductive Geometria : Type :=
  | Poligono (aneis : list (list Ponto))
  | MultiPoligono (poligonos : list (list (list Ponto))).

(** The answers of the geometry engine about the two-point line from [a]
    to [b] and about the parcel. *)
Record Motor : Type := {
  seg_vazio : Ponto → Ponto → bool;   (* the line is null or isEmpty() *)
  seg_length : Ponto → Ponto → Q;     (* length() *)
  seg_meio : Ponto → Ponto → Ponto;   (* interpolate(length / 2).asPoint() *)
  raiz : Q → Q;                       (* x ** 0.5 *)
  lote_contem : Ponto → bool          (* lote_geom.contains(point) *)
}.

Record FeicaoLote : Type := {
  fl_no_indice : Ponto → bool;        (* the spatial index returns the feature *)
  fl_valida : bool;
  fl_geom_vazia : bool;
  fl_contem : Ponto → bool;
  fl_atributos : gmap string string
}.

Record CamadaLotes : Type := {
  cl_campos : list string;
  cl_feicoes : list FeicaoLote
}.

Record FeicaoVia : Type := {
  fv_no_indice : Ponto → Ponto → bool;      (* the index returns it for the ray *)
  fv_geom_vazia : bool;
  fv_intersecta : Ponto → Ponto → bool;     (* geometry().intersects(ray) *)
  fv_distancia : Ponto → Q;                  (* geometry().distance(point) *)
  fv_atributos : gmap string string
}.

Record CamadaLogradouros : Type := {
  cv_campos : list string;
  cv_feicoes : list FeicaoVia
}.

Record SegmentoTestada : Type := {
  id_segmento : nat;
  geom : Ponto * Ponto;
  comprimento_m : Q;
  logradouro : option string;
  tipo_limite : string;
  confrontante : option string
}.

Record ResultadoTestadas : Type := {
  segmentos : list SegmentoTestada;
  testadas_por_logradouro : gmap string Q;
  confrontantes_por_proprietario : gmap string Q
}.

Definition CAMPOS_NOME_LOGRADOURO : list string :=
  ["NOME"; "nome"; "Name"; "NAME"; "nm_logradouro"; "NM_LOGRADOURO";
   "nm_lograd"; "NM_LOGRAD"; "TEXTO"; "texto"].

Definition CAMPOS_NOME_PROPRIETARIO : list string :=
  ["proprietario"; "proprietário"; "PROPRIETARIO"; "PROPRIETÁRIO";
   "Proprietario"; "Proprietário"; "PROPRIET"; "propriet"].

(** A candidate name that is a field, else a field whose name has the
    fragment; the source looks for the latter in a set of names, whose
    order is not fixed: here the fields are tried in layer order. *)
Definition achar_campo (candidatos : list string) (fragmento : string)
  (campos : list string) : option string :=
  match List.find (λ c, pertence c campos) candidatos with
  | Some c => Some c
  | None => List.find (λ nome, PyStr.contains fragmento (PyStr.lower nome)) campos
  end.

Definition _achar_campo_nome_logradouro (cam : option CamadaLogradouros) : option string :=
  cam ≫= λ c, achar_campo CAMPOS_NOME_LOGRADOURO "nome" (cv_campos c).

Definition _achar_campo_proprietario (cam : option CamadaLotes) : option string :=
  cam ≫= λ c, achar_campo CAMPOS_NOME_PROPRIETARIO "propriet" (cl_campos c).

(** [_normal_e_ponto_fora]: the outward unit normal of the segment and
    the probe point one unit along it. The line has the two points it was
    built from, so its polyline is never shorter than two. *)
Definition _normal_e_ponto_fora (G : Motor) (a b : Ponto) : option (Ponto * Ponto) :=
  if seg_vazio G a b then None
  else
    let len := seg_length G a b in
    if Qle_bool len 0 then None
    else
      let mid := seg_meio G a b in
      let dx := (b.1 - a.1)%Q in
      let dy := (b.2 - a.2)%Q in
      let n := raiz G (dx * dx + dy * dy) in
      if Qzero_bool n then None
      else
        let ux := (dx / n)%Q in
        let uy := (dy / n)%Q in
        let n1 : Ponto := ((- uy)%Q, ux) in
        let n2 : Ponto := (uy, (- ux)%Q) in
        let cand1 : Ponto := ((mid.1 + n1.1 * 1)%Q, (mid.2 + n1.2 * 1)%Q) in
        let cand2 : Ponto := ((mid.1 + n2.1 * 1)%Q, (mid.2 + n2.2 * 1)%Q) in
        let inside1 := lote_contem G cand1 in
        let inside2 := lote_contem G cand2 in
        if inside1 && negb inside2 then Some (n2, cand2)
        else if inside2 && negb inside1 then Some (n1, cand1)
        else Some (n2, cand2).

(** The features of the lots layer that contain the point, in the order
    the index gives them. *)
Definition lotes_que_contem (cam : CamadaLotes) (pt : Ponto) : list FeicaoLote :=
  List.filter (λ f, fl_no_indice f pt && fl_valida f && negb (fl_geom_vazia f)
                    && fl_contem f pt)
              (cl_feicoes cam).

Definition _ponto_cai_em_algum_lote (pt : Ponto) (cam : option CamadaLotes) : bool :=
  match cam with
  | None => false
  | Some c => negb (Regra.vazia (lotes_que_contem c pt))
  end.

Definition _obter_confrontante_para_ponto (pt : Ponto) (cam : option CamadaLotes)
  (campo_proprietario : option string) : option string :=
  match cam, campo_proprietario with
  | Some c, Some campo =>
      head (omap (λ f, fl_atributos f !! campo) (lotes_que_contem c pt))
  | _, _ => None
  end.

(** The consecutive vertices of a ring. *)
Fixpoint arestas (anel : list Ponto) : list (Ponto * Ponto) :=
  match anel with
  | a :: resto =>
      match resto with
      | b :: _ => (a, b) :: arestas resto
      | [] => []
      end
  | [] => []
  end.

Definition aneis_de (g : Geometria) : list (list Ponto) :=
  match g with
  | Poligono aneis => aneis
  | MultiPoligono poligonos => concat poligonos
  end.

(** [lote_geom] is [None] for a geometry that is absent or empty. *)
Definition _segmentar_borda_lote (G : Motor) (lote_geom : option Geometria)
  : list (Ponto * Ponto) :=
  match lote_geom with
  | None => []
  | Some g =>
      List.filter (λ ab, negb (seg_vazio G ab.1 ab.2))
                  (concat (arestas <$> aneis_de g))
  end.

(** The nearest road the ray from the midpoint meets: the loop keeps the
    first of the candidates at the least distance. *)
Fixpoint via_mais_proxima (mid : Ponto) (candidatos : list FeicaoVia)
  (melhor : option (FeicaoVia * Q)) : option FeicaoVia :=
  match candidatos with
  | [] => fst <$> melhor
  | v :: resto =>
      let dist := fv_distancia v mid in
      match melhor with
      | None => via_mais_proxima mid resto (Some (v, dist))
      | Some (_, melhor_dist) =>
          if Qlt_bool dist melhor_dist
          then via_mais_proxima mid resto (Some (v, dist))
          else via_mais_proxima mid resto melhor
      end
  end.

Definition logradouro_do_raio (G : Motor) (cam : option CamadaLogradouros)
  (campo_nome_log : option string) (a b : Ponto) (normal : Ponto) (max_dist_m : Q)
  : option string :=
  match cam, campo_nome_log with
  | Some c, Some campo =>
      let mid := seg_meio G a b in
      let pt_fim : Ponto :=
        ((mid.1 + normal.1 * max_dist_m)%Q, (mid.2 + normal.2 * max_dist_m)%Q) in
      let candidatos :=
        List.filter (λ v, fv_no_indice v mid pt_fim && negb (fv_geom_vazia v)
                          && fv_intersecta v mid pt_fim)
                    (cv_feicoes c) in
      via_mais_proxima mid candidatos None ≫= λ v, fv_atributos v !! campo
  | _, _ => None
  end.

(** The classification of one segment: street, kind of limit, neighbour. *)
Definition classificar_segmento (G : Motor) (camada_lotes : option CamadaLotes)
  (camada_logradouros : option CamadaLogradouros) (max_dist_m : Q) (a b : Ponto)
  : option string * string * option string :=
  let campo_nome_log := _achar_campo_nome_logradouro camada_logradouros in
  let campo_proprietario := _achar_campo_proprietario camada_lotes in
  match _normal_e_ponto_fora G a b with
  | Some (normal, pt_out) =>
      if _ponto_cai_em_algum_lote pt_out camada_lotes then
        (None, "DIVISA",
         _obter_confrontante_para_ponto pt_out camada_lotes campo_proprietario)
      else
        match logradouro_do_raio G camada_logradouros campo_nome_log a b normal max_dist_m with
        | Some nome =>
            if PyStr.truthy nome then (Some nome, "TESTADA", None)
            else (Some nome, "DIVISA", None)
        | None => (None, "DIVISA", None)
        end
  | None => (None, "DIVISA", None)
  end.

Definition somar (k : option string) (v : Q) (m : gmap string Q) : gmap string Q :=
  match k with
  | Some nome =>
      if PyStr.truthy nome then <[nome := (default 0%Q (m !! nome) + v)%Q]> m else m
  | None => m
  end.

(** The loop of [calcular_testadas_e_logradouros] over the numbered
    segments. *)
Fixpoint percorrer (G : Motor) (camada_lotes : option CamadaLotes)
  (camada_logradouros : option CamadaLogradouros) (max_dist_m : Q)
  (numerados : list (nat * (Ponto * Ponto))) (r : ResultadoTestadas)
  : ResultadoTestadas :=
  match numerados with
  | [] => r
  | (idx_seg, (a, b)) :: resto =>
      if seg_vazio G a b
      then percorrer G camada_lotes camada_logradouros max_dist_m resto r
      else
        let comp_m := seg_length G a b in
        if Qle_bool comp_m 0
        then percorrer G camada_lotes camada_logradouros max_dist_m resto r
        else
          let '(logr, tipo, confr) :=
            classificar_segmento G camada_lotes camada_logradouros max_dist_m a b in
          let seg := {| id_segmento := idx_seg; geom := (a, b); comprimento_m := comp_m;
                        logradouro := logr; tipo_limite := tipo; confrontante := confr |} in
          percorrer G camada_lotes camada_logradouros max_dist_m resto
            {| segmentos := (segmentos r ++ [seg])%list;
               testadas_por_logradouro := somar logr comp_m (testadas_por_logradouro r);
               confrontantes_por_proprietario :=
                 if String.eqb tipo "DIVISA"
                 then somar confr comp_m (confrontantes_por_proprietario r)
                 else confrontantes_por_proprietario r |}
  end.

Definition ResultadoTestadas_vazio : ResultadoTestadas :=
  {| segmentos := []; testadas_por_logradouro := ∅; confrontantes_por_proprietario := ∅ |}.

(** [enumerate(l, start=1)] *)
Definition enumerate1 {A} (l : list A) : list (nat * A) :=
  zip (seq 1 (length l)) l.

Definition calcular_testadas_e_logradouros (G : Motor) (lote_geom : option Geometria)
  (camada_lotes : option CamadaLotes) (camada_logradouros : option CamadaLogradouros)
  (max_dist_m : Q) : ResultadoTestadas :=
  match lote_geom with
  | None => ResultadoTestadas_vazio
  | Some _ =>
      percorrer G camada_lotes camada_logradouros max_dist_m
        (enumerate1 (_segmentar_borda_lote G lote_geom)) ResultadoTestadas_vazio
  end.

(** The perimeter of a geometry: the lengths of the edges of its rings. *)
Definition perimetro (G : Motor) (g : Geometria) : Q :=
  Qsum ((λ ab, seg_length G ab.1 ab.2) <$> concat (arestas <$> aneis_de g)).

End Testadas.

(** ** motor_analise_lote.py: the orchestrator *)

Module MotorAnaliseLote.

(** The module-level names the body of [analisar_lote] reads without
    binding them itself: a name that is not bound raises [NameError]
    where it is read. *)
Record Globais : Type := {
  g_nota10_ativada : option bool;
  g_nota37_ativada : option bool
}.

(** The names as the module binds them: neither is a parameter or a local
    of [analisar_lote] (its parameter is [nota10_confirmada]) and the
    module defines neither. *)
Definition globais_do_modulo : Globais :=
  {| g_nota10_ativada := None; g_nota37_ativada := None |}.

Definition ler_nome (nome : string) (v : option bool) : res bool :=
  match v with
  | Some b => Ok b
  | None => Raise (NameError nome)
  end.

(** What the layer registry and the collaborators outside the engine
    give for the request. *)
Record Ambiente : Type := {
  camada_zoneamento : option CamadaZoneamento;       (* obter_camada("zoneamento") *)
  camada_lotes : option Testadas.CamadaLotes;        (* obter_camada("lotes") *)
  camada_logradouros : option Testadas.CamadaLogradouros;
  camada_inclinacao : option Inclinacao.CamadaInclinacao;
  motor : Testadas.Motor;
  res_zon_bruto : ResultadoZoneamento;               (* intersecao_zoneamento(geom_lote) *)
  res_app : list string;                             (* intersecao_app(geom_lote) *)
  res_risco : list string;                           (* intersecao_risco(geom_lote) *)
  arquivo_parametros : res (list (string * gmap string json))
}.

Record ResultadoAnaliseLote : Type := {
  zoneamento_intersecao : ResultadoZoneamento;
  zoneamento_avaliacao : option ResultadoAvaliacaoZona;
  app : list string;
  risco : list string;
  zoneamento_geom : option ResultadoZoneamentoGeom;
  zona_resolvida : option Resolvedor.ZonaResolvida;
  testadas : option Testadas.ResultadoTestadas;
  inclinacao : option Inclinacao.ResultadoInclinacao;
  detectou_frente_nota_10 : bool;
  detectou_frente_nota_37 : bool;
  nome_via_nota_10 : option string
}.

(** [valor if valor is a result else None], for a call inside a [try]
    whose handler sets the result to [None]. *)
Definition tentar {A} (r : res A) : option A :=
  match r with
  | Ok a => Some a
  | Raise _ => None
  end.

Definition vias_de (t : option Testadas.ResultadoTestadas) : list string :=
  match t with
  | Some r => (map_to_list (Testadas.testadas_por_logradouro r)).*1
  | None => []
  end.

Definition frente (padrao : string) (nome_logradouro : string) : bool :=
  PyStr.contains padrao (PyStr.strip (PyStr.lower nome_logradouro)).

(** The example bands written when there is no slope layer. *)
Definition faixas_exemplo (area_lote : Q) : list Inclinacao.Faixa :=
  let f nome fator perc cor_ app_ :=
    {| Inclinacao.faixa := nome; Inclinacao.area_m2 := (area_lote * fator)%Q;
       Inclinacao.percentual := perc; Inclinacao.cor := cor_; Inclinacao.app := app_;
       Inclinacao.min_graus := None; Inclinacao.max_graus := None;
       Inclinacao.count := None |} in
  [ f "≤ 3°" 0.4%Q 40%Q "#1a9641" false;
    f "3° - 8°" 0.25%Q 25%Q "#fbfdbc" false;
    f "8° - 15°" 0.15%Q 15%Q "#fee4a1" false;
    f "15° - 30°" 0.10%Q 10%Q "#fec981" false;
    f "30° - 45°" 0.07%Q 7%Q "#fdae61" false;
    f "> 45° (APP)" 0.03%Q 3%Q "#d7191c" true ].

Definition inclinacao_exemplo (area_lote : Q) : Inclinacao.ResultadoInclinacao :=
  let area_app_exemplo := (area_lote * 0.03)%Q in
  {| Inclinacao.faixas := faixas_exemplo area_lote;
     Inclinacao.area_total_m2 := area_lote;
     Inclinacao.area_app_inclinacao_m2 := py_round2 area_app_exemplo;
     Inclinacao.percentual_app_inclinacao := py_round2 3;
     Inclinacao.mensagens :=
       [Inclinacao.Texto
          "Dados de exemplo - Camada de inclinação não encontrada no projeto"];
     Inclinacao.tem_app_por_inclinacao := Qlt_bool 0 area_app_exemplo;
     Inclinacao.estatisticas := None |}.

Definition msg_notas (notas : list string) : string :=
  "Notas do Anexo III aplicadas: " ++ PyStr.join ", " notas.
Definition msg_regra (tipo : string) : string :=
  "Regime de aplicação definido pela regra: " ++ tipo ++ ".".
Definition msg_sem_parametros (z : string) : string :=
  "Parâmetros urbanísticos da zona '" ++ z ++
  "' não encontrados no arquivo de parâmetros.".
Definition msg_sem_referencia : string :=
  "Não foi possível definir zona de referência para " ++
  "avaliação numérica dos índices urbanísticos.".
Definition msg_app_inclinacao : string :=
  "Detectada APP por inclinação do terreno (>45°).".

(** Step 3.1: the table is loaded by the constructor, outside the [try];
    the call of the resolver, with the reading of its arguments, is
    inside it. *)
Definition resolver_zoneamento (g : Globais) (amb : Ambiente)
  (res_zon : ResultadoZoneamento) (res_geom : option ResultadoZoneamentoGeom)
  : res (option Resolvedor.ZonaResolvida) :=
  match res_geom with
  | None => Ok None
  | Some geo =>
      tabela ←? carregar_parametros_de_arquivo (arquivo_parametros amb);
      Ok (tentar (n10 ←? ler_nome "nota10_ativada" (g_nota10_ativada g);
                  n37 ←? ler_nome "nota37_ativada" (g_nota37_ativada g);
                  Ok (Resolvedor.resolver tabela res_zon geo n10 n37)))
  end.

(** Step 3.2: the messages of the resolver and the raw zone aligned with
    the reference zone. *)
Definition integrar_mensagens (zr : option Resolvedor.ZonaResolvida)
  (res_zon : ResultadoZoneamento) : ResultadoZoneamento :=
  match zr with
  | None => res_zon
  | Some r =>
      let res_zon :=
        if Regra.vazia (Resolvedor.notas_ativas r) then res_zon
        else com_mensagem (msg_notas (Resolvedor.notas_ativas r)) res_zon in
      let res_zon :=
        if PyStr.truthy (Resolvedor.motivo r)
        then com_mensagem (Resolvedor.motivo r) res_zon else res_zon in
      let res_zon :=
        if PyStr.truthy (Resolvedor.tipo_regra r)
           && negb (String.eqb (Resolvedor.tipo_regra r) "NAO_DEFINIDA")
        then com_mensagem (msg_regra (Resolvedor.tipo_regra r)) res_zon else res_zon in
      match Resolvedor.zona_principal r with
      | Some z => if PyStr.truthy z then com_zona (Some z) res_zon else res_zon
      | None => res_zon
      end
  end.

(** The reference zone, when there is one that is not empty. *)
Definition zona_de_referencia (zr : option Resolvedor.ZonaResolvida) : option string :=
  zr ≫= λ r,
    match Resolvedor.zona_principal r with
    | Some z => if PyStr.truthy z then Some z else None
    | None => None
    end.

(** Step 3.3: the numeric evaluation; its call is not inside a [try]. *)
Definition avaliar_indices (zr : option Resolvedor.ZonaResolvida)
  (cenario : CenarioEdificacao) (res_zon : ResultadoZoneamento)
  : res (option ResultadoAvaliacaoZona * ResultadoZoneamento) :=
  match zr, zona_de_referencia zr with
  | Some r, Some z =>
      match Resolvedor.parametros r with
      | Some p =>
          av ←? avaliar_edificacao_na_zona z p cenario;
          Ok (Some av, res_zon)
      | None => Ok (None, com_mensagem (msg_sem_parametros z) res_zon)
      end
  | _, _ => Ok (None, com_mensagem msg_sem_referencia res_zon)
  end.

(** Step 4: the slope analysis, or the example data when the layer is
    not there. *)
Definition analisar_inclinacao (amb : Ambiente) (cenario : CenarioEdificacao)
  (res_zon : ResultadoZoneamento)
  : option Inclinacao.ResultadoInclinacao * ResultadoZoneamento :=
  match camada_inclinacao amb with
  | Some cam =>
      let r := Inclinacao.analisar_inclinacao_terreno false cam
                 (Some (area_lote_m2 cenario)) in
      (Some r,
       if Inclinacao.tem_app_por_inclinacao r
       then com_mensagem msg_app_inclinacao res_zon else res_zon)
  | None => (Some (inclinacao_exemplo (area_lote_m2 cenario)), res_zon)
  end.

(** Step 2.1: the decomposition by zone, [None] when the layer is not
    there or the call raises. *)
Definition decompor_zoneamento (amb : Ambiente) : option ResultadoZoneamentoGeom :=
  match camada_zoneamento amb with
  | Some _ => tentar (calcular_zoneamento_incidente false (camada_zoneamento amb) None)
  | None => None
  end.

(** Step 2.2: the boundary segments, when there is a lots layer. *)
Definition medir_testadas (amb : Ambiente) (geom_lote : option Testadas.Geometria)
  (max_dist_testada_m : Q) : option Testadas.ResultadoTestadas :=
  match camada_lotes amb with
  | Some _ =>
      Some (Testadas.calcular_testadas_e_logradouros (motor amb) geom_lote
              (camada_lotes amb) (camada_logradouros amb) max_dist_testada_m)
  | None => None
  end.

(** [analisar_lote]; [geom_lote] is [None] for a geometry that is absent
    or empty. *)
Definition analisar_lote (g : Globais) (amb : Ambiente)
  (geom_lote : option Testadas.Geometria) (cenario : CenarioEdificacao)
  (nota10_confirmada : bool) (max_dist_testada_m : Q) : res ResultadoAnaliseLote :=
  match geom_lote with
  | None => Raise (ValueError "Geometria do lote inválida ou vazia.")
  | Some _ =>
      let res_zon := res_zon_bruto amb in
      (* 2.1 *)
      let res_geom := decompor_zoneamento amb in
      (* 2.2 *)
      let res_testadas := medir_testadas amb geom_lote max_dist_testada_m in
      (* 2.3 *)
      let nomes := vias_de res_testadas in
      let via10 := List.filter (frente "sebastião manoel coelho") nomes in
      (* 3 *)
      zr ←? resolver_zoneamento g amb res_zon res_geom;
      let res_zon := integrar_mensagens zr res_zon in
      av ←? avaliar_indices zr cenario res_zon;
      let '(res_av_zon, res_zon) := av in
      (* 4 *)
      let '(res_inclinacao, res_zon) := analisar_inclinacao amb cenario res_zon in
      Ok {| zoneamento_intersecao := res_zon;
            zoneamento_avaliacao := res_av_zon;
            app := res_app amb;
            risco := res_risco amb;
            zoneamento_geom := res_geom;
            zona_resolvida := zr;
            testadas := res_testadas;
            inclinacao := res_inclinacao;
            detectou_frente_nota_10 := negb (Regra.vazia via10);
            detectou_frente_nota_37 := existsb (frente "lúcio joaquim mendes") nomes;
            nome_via_nota_10 := last via10 |}
  end.

End MotorAnaliseLote.

(** ** Numerals with a dot between thousands and a decimal comma *)

Module NumeralBR.

Inductive digito : Type := D0 | D1 | D2 | D3 | D4 | D5 | D6 | D7 | D8 | D9.

Definition valor_digito (d : digito) : Z :=
  match d with
  | D0 => 0 | D1 => 1 | D2 => 2 | D3 => 3 | D4 => 4
  | D5 => 5 | D6 => 6 | D7 => 7 | D8 => 8 | D9 => 9
  end%Z.

Definition char_digito (d : digito) : ascii :=
  match d with
  | D0 => "0" | D1 => "1" | D2 => "2" | D3 => "3" | D4 => "4"
  | D5 => "5" | D6 => "6" | D7 => "7" | D8 => "8" | D9 => "9"
  end%char.

(** A numeral: a sign, a first group of digits that is not empty, further
    groups each written after a dot, and the digits after the comma when
    there is one. *)
Record numeral : Type := {
  negativo : bool;
  primeiro : digito;
  resto_grupo : list digito;
  grupos : list (list digito);
  decimais : option (list digito)
}.

Definition inteiros (n : numeral) : list digito :=
  primeiro n :: resto_grupo n ++ concat (grupos n).

(** The text of the numeral. *)
Definition escrever_chars (n : numeral) : list ascii :=
  (if negativo n then ["-"%char] else [])
  ++ (char_digito <$> (primeiro n :: resto_grupo n))
  ++ concat ((λ g, "."%char :: (char_digito <$> g)) <$> grupos n)
  ++ match decimais n with
     | Some ds => ","%char :: (char_digito <$> ds)
     | None => []
     end.

Definition escrever (n : numeral) : string := PyStr.of_chars (escrever_chars n).

(** The number the numeral denotes. *)
Definition valor (n : numeral) : Q :=
  let ds := default [] (decimais n) in
  Numeral.signed (negativo n)
    (inject_Z (Numeral.value (valor_digito <$> inteiros n))
     + inject_Z (Numeral.value (valor_digito <$> ds))
       / inject_Z (Numeral.pow10 (length ds))).

(** The fields of [ParametrosZona] that hold a real number, by the name
    of their entry in [indices]. *)
Definition campo_real (nome : string) (p : ParametrosZona) : option Q :=
  if String.eqb nome "CA_min" then CA_min p
  else if String.eqb nome "CA_bas" then CA_bas p
  else if String.eqb nome "CA_max" then CA_max p
  else if String.eqb nome "Tperm" then Tperm p
  else if String.eqb nome "Tocup" then Tocup p
  else if String.eqb nome "Gab_bas" then Gab_bas p
  else if String.eqb nome "Gab_max" then Gab_max p
  else None.

Definition campos_reais : list string :=
  ["CA_min"; "CA_bas"; "CA_max"; "Tperm"; "Tocup"; "Gab_bas"; "Gab_max"].

(** 1.234,5 *)
Definition n_1234_5 : numeral :=
  {| negativo := false; primeiro := D1; resto_grupo := [];
     grupos := [[D2; D3; D4]]; decimais := Some [D5] |}.

End NumeralBR.

(** ** A request, for the examples *)

Module Exemplo.

(** A square parcel of side 10 with a corner at the origin. *)
Definition quadrado : Testadas.Geometria :=
  Testadas.Poligono [[(0, 0); (10, 0); (10, 10); (0, 10); (0, 0)]]%Q.

(** The geometry engine on segments parallel to the axes: the length of
    such a segment is the sum of its extents along the axes, and the
    root is exact on the squares of integers. *)
Definition motor_quadrado : Testadas.Motor :=
  {| Testadas.seg_vazio := λ _ _, false;
     Testadas.seg_length := λ a b, (Qabs (b.1 - a.1) + Qabs (b.2 - a.2))%Q;
     Testadas.seg_meio := λ a b, (((a.1 + b.1) / 2)%Q, ((a.2 + b.2) / 2)%Q);
     Testadas.raiz := λ x, inject_Z (Z.sqrt (Qfloor x));
     Testadas.lote_contem := λ p,
       Qlt_bool 0 p.1 && Qlt_bool p.1 10 && Qlt_bool 0 p.2 && Qlt_bool p.2 10 |}.

Definition feicao_zona (cod : string) (area : Q) : FeicaoZoneamento :=
  {| fz_geom_vazia := false; fz_intersecta := true; fz_inter_vazia := false;
     fz_area_inter := area; fz_atributos := [cod] |}.

(** A zoning layer whose only zone, MUQ2, covers the parcel. *)
Definition camada_muq2 : CamadaZoneamento :=
  {| cz_campos := ["zona"]; cz_feicoes := [feicao_zona "MUQ2" 100] |}.

(** A parameter table with MUQ2 and a maximum floor-area ratio of 1. *)
Definition tabela_muq2 : list (string * gmap string json) :=
  [("MUQ2", <["CA_max" := JNum 1]> (<["CA_min" := JStr "0,1"]> ∅))].

Definition res_zon_vazio : ResultadoZoneamento :=
  {| rz_zona := None; rz_macrozona := None; rz_eixos := []; rz_especiais := [];
     rz_mensagens := [] |}.

(** The layers of a project with zoning and lots, and no slope raster. *)
Definition ambiente : MotorAnaliseLote.Ambiente :=
  {| MotorAnaliseLote.camada_zoneamento := Some camada_muq2;
     MotorAnaliseLote.camada_lotes :=
       Some {| Testadas.cl_campos := []; Testadas.cl_feicoes := [] |};
     MotorAnaliseLote.camada_logradouros := None;
     MotorAnaliseLote.camada_inclinacao := None;
     MotorAnaliseLote.motor := motor_quadrado;
     MotorAnaliseLote.res_zon_bruto := res_zon_vazio;
     MotorAnaliseLote.res_app := [];
     MotorAnaliseLote.res_risco := [];
     MotorAnaliseLote.arquivo_parametros := Ok tabela_muq2 |}.

(** The parameters of MUQ2 as the table gives them. *)
Definition parametros_muq2 : ParametrosZona :=
  {| codigo := "MUQ2"; CA_min := Some 0.1%Q; CA_bas := None; CA_max := Some 1%Q;
     Tperm := None; Tocup := None; Npav_bas := None; Npav_max := None;
     Gab_bas := None; Gab_max := None; extras := ∅ |}.

(** 600 m² built on a parcel of 500 m². *)
Definition cenario : CenarioEdificacao :=
  {| area_lote_m2 := 500; area_construida_total_m2 := Some 600%Q;
     area_ocupada_projecao_m2 := None; area_permeavel_m2 := None;
     altura_maxima_m := None; numero_pavimentos := None |}.

(** The same scenario with a parcel area of zero. *)
Definition cenario_sem_area : CenarioEdificacao :=
  {| area_lote_m2 := 0; area_construida_total_m2 := Some 600%Q;
     area_ocupada_projecao_m2 := None; area_permeavel_m2 := None;
     altura_maxima_m := None; numero_pavimentos := None |}.

(** The two names bound to [False], as a caller that passed no note
    would have them. *)
Definition globais_ligados : MotorAnaliseLote.Globais :=
  {| MotorAnaliseLote.g_nota10_ativada := Some false;
     MotorAnaliseLote.g_nota37_ativada := Some false |}.

(** A slope raster of one pixel inside the parcel, whose value is the
    no-data value. *)
Definition raster_sem_dados : Inclinacao.CamadaInclinacao :=
  {| Inclinacao.ci_nome := "inclinacao"; Inclinacao.ci_valida := true;
     Inclinacao.ci_x_res := 10; Inclinacao.ci_y_res := 10;
     Inclinacao.ci_extent_vazio := false;
     Inclinacao.ci_largura := 5; Inclinacao.ci_altura := 5;
     Inclinacao.ci_bloco := Some (λ _ _, (-9999)%Q);
     Inclinacao.ci_nodata := Some (-9999)%Q;
     Inclinacao.ci_dentro := λ _ _, true |}.

Definition areas_ze : gmap string Q := <["ZE1" := 300%Q]> (<["ZE2" := 300%Q]> ∅).
Definition areas_ze3 : gmap string Q := <["ZE3" := 500%Q]> areas_ze.

End Exemplo.

(** ** Vocabulary of the statements *)

(** The text [_conv] hands to [float] for a numeral: the dots gone, the
    comma turned into a point. *)
Definition texto_float (n : NumeralBR.numeral) : list ascii :=
  ((if NumeralBR.negativo n then ["-"%char] else [])
   ++ (NumeralBR.char_digito <$> NumeralBR.inteiros n)
   ++ match NumeralBR.decimais n with
      | Some ds => "."%char :: (NumeralBR.char_digito <$> ds)
      | None => []
      end)%list.

(** The integer a numeral with neither groups nor decimals denotes. *)
Definition valor_inteiro (n : NumeralBR.numeral) : Z :=
  let v := Numeral.value (NumeralBR.valor_digito <$> NumeralBR.inteiros n) in
  if NumeralBR.negativo n then (- v)%Z else v.

(** What one step of the evaluation does to the lists: it appends
    violations [ps], all about the field [f], and advisories [os]; when the
    scenario omits the field, no violation and the advisory [o]. *)
Definition passo_de (c : CenarioEdificacao) (f : campo_cenario) (o : observacao)
  (passo : estado_avaliacao → estado_avaliacao) : Prop :=
  ∀ st, ∃ ps os,
    st_pend (passo st) = (st_pend st ++ ps)%list
    ∧ st_obs (passo st) = (st_obs st ++ os)%list
    ∧ Forall (λ pd, campo_da_pendencia pd = f) ps
    ∧ (informado c f = false → ps = [] ∧ os = [o]).

(** [x] is the first of the elements of [l] with the greatest key. *)
Definition primeiro_maior {A} (key : A → Q) (l : list A) (x : A) : Prop :=
  ∃ pre post, l = (pre ++ x :: post)%list
    ∧ (∀ y, y ∈ pre → (key y < key x)%Q)
    ∧ (∀ y, y ∈ post → (key y <= key x)%Q).

(** The zones the engine's resolver lists, in the order of the codes. *)
Definition zonas_ordenadas (zonas : list string) (res_zon : ResultadoZoneamento)
  (n10 n37 : bool) : list string :=
  merge_sort String.le
    (elements (Resolvedor.zonas_set (Resolvedor.nao_vazias zonas) res_zon n10 n37)).

(** The zones the rulebook classifies: the incident ones and those deduced
    from the frontages. *)
Definition zonas_da_regra (zonas : list string) (testadas : gmap string Q) : list string :=
  if Regra.vazia (Regra.zonas_deduzidas testadas) then PyStr.sorted_set zonas
  else PyStr.sorted_set (PyStr.sorted_set zonas ++ Regra.zonas_deduzidas testadas).


(** Every area of the map is strictly positive. *)
Definition areas_positivas (m : gmap string Q) : Prop :=
  map_Forall (λ _ a, (0 < a)%Q) m.




(** ** Further vocabulary of the statements *)


(** The key of [valores_calculados] the value of a scenario field is
    written under. *)
Definition chave_do_campo (f : campo_cenario) : string :=
  match f with
  | Area_construida => "CA_real"
  | Area_ocupada => "Tocup_real"
  | Area_permeavel => "Tperm_real"
  | Numero_pavimentos => "Npav_real"
  | Altura_maxima => "Gab_real"
  end.

(** The value written for a field, when the scenario gives it. *)
Definition indicador (c : CenarioEdificacao) (f : campo_cenario) : option Q :=
  match f with
  | Area_construida => (λ a, a / area_lote_m2 c)%Q <$> area_construida_total_m2 c
  | Area_ocupada => (λ a, a / area_lote_m2 c)%Q <$> area_ocupada_projecao_m2 c
  | Area_permeavel => (λ a, a / area_lote_m2 c)%Q <$> area_permeavel_m2 c
  | Numero_pavimentos => inject_Z <$> numero_pavimentos c
  | Altura_maxima => altura_maxima_m c
  end.


(** The zone code under which a feature of the zoning layer is counted,
    when it is: its geometry is not empty, it meets the parcel in a part
    that is not empty and has a positive area, and its code, read at the
    index [idx_codigo] and stripped, is not empty. *)
Definition zona_da_feicao (idx_codigo : nat) (feat : FeicaoZoneamento) : option string :=
  if fz_geom_vazia feat || negb (fz_intersecta feat) || fz_inter_vazia feat
     || Qle_bool (fz_area_inter feat) 0
  then None
  else
    match fz_atributos feat !! idx_codigo with
    | Some v => if PyStr.truthy (PyStr.strip v) then Some (PyStr.strip v) else None
    | None => None
    end.




(** What [classificar_segmento] gives a segment of the result. *)
Definition classificado (cl : option Testadas.CamadaLotes) (cv : option Testadas.CamadaLogradouros)
  (s : Testadas.SegmentoTestada) : Prop :=
  (Testadas.tipo_limite s = "TESTADA" ↔ ∃ nome, Testadas.logradouro s = Some nome ∧ nome ≠ "")
  ∧ (Testadas.tipo_limite s = "TESTADA" → Testadas.confrontante s = None)
  ∧ (is_Some (Testadas.confrontante s) →
     Testadas.tipo_limite s = "DIVISA" ∧ Testadas.logradouro s = None ∧ is_Some cl)
  ∧ (is_Some (Testadas.logradouro s) → is_Some cv).


(** The second zoning result has the messages of the first and then
    possibly others, and the same macrozone, axes and special zones. *)
Definition acrescenta_mensagens (a b : ResultadoZoneamento) : Prop :=
  rz_mensagens a `prefix_of` rz_mensagens b
  ∧ rz_macrozona b = rz_macrozona a
  ∧ rz_eixos b = rz_eixos a
  ∧ rz_especiais b = rz_especiais a.


(** [x] is the first of the elements of [l] with the least key. *)
Definition primeiro_menor {A} (key : A → Q) (l : list A) (x : A) : Prop :=
  ∃ pre post, l = (pre ++ x :: post)%list
    ∧ (∀ y, y ∈ pre → (key x < key y)%Q)
    ∧ (∀ y, y ∈ post → (key x <= key y)%Q).

(** The roads the ray from the midpoint of the segment [ab] meets: those
    the index gives for the ray, with a geometry, that intersect it. *)
Definition vias_cruzadas (G : Testadas.Motor) (cam : Testadas.CamadaLogradouros)
  (ab : Testadas.Ponto * Testadas.Ponto) (normal : Testadas.Ponto) (max_dist_m : Q)
  : list Testadas.FeicaoVia :=
  let mid := Testadas.seg_meio G ab.1 ab.2 in
  let pt_fim : Testadas.Ponto :=
    ((mid.1 + normal.1 * max_dist_m)%Q, (mid.2 + normal.2 * max_dist_m)%Q) in
  List.filter (λ v, Testadas.fv_no_indice v mid pt_fim
                    && negb (Testadas.fv_geom_vazia v)
                    && Testadas.fv_intersecta v mid pt_fim)
              (Testadas.cv_feicoes cam).

(** A roads layer with one road, Rua A, that every ray meets. *)
Definition camada_rua_a : Testadas.CamadaLogradouros :=
  {| Testadas.cv_campos := ["NOME"];
     Testadas.cv_feicoes :=
       [{| Testadas.fv_no_indice := λ _ _, true;
           Testadas.fv_geom_vazia := false;
           Testadas.fv_intersecta := λ _ _, true;
           Testadas.fv_distancia := λ _, 5%Q;
           Testadas.fv_atributos := {["NOME" := "Rua A"]} |}] |}.

(** * Properties *)

Open Scope list_scope.

(** ** Numerals *)

Section Numerais.

Import NumeralBR.

Lemma chars_of_chars l : PyStr.chars (PyStr.of_chars l) = l.
Proof. apply list_ascii_of_string_of_list_ascii. Qed.

Lemma dropwhile_sem_espaco l :
  Forall (λ c, PyStr.isspace c = false) l → PyStr.dropwhile PyStr.isspace l = l.
Proof. destruct 1 as [|c l Hc _]; simpl; [done|]. by rewrite Hc. Qed.

Lemma strip_chars_sem_espaco l :
  Forall (λ c, PyStr.isspace c = false) l → PyStr.strip_chars l = l.
Proof.
  intros H. unfold PyStr.strip_chars.
  rewrite (dropwhile_sem_espaco l H).
  rewrite dropwhile_sem_espaco; [apply rev_involutive|].
  by apply List.Forall_rev.
Qed.

Lemma digito_sem_espaco d : PyStr.isspace (char_digito d) = false.
Proof. by destruct d. Qed.

Lemma digitos_sem_espaco ds : Forall (λ c, PyStr.isspace c = false) (char_digito <$> ds).
Proof. induction ds; constructor; auto using digito_sem_espaco. Qed.

Lemma digit_of_char d : Numeral.digit_of (char_digito d) = Some (valor_digito d).
Proof. by destruct d. Qed.

Lemma take_digits_app ds r :
  match r with [] => True | c :: _ => Numeral.digit_of c = None end →
  Numeral.take_digits ((char_digito <$> ds) ++ r) = (valor_digito <$> ds, r).
Proof.
  intros Hr. induction ds as [|d ds IH]; simpl.
  - destruct r as [|c r]; [done|]. simpl. by rewrite Hr.
  - rewrite digit_of_char. fold (fmap (M:=list) char_digito ds). by rewrite IH.
Qed.

Lemma remove_ponto_digitos ds :
  PyStr.remove_char "." (char_digito <$> ds) = char_digito <$> ds.
Proof. induction ds as [|d ds IH]; [done|]. simpl. destruct d; simpl; by f_equal. Qed.

Lemma replace_virgula_digitos ds :
  PyStr.replace_char "," "." (char_digito <$> ds) = char_digito <$> ds.
Proof. induction ds as [|d ds IH]; [done|]. simpl. destruct d; simpl; by f_equal. Qed.

Lemma remove_char_app a l1 l2 :
  PyStr.remove_char a (l1 ++ l2) = PyStr.remove_char a l1 ++ PyStr.remove_char a l2.
Proof. apply List.filter_app. Qed.

Lemma replace_char_app a b l1 l2 :
  PyStr.replace_char a b (l1 ++ l2) = PyStr.replace_char a b l1 ++ PyStr.replace_char a b l2.
Proof. apply List.map_app. Qed.

Lemma remove_ponto_grupos gs :
  PyStr.remove_char "." (concat ((λ g, "."%char :: (char_digito <$> g)) <$> gs))
  = char_digito <$> concat gs.
Proof.
  induction gs as [|g gs IH]; [done|].
  rewrite fmap_cons. cbn [concat]. rewrite fmap_app, <- IH.
  change (("."%char :: (char_digito <$> g)) ++ ?r) with (["."%char] ++ (char_digito <$> g) ++ r).
  rewrite !remove_char_app, remove_ponto_digitos. done.
Qed.

Lemma conv_texto n :
  PyStr.replace_char "," "."
    (PyStr.remove_char "." (PyStr.strip_chars (escrever_chars n)))
  = texto_float n.
Proof.
  rewrite strip_chars_sem_espaco.
  2:{ unfold escrever_chars. rewrite !Forall_app. repeat split.
      - destruct (negativo n); repeat constructor.
      - apply digitos_sem_espaco.
      - induction (grupos n) as [|g gs IH]; simpl; [constructor|].
        constructor; [done|]. rewrite Forall_app. split; [apply digitos_sem_espaco|done].
      - destruct (decimais n); [|constructor]. constructor; [done|apply digitos_sem_espaco]. }
  unfold escrever_chars, texto_float, inteiros.
  rewrite !remove_char_app, remove_ponto_digitos, remove_ponto_grupos.
  rewrite !replace_char_app, !replace_virgula_digitos.
  f_equal; [by destruct (negativo n)|].
  rewrite app_assoc. f_equal.
  - by rewrite app_comm_cons, fmap_app.
  - destruct (decimais n) as [ds|]; [|done].
    change (","%char :: ?r) with ([","%char] ++ r).
    by rewrite remove_char_app, replace_char_app, remove_ponto_digitos, replace_virgula_digitos.
Qed.

Lemma texto_float_sem_espaco n : Forall (λ c, PyStr.isspace c = false) (texto_float n).
Proof.
  unfold texto_float. rewrite !Forall_app. repeat split.
  - destruct (negativo n); repeat constructor.
  - apply digitos_sem_espaco.
  - destruct (decimais n); [|constructor]. constructor; [done|apply digitos_sem_espaco].
Qed.

Lemma scale_0 q : (Numeral.scale q 0 == q)%Q.
Proof. unfold Numeral.scale. cbn [Z.leb Z.compare]. apply Qmult_1_r. Qed.

Lemma signed_proper b q1 q2 : (q1 == q2)%Q → (Numeral.signed b q1 == Numeral.signed b q2)%Q.
Proof. intros H. destruct b; simpl; by rewrite H. Qed.

Lemma py_float_texto n :
  ∃ q, Numeral.py_float (PyStr.of_chars (texto_float n)) = Some q ∧ (q == valor n)%Q.
Proof.
  unfold Numeral.py_float. rewrite chars_of_chars.
  rewrite strip_chars_sem_espaco by apply texto_float_sem_espaco.
  unfold texto_float, valor.
  set (ints := inteiros n).
  assert (Hints : ∃ d ds, ints = d :: ds) by (unfold ints, inteiros; eauto).
  destruct Hints as (d & ds & Hints).
  set (tail := match decimais n with Some ds0 => "."%char :: (char_digito <$> ds0) | None => [] end).
  assert (Htail : match tail with [] => True | c :: _ => Numeral.digit_of c = None end).
  { unfold tail. by destruct (decimais n). }
  assert (Hsign : Numeral.take_sign ((if negativo n then ["-"%char] else []) ++ (char_digito <$> ints) ++ tail)
                  = (negativo n, (char_digito <$> ints) ++ tail)).
  { destruct (negativo n); [done|]. rewrite Hints. simpl. by destruct d. }
  rewrite Hsign. rewrite (take_digits_app ints tail Htail).
  assert (Hne : ∃ v vs, valor_digito <$> ints = v :: vs) by (rewrite Hints; simpl; eauto).
  destruct Hne as (v & vs & Hv).
  unfold tail. destruct (decimais n) as [fs|].
  - pose proof (take_digits_app fs [] I) as Hfs. rewrite app_nil_r in Hfs.
    rewrite Ascii.eqb_refl, Hfs.
    destruct (valor_digito <$> ints) as [|v' vs'] eqn:E; [discriminate Hv|].
    cbn [Numeral.exponent]. eexists. split; [reflexivity|].
    apply signed_proper. rewrite scale_0. by rewrite length_fmap.
  - destruct (valor_digito <$> ints) as [|v' vs'] eqn:E; [discriminate Hv|].
    cbn [Numeral.exponent]. eexists. split; [reflexivity|].
    apply signed_proper. by rewrite scale_0.
Qed.

Lemma conv_numeral n :
  ∃ q, _conv (Some (JStr (escrever n))) = Some q ∧ (q == valor n)%Q.
Proof.
  unfold _conv, escrever. rewrite chars_of_chars, conv_texto. apply py_float_texto.
Qed.

End Numerais.

(** ** Compliance evaluation *)

Lemma Qle_bool_false_lt a b : Qle_bool a b = false ↔ (b < a)%Q.
Proof.
  split.
  - intros H. apply Qnot_le_lt. intros Hle. apply Qle_bool_iff in Hle. congruence.
  - intros H. destruct (Qle_bool a b) eqn:E; [|done].
    apply Qle_bool_iff in E. exfalso. by apply (Qlt_not_le _ _ H).
Qed.

Lemma Qlt_bool_true a b : Qlt_bool a b = true ↔ (a < b)%Q.
Proof. unfold Qlt_bool. rewrite negb_true_iff. apply Qle_bool_false_lt. Qed.

Lemma st_pend_add_pend b pd st :
  st_pend (add_pend b pd st) = st_pend st ++ (if b then [pd] else []).
Proof. destruct b; simpl; [done|]. by rewrite app_nil_r. Qed.

Lemma st_obs_add_pend b pd st : st_obs (add_pend b pd st) = st_obs st.
Proof. by destruct b. Qed.

Lemma Forall_se {A} (P : A → Prop) (b : bool) x : P x → Forall P (if b then [x] else []).
Proof. destruct b; repeat constructor; done. Qed.

Ltac passo_resolvido :=
  rewrite ?st_pend_add_pend, ?st_obs_add_pend; cbn [st_pend st_obs set_val add_obs];
  rewrite ?app_nil_r; try (rewrite <- app_assoc); try reflexivity.

Lemma informado_falso {A B} (x : A) : bool_decide (is_Some (Some x)) = false → B.
Proof. intros H%bool_decide_eq_false. exfalso. apply H. eauto. Qed.

Lemma passo_ca_de zona p c : passo_de c Area_construida CA_nao_avaliado (passo_ca zona p c).
Proof.
  intros st. unfold passo_ca, informado.
  destruct (area_construida_total_m2 c) as [ac|].
  - lazymatch goal with
    | |- context [add_pend ?b1 ?pd1 (add_pend ?b2 ?pd2 _)] =>
        exists ((if b2 then [pd2] else []) ++ (if b1 then [pd1] else [])), []
    end.
    split; [passo_resolvido|]. split; [passo_resolvido|].
    split; [|apply informado_falso]. apply Forall_app; split; by apply Forall_se.
  - exists [], [CA_nao_avaliado]. split; [passo_resolvido|]. split; [passo_resolvido|]. split; [constructor|done].
Qed.

Lemma passo_tocup_de zona p c : passo_de c Area_ocupada Tocup_nao_avaliada (passo_tocup zona p c).
Proof.
  intros st. unfold passo_tocup, informado.
  destruct (area_ocupada_projecao_m2 c) as [ao|].
  - lazymatch goal with
    | |- context [add_pend ?b ?pd _] => exists (if b then [pd] else []), []
    end.
    split; [passo_resolvido|]. split; [passo_resolvido|].
    split; [|apply informado_falso]. by apply Forall_se.
  - exists [], [Tocup_nao_avaliada]. split; [passo_resolvido|]. split; [passo_resolvido|]. split; [constructor|done].
Qed.

Lemma passo_tperm_de zona p c : passo_de c Area_permeavel Tperm_nao_avaliada (passo_tperm zona p c).
Proof.
  intros st. unfold passo_tperm, informado.
  destruct (area_permeavel_m2 c) as [ap|].
  - lazymatch goal with
    | |- context [add_pend ?b ?pd _] => exists (if b then [pd] else []), []
    end.
    split; [passo_resolvido|]. split; [passo_resolvido|].
    split; [|apply informado_falso]. by apply Forall_se.
  - exists [], [Tperm_nao_avaliada]. split; [passo_resolvido|]. split; [passo_resolvido|]. split; [constructor|done].
Qed.

Lemma passo_npav_de zona p c : passo_de c Numero_pavimentos Npav_nao_informado (passo_npav zona p c).
Proof.
  intros st. unfold passo_npav, informado.
  destruct (numero_pavimentos c) as [n|].
  - lazymatch goal with
    | |- context [add_pend ?b ?pd _] => exists (if b then [pd] else []), []
    end.
    split; [passo_resolvido|]. split; [passo_resolvido|].
    split; [|apply informado_falso]. by apply Forall_se.
  - exists [], [Npav_nao_informado]. split; [passo_resolvido|]. split; [passo_resolvido|]. split; [constructor|done].
Qed.

Lemma passo_altura_de zona p c : passo_de c Altura_maxima Altura_nao_informada (passo_altura zona p c).
Proof.
  intros st. unfold passo_altura, informado.
  destruct (altura_maxima_m c) as [h|].
  - lazymatch goal with
    | |- context [add_pend ?b ?pd _] => exists (if b then [pd] else []), []
    end.
    split; [passo_resolvido|]. split; [passo_resolvido|].
    split; [|apply informado_falso]. by apply Forall_se.
  - exists [], [Altura_nao_informada]. split; [passo_resolvido|]. split; [passo_resolvido|]. split; [constructor|done].
Qed.

(** The evaluation raises exactly on a parcel area that is not positive. *)
Lemma avaliar_raise zona p c :
  (area_lote_m2 c <= 0)%Q → avaliar_edificacao_na_zona zona p c = Raise (ValueError msg_area_lote).
Proof.
  intros H. unfold avaliar_edificacao_na_zona.
  apply Qle_bool_iff in H. by rewrite H.
Qed.


Lemma conforme_sse l : (length l =? 0)%nat = true ↔ l = @nil pendencia.
Proof. destruct l; simpl; split; congruence. Qed.

(** C6: for a parcel area that is positive the evaluation returns a result
    whose [conforme] flag is true exactly when the list of violations is
    empty; and a field the scenario omits leaves an advisory about it and
    no violation about it. *)
Theorem avaliar_conforme_sse_sem_pendencias zona p c :
  (0 < area_lote_m2 c)%Q →
  ∃ r, avaliar_edificacao_na_zona zona p c = Ok r
    ∧ (conforme r = true ↔ pendencias r = [])
    ∧ (∀ f, informado c f = false →
         (∃ o, o ∈ observacoes r ∧ campo_da_observacao o = f)
         ∧ (∀ pd, pd ∈ pendencias r → campo_da_pendencia pd ≠ f)).
Proof.
  intros H. unfold avaliar_edificacao_na_zona.
  apply Qle_bool_false_lt in H. rewrite H.
  eexists. split; [reflexivity|]. cbn [conforme pendencias observacoes].
  split; [apply conforme_sse|].
  set (st0 := {| st_pend := []; st_obs := []; st_val := ∅ |}).
  destruct (passo_ca_de zona p c st0) as (ps1 & os1 & Hp1 & Ho1 & Hf1 & Hn1).
  set (st1 := passo_ca zona p c st0) in *.
  destruct (passo_tocup_de zona p c st1) as (ps2 & os2 & Hp2 & Ho2 & Hf2 & Hn2).
  set (st2 := passo_tocup zona p c st1) in *.
  destruct (passo_tperm_de zona p c st2) as (ps3 & os3 & Hp3 & Ho3 & Hf3 & Hn3).
  set (st3 := passo_tperm zona p c st2) in *.
  destruct (passo_npav_de zona p c st3) as (ps4 & os4 & Hp4 & Ho4 & Hf4 & Hn4).
  set (st4 := passo_npav zona p c st3) in *.
  destruct (passo_altura_de zona p c st4) as (ps5 & os5 & Hp5 & Ho5 & Hf5 & Hn5).
  set (st5 := passo_altura zona p c st4) in *.
  rewrite Hp5, Hp4, Hp3, Hp2, Hp1, Ho5, Ho4, Ho3, Ho2, Ho1. simpl.
  intros f Hf. split.
  - destruct f;
      [destruct (Hn1 Hf) as [_ ->]; exists CA_nao_avaliado
      |destruct (Hn2 Hf) as [_ ->]; exists Tocup_nao_avaliada
      |destruct (Hn3 Hf) as [_ ->]; exists Tperm_nao_avaliada
      |destruct (Hn4 Hf) as [_ ->]; exists Npav_nao_informado
      |destruct (Hn5 Hf) as [_ ->]; exists Altura_nao_informada];
      (split; [|done]); rewrite !elem_of_app, !list_elem_of_singleton; tauto.
  - intros pd. rewrite !elem_of_app. rewrite Forall_forall in Hf1, Hf2, Hf3, Hf4, Hf5.
    intros Hin Heq.
    assert (∀ ps g, Forall (λ pd, campo_da_pendencia pd = g) ps → pd ∈ ps →
                    (informado c g = false → ps = [] ∧ True) → False) as Hcase.
    { intros ps g Hall Hpd Hnone. rewrite Forall_forall in Hall.
      specialize (Hall _ Hpd). rewrite Heq in Hall. subst g.
      destruct (Hnone Hf) as [-> _]. by apply not_elem_of_nil in Hpd. }
    rewrite <- Forall_forall in Hf1, Hf2, Hf3, Hf4, Hf5.
    destruct Hin as [[[[Hin|Hin]|Hin]|Hin]|Hin];
      [eapply (Hcase ps1) | eapply (Hcase ps2) | eapply (Hcase ps3)
      | eapply (Hcase ps4) | eapply (Hcase ps5)]; eauto;
      intros Hg; split; [|done|idtac|done|idtac|done|idtac|done|idtac|done];
      [apply (Hn1 Hg)|apply (Hn2 Hg)|apply (Hn3 Hg)|apply (Hn4 Hg)|apply (Hn5 Hg)].
Qed.

(** ** Lists, sorted codes and the greatest area *)

Section listas.
Context {A : Type}.
Implicit Types (l : list A) (f : A → bool).

Lemma elem_of_lfilter f l x : x ∈ List.filter f l ↔ x ∈ l ∧ f x = true.
Proof. rewrite !list_elem_of_In. apply List.filter_In. Qed.


Lemma lfilter_nenhum f l : (∀ x, x ∈ l → f x = false) → List.filter f l = [].
Proof.
  induction l as [|a l IH]; intros H; [done|]. simpl.
  rewrite (H a) by left. apply IH. intros x Hx. apply H. by right.
Qed.

Lemma vazia_nil l : Regra.vazia l = true ↔ l = [].
Proof. by destruct l. Qed.

Lemma vazia_false l x : x ∈ l → Regra.vazia l = false.
Proof. destruct l; [by intros ?%not_elem_of_nil|done]. Qed.
End listas.

(** [sorted(set(l))] has the elements of [l], each once, in the order of
    the codes. *)
Lemma elem_of_sorted_set l x : x ∈ PyStr.sorted_set l ↔ x ∈ l.
Proof.
  unfold PyStr.sorted_set. rewrite merge_sort_Permutation.
  rewrite elem_of_elements. apply elem_of_list_to_set.
Qed.

Lemma sorted_set_sorted l : StronglySorted String.le (PyStr.sorted_set l).
Proof. apply StronglySorted_merge_sort; apply _. Qed.

Lemma sorted_set_NoDup l : NoDup (PyStr.sorted_set l).
Proof.
  unfold PyStr.sorted_set. rewrite merge_sort_Permutation. apply NoDup_elements.
Qed.

Lemma sorted_gset_sorted (X : gset string) :
  StronglySorted String.le (merge_sort String.le (elements X)).
Proof. apply StronglySorted_merge_sort; apply _. Qed.

Lemma elem_of_sorted_gset (X : gset string) x :
  x ∈ merge_sort String.le (elements X) ↔ x ∈ X.
Proof. rewrite merge_sort_Permutation. apply elem_of_elements. Qed.

(** In a list sorted by code, an element splits the list into the codes
    before it, none of which is after it, and the rest. *)
Lemma sorted_split (l : list string) z :
  StronglySorted String.le l → z ∈ l →
  ∃ pre post, l = pre ++ z :: post ∧ (z ∉ pre) ∧ (∀ y, y ∈ pre → String.le y z).
Proof.
  intros Hs Hz. destruct (list_elem_of_split_l l z Hz) as (pre & post & -> & Hn).
  exists pre, post. repeat split; [done|].
  intros y Hy. apply (StronglySorted_app_1_elem_of String.le pre (z :: post) y z Hs Hy).
  by left.
Qed.

Lemma lfilter_app_cons {A} (f : A → bool) pre z post :
  f z = true →
  List.filter f (pre ++ z :: post) = List.filter f pre ++ z :: List.filter f post.
Proof. intros H. rewrite List.filter_app. simpl. by rewrite H. Qed.

(** ** The zone of largest area *)

Section maior.
Context {A : Type} (key : A → Q).

Lemma max_by_post best post :
  (∀ y, y ∈ post → (key y <= key best)%Q) → PyStr.max_by key best post = best.
Proof.
  induction post as [|y post IH]; intros H; [done|]. simpl.
  assert (Qlt_bool (key best) (key y) = false) as ->.
  { apply not_true_iff_false. intros Hlt%Qlt_bool_true.
    apply (Qlt_not_le _ _ Hlt). apply H. by left. }
  apply IH. intros z Hz. apply H. by right.
Qed.

Lemma max_by_pre best pre x post :
  (key best < key x)%Q →
  (∀ y, y ∈ pre → (key y < key x)%Q) →
  (∀ y, y ∈ post → (key y <= key x)%Q) →
  PyStr.max_by key best (pre ++ x :: post) = x.
Proof.
  revert best. induction pre as [|y pre IH]; intros best Hb Hpre Hpost; simpl.
  - apply Qlt_bool_true in Hb. rewrite Hb. by apply max_by_post.
  - apply IH; [|intros z Hz; apply Hpre; by right|done].
    destruct (Qlt_bool (key best) (key y)); [apply Hpre; by left|done].
Qed.

Lemma py_max_primeiro_maior l x : primeiro_maior key l x → PyStr.py_max key l = Some x.
Proof.
  intros (pre & post & -> & Hpre & Hpost). destruct pre as [|b pre]; simpl.
  - f_equal. by apply max_by_post.
  - f_equal. apply max_by_pre; [apply Hpre; by left| |done].
    intros y Hy. apply Hpre. by right.
Qed.

Lemma max_by_in best l : PyStr.max_by key best l = best ∨ PyStr.max_by key best l ∈ l.
Proof.
  revert best. induction l as [|y l IH]; intros best; simpl; [by left|].
  destruct (IH (if Qlt_bool (key best) (key y) then y else best)) as [H|H].
  - rewrite H. destruct (Qlt_bool (key best) (key y)); [right; by left|by left].
  - right. by right.
Qed.

Lemma py_max_in l x : PyStr.py_max key l = Some x → x ∈ l.
Proof.
  destruct l as [|b l]; [done|]. simpl. intros [= <-].
  destruct (max_by_in b l) as [->|H]; [by left|by right].
Qed.
End maior.

Lemma Qeq_lt_le_dec (a b : Q) : (a <= b)%Q → (a == b)%Q ∨ (a < b)%Q.
Proof.
  intros H. destruct (Qlt_le_dec a b) as [Hlt|Hle]; [by right|].
  left. by apply Qle_antisym.
Qed.

(** In a list of codes sorted by code, the code that has the greatest key
    and is the least of the codes with that key is the first of the
    greatest, also after a filter that keeps it. *)
Lemma primeiro_maior_sorted (key : string → Q) (f : string → bool) l z1 :
  StronglySorted String.le l → z1 ∈ l → f z1 = true →
  (∀ z, z ∈ l → f z = true →
        (key z <= key z1)%Q ∧ ((key z == key z1)%Q → String.le z1 z)) →
  primeiro_maior key (List.filter f l) z1.
Proof.
  intros Hs Hz Hf Hmax.
  destruct (sorted_split l z1 Hs Hz) as (pre & post & -> & Hn & Hpre).
  exists (List.filter f pre), (List.filter f post).
  split; [by apply lfilter_app_cons|]. split.
  - intros y [Hy Hfy]%elem_of_lfilter.
    destruct (Hmax y) as [Hle Htie]; [rewrite elem_of_app; by left|done|].
    destruct (Qeq_lt_le_dec _ _ Hle) as [Heq|Hlt]; [|done].
    exfalso. apply Hn.
    assert (y = z1) as <-; [|done].
    apply (anti_symm String.le); [by apply Hpre|by apply Htie].
  - intros y [Hy Hfy]%elem_of_lfilter.
    apply Hmax; [|done]. rewrite elem_of_app. right. by right.
Qed.

(** The loop of [_zona_maior_area]. *)
Lemma maior_area_loop_post areas post m ma :
  (∀ y, y ∈ post → (default 0%Q (areas !! y) <= ma)%Q) →
  Regra.maior_area_loop areas post m ma = m.
Proof.
  revert m. induction post as [|y post IH]; intros m H; [done|]. simpl.
  assert (Qlt_bool ma (default 0%Q (areas !! y)) = false) as ->.
  { apply not_true_iff_false. intros Hlt%Qlt_bool_true.
    apply (Qlt_not_le _ _ Hlt). apply H. by left. }
  apply IH. intros z Hz. apply H. by right.
Qed.

Lemma maior_area_loop_pre areas pre x post m ma :
  let key z := default 0%Q (areas !! z) in
  (ma < key x)%Q →
  (∀ y, y ∈ pre → (key y < key x)%Q) →
  (∀ y, y ∈ post → (key y <= key x)%Q) →
  Regra.maior_area_loop areas (pre ++ x :: post) m ma = Some x.
Proof.
  intros key. revert m ma. induction pre as [|y pre IH]; intros m ma Hb Hpre Hpost; simpl.
  - apply Qlt_bool_true in Hb. fold (key x). rewrite Hb. by apply maior_area_loop_post.
  - fold (key y). destruct (Qlt_bool ma (key y)).
    + apply IH; [apply Hpre; by left|intros z Hz; apply Hpre; by right|done].
    + apply IH; [done|intros z Hz; apply Hpre; by right|done].
Qed.

Lemma zona_maior_area_primeiro_maior areas l x :
  (-1 < default 0%Q (areas !! x))%Q →
  primeiro_maior (λ z, default 0%Q (areas !! z)) l x →
  Regra._zona_maior_area areas l = Some x.
Proof.
  intros Hx (pre & post & -> & Hpre & Hpost).
  unfold Regra._zona_maior_area. by apply maior_area_loop_pre.
Qed.

Lemma maior_area_loop_in areas l m ma z :
  Regra.maior_area_loop areas l m ma = Some z → z ∈ l ∨ m = Some z.
Proof.
  revert m ma. induction l as [|y l IH]; intros m ma; simpl; [by right|].
  destruct (Qlt_bool ma (default 0%Q (areas !! y))); intros H; apply IH in H.
  - destruct H as [H|[= ->]]; left; [by right|by left].
  - destruct H as [H|H]; [left; by right|by right].
Qed.

Lemma zona_maior_area_in areas l z :
  Regra._zona_maior_area areas l = Some z → z ∈ l.
Proof. intros H. by destruct (maior_area_loop_in _ _ _ _ _ H). Qed.

(** ** The reference zone is an applied zone *)

Lemma com_categoria_in cat zs z : z ∈ Regra.com_categoria cat zs → z ∈ zs.
Proof. unfold Regra.com_categoria. by intros [? _]%elem_of_lfilter. Qed.

Lemma maior_com_categoria areas cat zs z :
  Regra._zona_maior_area areas (Regra.com_categoria cat zs) = Some z → z ∈ zs.
Proof. intros H%zona_maior_area_in. by apply com_categoria_in in H. Qed.

(** The reference zone of the rulebook, when there is one, is one of the
    zones it considered. *)
Lemma regra_principal_considerada zonas areas testadas n10 n37 z :
  let r := Regra.aplicar_regra_sobreposicao zonas areas testadas n10 n37 in
  Regra.zona_principal r = Some z → z ∈ Regra.zonas_consideradas r.
Proof.
  unfold Regra.aplicar_regra_sobreposicao.
  destruct (Regra.vazia (PyStr.sorted_set zonas)); [done|].
  destruct n10.
  { cbn. intros [= <-]. apply elem_of_sorted_set. rewrite elem_of_app. right. by left. }
  destruct (n37 || Regra.acesso_lucio_deduzido testadas).
  { cbn. intros [= <-]. apply elem_of_sorted_set. rewrite elem_of_app. right. by left. }
  set (zu := if Regra.vazia (Regra.zonas_deduzidas testadas) then _ else _).
  cbv zeta.
  repeat match goal with
         | |- context [if ?b then _ else _] =>
             match b with
             | context [Regra.com_categoria] => destruct b eqn:?
             | context [List.filter] => destruct b eqn:?
             end
         end; cbn; try done; try apply maior_com_categoria.
  destruct (Regra.com_categoria "MACRO" zu) as [|m [|m' ms]] eqn:Em; cbv beta iota;
    cbn [Regra.zona_principal Regra.zonas_consideradas].
  - done.
  - intros [= <-]. apply (com_categoria_in "MACRO"). rewrite Em. by left.
  - intros H%zona_maior_area_in. apply (com_categoria_in "MACRO"). by rewrite Em.
Qed.

Lemma maior_area_in (l : list Resolvedor.ZonaAplicada) z : Resolvedor.maior_area l = Some z → z ∈ Resolvedor.za_codigo <$> l.
Proof.
  unfold Resolvedor.maior_area. destruct (PyStr.py_max _ l) as [x|] eqn:E; [|done].
  intros [= <-]. apply list_elem_of_fmap_2. by apply py_max_in in E.
Qed.

Lemma do_tipo_in t l x : x ∈ Resolvedor.do_tipo t l → x ∈ l.
Proof. unfold Resolvedor.do_tipo. by intros [? _]%elem_of_lfilter. Qed.

Lemma maior_area_sub (l l' : list Resolvedor.ZonaAplicada) z :
  (∀ x, x ∈ l → x ∈ l') →
  Resolvedor.maior_area l = Some z → z ∈ Resolvedor.za_codigo <$> l'.
Proof.
  intros Hsub H%maior_area_in. apply list_elem_of_fmap in H as (x & -> & Hx).
  apply list_elem_of_fmap_2. by apply Hsub.
Qed.

Lemma codigos_info areas total notas (zs : list string) :
  Resolvedor.za_codigo <$> (Resolvedor.info_zona areas total notas <$> zs) = zs.
Proof. induction zs as [|z zs IH]; [done|]. cbn. by f_equal. Qed.

Lemma elem_of_zonas_set zonas res_zon n10 n37 z :
  z ∈ Resolvedor.zonas_set zonas res_zon n10 n37 ↔
  z ∈ zonas ∨ z ∈ Resolvedor.nao_vazias (rz_eixos res_zon)
  ∨ z ∈ Resolvedor.nao_vazias (rz_especiais res_zon)
  ∨ (n10 = true ∧ z = "ZEOT2") ∨ (n37 = true ∧ z = "MUQ3").
Proof.
  unfold Resolvedor.zonas_set. rewrite !elem_of_union, !elem_of_list_to_set.
  destruct n10, n37; rewrite ?elem_of_singleton, ?elem_of_empty; intuition congruence.
Qed.

Lemma sobreposicoes_codigos zonas areas res_zon n10 n37 :
  Regra.vazia (Resolvedor.nao_vazias zonas) = false →
  Resolvedor.za_codigo <$>
    Resolvedor.s_zonas_aplicadas (Resolvedor._resolver_sobreposicoes zonas areas res_zon n10 n37)
  = zonas_ordenadas zonas res_zon n10 n37.
Proof.
  intros H. unfold Resolvedor._resolver_sobreposicoes. rewrite H.
  cbn [Resolvedor.s_zonas_aplicadas]. apply codigos_info.
Qed.

Lemma sobreposicoes_referencia_aplicada zonas areas res_zon n10 n37 z :
  let s := Resolvedor._resolver_sobreposicoes zonas areas res_zon n10 n37 in
  Resolvedor.s_zona_referencia s = Some z →
  z ∈ Resolvedor.za_codigo <$> Resolvedor.s_zonas_aplicadas s.
Proof.
  cbv zeta. destruct (Regra.vazia (Resolvedor.nao_vazias zonas)) eqn:Hv.
  { unfold Resolvedor._resolver_sobreposicoes. by rewrite Hv. }
  rewrite sobreposicoes_codigos by done.
  unfold Resolvedor._resolver_sobreposicoes. rewrite Hv.
  cbn [Resolvedor.s_zona_referencia]. cbv zeta.
  fold (zonas_ordenadas zonas res_zon n10 n37).
  set (info := Resolvedor.info_zona _ _ _ <$> zonas_ordenadas zonas res_zon n10 n37).
  assert (Hinfo : Resolvedor.za_codigo <$> info = zonas_ordenadas zonas res_zon n10 n37)
    by apply codigos_info.
  destruct n10.
  { intros [= <-]. apply elem_of_sorted_gset, elem_of_zonas_set. tauto. }
  destruct n37.
  { intros [= <-]. apply elem_of_sorted_gset, elem_of_zonas_set. tauto. }
  rewrite <- Hinfo.
  destruct (Resolvedor.maior_area (Resolvedor.do_tipo "ESPECIAL" info)) as [e|] eqn:Ee.
  { intros [= <-]. eapply maior_area_sub; [|exact Ee]. apply do_tipo_in. }
  destruct (Resolvedor.maior_area (Resolvedor.do_tipo "EIXO" info)) as [e|] eqn:Ex.
  { intros [= <-]. eapply maior_area_sub; [|exact Ex]. apply do_tipo_in. }
  match goal with
  | |- context [Resolvedor.maior_area ?c] =>
      destruct (Resolvedor.maior_area c) as [e|] eqn:Ec; [|done]
  end.
  intros [= <-]. eapply maior_area_sub; [|exact Ec].
  intros x Hx.
  match type of Hx with
  | _ ∈ (if ?b then _ else _) => destruct b; [done|]
  end.
  by apply elem_of_lfilter in Hx as [? _].
Qed.

Lemma codigos_com_parametros tabela (l : list Resolvedor.ZonaAplicada) :
  Resolvedor.za_codigo <$> (Resolvedor.com_parametros tabela <$> l)
  = Resolvedor.za_codigo <$> l.
Proof.
  induction l as [|x l IH]; [done|]. cbn. f_equal; [|done].
  unfold Resolvedor.com_parametros. by destruct (tabela !! _).
Qed.

Lemma resolver_referencia_aplicada tabela res_zon res_geom n10 n37 z :
  let r := Resolvedor.resolver tabela res_zon res_geom n10 n37 in
  Resolvedor.zona_principal r = Some z →
  z ∈ Resolvedor.za_codigo <$> Resolvedor.zonas_aplicadas r.
Proof.
  cbv zeta. unfold Resolvedor.resolver.
  match goal with
  | |- context [let '(a, b) := ?p in _] => destruct p as [inc ars]
  end.
  cbn [Resolvedor.zona_principal Resolvedor.zonas_aplicadas].
  rewrite codigos_com_parametros. apply sobreposicoes_referencia_aplicada.
Qed.

(** C5: whatever the incident zones, their areas, the frontages and the
    two note flags, the reference zone, when there is one, is among the
    zones listed as applied: in the rulebook, in the rule core of the
    engine's resolver, and in what the resolver returns. *)
Theorem zona_de_referencia_entre_as_aplicadas
  (zonas : list string) (areas testadas : gmap string Q) (n10 n37 : bool)
  (res_zon : ResultadoZoneamento) (tabela : gmap string ParametrosZona)
  (res_geom : ResultadoZoneamentoGeom) :
  let regra := Regra.aplicar_regra_sobreposicao zonas areas testadas n10 n37 in
  let s := Resolvedor._resolver_sobreposicoes zonas areas res_zon n10 n37 in
  let r := Resolvedor.resolver tabela res_zon res_geom n10 n37 in
  match Regra.zona_principal regra with
  | Some z => z ∈ Regra.zonas_consideradas regra
  | None => True
  end
  ∧ match Resolvedor.s_zona_referencia s with
    | Some z => z ∈ Resolvedor.za_codigo <$> Resolvedor.s_zonas_aplicadas s
    | None => True
    end
  ∧ match Resolvedor.zona_principal r with
    | Some z => z ∈ Resolvedor.za_codigo <$> Resolvedor.zonas_aplicadas r
    | None => True
    end.
Proof.
  cbv zeta. repeat split.
  - destruct (Regra.zona_principal _) eqn:E; [|done].
    by apply regra_principal_considerada.
  - destruct (Resolvedor.s_zona_referencia _) eqn:E; [|done].
    by apply sobreposicoes_referencia_aplicada.
  - destruct (Resolvedor.zona_principal _) eqn:E; [|done].
    by apply resolver_referencia_aplicada.
Qed.

(** ** Special zones *)

Lemma procurar_padrao_in tabela nome z :
  Regra.procurar_padrao tabela nome = Some z → z ∈ tabela.*2.
Proof.
  unfold Regra.procurar_padrao. destruct (List.find _ tabela) as [pz|] eqn:E; [|done].
  intros [= <-]. apply List.find_some in E as [Hin _].
  apply list_elem_of_fmap_2. by apply list_elem_of_In.
Qed.

Lemma zona_por_logradouro_eixo nome z :
  Regra._zona_por_logradouro nome = Some z → z = "EU1" ∨ z = "SEMIEIXO".
Proof.
  unfold Regra._zona_por_logradouro. destruct (negb _); [done|].
  destruct (Regra.procurar_padrao Regra.MAPA_LOGRADOURO_EIXO _) as [e|] eqn:E.
  - intros [= <-]. apply procurar_padrao_in in E. cbn in E.
    apply list_elem_of_singleton in E. by left.
  - intros H%procurar_padrao_in. cbn in H.
    right. apply elem_of_cons in H as [->|H]; [done|]. by apply list_elem_of_singleton in H.
Qed.

Lemma deduzidas_eixo testadas z :
  z ∈ Regra.zonas_deduzidas testadas → z = "EU1" ∨ z = "SEMIEIXO".
Proof.
  unfold Regra.zonas_deduzidas. intros (nome & _ & H)%list_elem_of_omap.
  destruct (Regra._zona_por_logradouro nome) as [z'|] eqn:E; [|done].
  destruct (PyStr.truthy z'); [|done]. injection H as <-.
  by apply zona_por_logradouro_eixo in E.
Qed.

Lemma deduzidas_nao_especiais testadas z :
  z ∈ Regra.zonas_deduzidas testadas → Regra._classificar_zona z ≠ "ESPECIAL".
Proof. by intros [->| ->]%deduzidas_eixo. Qed.

Lemma elem_of_zonas_da_regra zonas testadas z :
  z ∈ zonas_da_regra zonas testadas ↔ z ∈ zonas ∨ z ∈ Regra.zonas_deduzidas testadas.
Proof.
  unfold zonas_da_regra. destruct (Regra.zonas_deduzidas testadas) as [|d ds] eqn:E; cbn.
  - rewrite elem_of_sorted_set. split; [by left|]. by intros [?|?%not_elem_of_nil].
  - by rewrite elem_of_sorted_set, elem_of_app, elem_of_sorted_set.
Qed.

Lemma zonas_da_regra_sorted zonas testadas :
  StronglySorted String.le (zonas_da_regra zonas testadas).
Proof. unfold zonas_da_regra. destruct (Regra.vazia _); apply sorted_set_sorted. Qed.

Lemma eqb_cat z cat : (Regra._classificar_zona z =? cat)%string = true ↔ Regra._classificar_zona z = cat.
Proof. apply String.eqb_eq. Qed.

(** The rulebook, with no note: among the special zones, the one of
    largest area, and of the least code among those of that area. *)
Lemma regra_especial_desempate zonas areas testadas z1 :
  let area z := default 0%Q (areas !! z) in
  Regra.acesso_lucio_deduzido testadas = false →
  z1 ∈ zonas → Regra._classificar_zona z1 = "ESPECIAL" →
  (0 <= area z1)%Q →
  (∀ z, z ∈ zonas → Regra._classificar_zona z = "ESPECIAL" →
        (area z <= area z1)%Q ∧ ((area z == area z1)%Q → String.le z1 z)) →
  Regra.zona_principal (Regra.aplicar_regra_sobreposicao zonas areas testadas false false)
  = Some z1.
Proof.
  intros area Hlucio Hz Hesp Hpos Hmax.
  unfold Regra.aplicar_regra_sobreposicao.
  rewrite (vazia_false (PyStr.sorted_set zonas) z1) by by apply elem_of_sorted_set.
  rewrite Hlucio. cbn [orb]. cbv zeta. fold (zonas_da_regra zonas testadas).
  assert (Hin : z1 ∈ Regra.com_categoria "ESPECIAL" (zonas_da_regra zonas testadas)).
  { apply elem_of_lfilter. split; [apply elem_of_zonas_da_regra; by left|by apply eqb_cat]. }
  rewrite (vazia_false _ _ Hin). cbn [negb Regra.zona_principal].
  apply zona_maior_area_primeiro_maior.
  { fold (area z1). eapply Qlt_le_trans; [|exact Hpos]. done. }
  apply primeiro_maior_sorted; [apply zonas_da_regra_sorted| |by apply eqb_cat|].
  { apply elem_of_zonas_da_regra. by left. }
  intros z [Hzin|Hded]%elem_of_zonas_da_regra Hcat%eqb_cat.
  - by apply Hmax.
  - by apply deduzidas_nao_especiais in Hded.
Qed.

Lemma primeiro_maior_fmap {A B} (key : B → Q) (g : A → B) (l : list A) x :
  primeiro_maior (λ a, key (g a)) l x → primeiro_maior key (g <$> l) (g x).
Proof.
  intros (pre & post & -> & Hpre & Hpost). exists (g <$> pre), (g <$> post).
  split; [by rewrite fmap_app|]. split.
  - intros y (a & -> & Ha)%list_elem_of_fmap. by apply Hpre.
  - intros y (a & -> & Ha)%list_elem_of_fmap. by apply Hpost.
Qed.

Lemma do_tipo_info t areas total notas (zs : list string) :
  Resolvedor.do_tipo t (Resolvedor.info_zona areas total notas <$> zs)
  = Resolvedor.info_zona areas total notas
      <$> List.filter (λ z, (Resolvedor._classificar_zona z =? t)%string) zs.
Proof.
  induction zs as [|z zs IH]; [done|]. cbn.
  destruct (Resolvedor._classificar_zona z =? t)%string; cbn; by rewrite <- IH.
Qed.

(** The engine's resolver, with no note: the same choice among its
    special zones. *)
Lemma resolvedor_especial_desempate zonas areas res_zon z1 :
  let area := Resolvedor.area_de areas in
  let conjunto := Resolvedor.zonas_set (Resolvedor.nao_vazias zonas) res_zon false false in
  Regra.vazia (Resolvedor.nao_vazias zonas) = false →
  z1 ∈ conjunto → Resolvedor._classificar_zona z1 = "ESPECIAL" →
  (∀ z, z ∈ conjunto → Resolvedor._classificar_zona z = "ESPECIAL" →
        (area z <= area z1)%Q ∧ ((area z == area z1)%Q → String.le z1 z)) →
  Resolvedor.s_zona_referencia
    (Resolvedor._resolver_sobreposicoes zonas areas res_zon false false) = Some z1.
Proof.
  intros area conjunto Hv Hz Hesp Hmax.
  unfold Resolvedor._resolver_sobreposicoes. rewrite Hv.
  cbn [Resolvedor.s_zona_referencia]. cbv zeta.
  fold conjunto. rewrite do_tipo_info.
  set (zs := merge_sort String.le (elements conjunto)).
  match goal with
  | |- context [Resolvedor.maior_area (Resolvedor.info_zona ?a ?t ?n <$> List.filter ?f zs)] =>
      set (total := t); set (notas := n);
      assert (Resolvedor.maior_area (Resolvedor.info_zona a total notas <$> List.filter f zs)
              = Some z1) as ->; [|done]
  end.
  unfold Resolvedor.maior_area.
  rewrite (py_max_primeiro_maior _ _ (Resolvedor.info_zona areas total notas z1)); [done|].
  apply (primeiro_maior_fmap Resolvedor.za_area_m2 (Resolvedor.info_zona areas total notas)).
  cbn [Resolvedor.za_area_m2 Resolvedor.info_zona]. fold area.
  apply primeiro_maior_sorted;
    [apply sorted_gset_sorted|by apply elem_of_sorted_gset|by apply String.eqb_eq|].
  intros z Hzin%elem_of_sorted_gset Hcat%String.eqb_eq. by apply Hmax.
Qed.

(** ** Macro zones *)












(** ** Zone decomposition *)

Lemma acumular_feicao_positivas idx feat m m' :
  areas_positivas m → acumular_feicao idx feat m = Ok m' → areas_positivas m'.
Proof.
  intros Hm. unfold acumular_feicao.
  destruct (fz_geom_vazia feat); [by intros [= <-]|].
  destruct (negb (fz_intersecta feat)); [by intros [= <-]|].
  destruct (fz_inter_vazia feat); [by intros [= <-]|].
  destruct (Qle_bool (fz_area_inter feat) 0) eqn:Ea; [by intros [= <-]|].
  apply Qle_bool_false_lt in Ea.
  destruct (fz_atributos feat !! idx) as [v|]; [|done].
  destruct (negb (PyStr.truthy (PyStr.strip v))); intros [= <-]; [done|].
  apply map_Forall_insert_2; [|done].
  destruct (m !! PyStr.strip v) as [a|] eqn:E; cbn.
  - apply Hm in E. cbn in E.
    rewrite <- (Qplus_0_r 0). apply Qplus_lt_le_compat; [done|by apply Qlt_le_weak].
  - by rewrite Qplus_0_l.
Qed.

Lemma acumular_feicoes_positivas idx feats m m' :
  areas_positivas m → acumular_feicoes idx feats m = Ok m' → areas_positivas m'.
Proof.
  revert m. induction feats as [|feat feats IH]; intros m Hm; simpl.
  - by intros [= <-].
  - destruct (acumular_feicao idx feat m) as [m1|e] eqn:E; [|done]. cbn.
    apply IH. by eapply acumular_feicao_positivas.
Qed.

Lemma zonas_do_resultado lote_vazio camada campo r :
  calcular_zoneamento_incidente lote_vazio camada campo = Ok r →
  areas_positivas (areas_por_zona r)
  ∧ ∀ z, z ∈ zonas r ↔ is_Some (areas_por_zona r !! z).
Proof.
  assert (Hvazio : areas_positivas (areas_por_zona ResultadoZoneamentoGeom_vazio)
                   ∧ ∀ z, z ∈ zonas ResultadoZoneamentoGeom_vazio
                          ↔ is_Some (areas_por_zona ResultadoZoneamentoGeom_vazio !! z)).
  { split; [apply map_Forall_empty|]. intros z. cbn. rewrite lookup_empty.
    split; [by intros ?%not_elem_of_nil|by intros [? ?]]. }
  unfold calcular_zoneamento_incidente.
  destruct lote_vazio; [by intros [= <-]|].
  destruct camada as [cam|]; [|by intros [= <-]].
  destruct (detectar_campo_codigo_zona _ _) as [c|]; [|by intros [= <-]].
  destruct (indexFromName _ _) as [idx|]; [|by intros [= <-]].
  destruct (acumular_feicoes idx (cz_feicoes cam) ∅) as [areas|e] eqn:E; [|done]. cbn.
  destruct (bool_decide (areas = ∅)); intros [= <-]; [done|]. cbn. split.
  - eapply acumular_feicoes_positivas; [|exact E]. apply map_Forall_empty.
  - intros z. rewrite elem_of_sorted_gset. apply elem_of_dom.
Qed.

(** C9: the decomposition returns the empty result, and does not raise,
    when the zoning layer is absent or no field of zone codes is found; and
    every zone of a result it returns has an area, which is strictly
    positive. *)
Theorem decomposicao_vazia_ou_positiva (lote_vazio : bool)
  (camada : option CamadaZoneamento) (campo : option string) :
  (camada = None ∨ detectar_campo_codigo_zona camada campo = None →
   calcular_zoneamento_incidente lote_vazio camada campo = Ok ResultadoZoneamentoGeom_vazio)
  ∧ (∀ r, calcular_zoneamento_incidente lote_vazio camada campo = Ok r →
       ∀ z, z ∈ zonas r → ∃ a, areas_por_zona r !! z = Some a ∧ (0 < a)%Q).
Proof.
  split.
  - intros H. unfold calcular_zoneamento_incidente.
    destruct lote_vazio; [done|]. destruct camada as [cam|]; [|done].
    destruct H as [H|H]; [done|]. by rewrite H.
  - intros r Hr z Hz. destruct (zonas_do_resultado _ _ _ _ Hr) as [Hpos Hdom].
    apply Hdom in Hz as [a Ha]. exists a. split; [done|]. by apply (Hpos z a).
Qed.

(** ** Boundary segments *)

Section Limites.

Import Testadas.






Lemma Qsum_cons x l : Qsum (x :: l) = (x + Qsum l)%Q.
Proof. done. Qed.




End Limites.

(** ** The orchestrator *)

Section Orquestrador.

Import MotorAnaliseLote.

(** In the module as it is, the call of the resolver always raises: what
    step 3.1 leaves is no resolved zoning. *)
Lemma resolver_zoneamento_do_modulo amb res_zon res_geom zr :
  resolver_zoneamento globais_do_modulo amb res_zon res_geom = Ok zr → zr = None.
Proof.
  unfold resolver_zoneamento. destruct res_geom as [geo|]; [|by intros [= <-]].
  destruct (carregar_parametros_de_arquivo _) as [t|e]; [|done].
  by intros [= <-].
Qed.

Lemma analisar_lote_do_modulo amb geom c n10 d r :
  analisar_lote globais_do_modulo amb geom c n10 d = Ok r →
  zona_resolvida r = None ∧ zoneamento_avaliacao r = None.
Proof.
  unfold analisar_lote. destruct geom as [g|]; [|done].
  destruct (resolver_zoneamento _ _ _ _) as [zr|e] eqn:E; [|done].
  apply resolver_zoneamento_do_modulo in E as ->. cbn.
  destruct (analisar_inclinacao _ _ _) as [ri rz]. by intros [= <-].
Qed.

(** With the two names bound, the resolver runs whenever the table loads
    and the decomposition is there. *)
Lemma resolver_zoneamento_ligado amb res_zon geo tabela n10 n37 :
  carregar_parametros_de_arquivo (arquivo_parametros amb) = Ok tabela →
  resolver_zoneamento {| g_nota10_ativada := Some n10; g_nota37_ativada := Some n37 |}
    amb res_zon (Some geo)
  = Ok (Some (Resolvedor.resolver tabela res_zon geo n10 n37)).
Proof. intros H. unfold resolver_zoneamento. by rewrite H. Qed.

(** The call of the evaluation has no handler of its own: when step 3.3 is
    reached with a reference zone that has parameters and the parcel area
    is not positive, the error leaves [analisar_lote]. *)
Lemma avaliacao_sem_tratador g amb geom c n10 d r z p :
  resolver_zoneamento g amb (res_zon_bruto amb) (decompor_zoneamento amb) = Ok (Some r) →
  zona_de_referencia (Some r) = Some z →
  Resolvedor.parametros r = Some p →
  (area_lote_m2 c <= 0)%Q →
  analisar_lote g amb (Some geom) c n10 d = Raise (ValueError msg_area_lote).
Proof.
  intros Hr Hz Hp Ha. unfold analisar_lote. rewrite Hr. cbn [res_bind].
  unfold avaliar_indices. rewrite Hz, Hp.
  by rewrite (avaliar_raise z p c Ha).
Qed.


(** ** The slope sub-result *)

Lemma inclinacao_sem_camada amb c res_zon :
  camada_inclinacao amb = None →
  (analisar_inclinacao amb c res_zon).1 = Some (inclinacao_exemplo (area_lote_m2 c)).
Proof. intros H. unfold analisar_inclinacao. by rewrite H. Qed.

Import Inclinacao.

Lemma contar_sem_dados cam bloco (l : list (nat * nat)) c :
  (∀ row col, ci_dentro cam row col = true → eh_nodata (ci_nodata cam) (bloco row col) = true) →
  pixels_validos (foldl (contar_pixel cam bloco) c l) = pixels_validos c.
Proof.
  intros H. revert c. induction l as [|[row col] l IH]; intros c; [done|].
  cbn [foldl]. rewrite IH. unfold contar_pixel.
  destruct (ci_dentro cam row col) eqn:E; [|done]. by rewrite (H row col E).
Qed.

(** A raster that is there and is invalid, does not cover the parcel, or
    has no data on any pixel inside the parcel, gives the error result. *)
Lemma raster_indisponivel cam area :
  (ci_valida cam = false
   ∨ ci_extent_vazio cam = true
   ∨ ∃ bloco, ci_bloco cam = Some bloco
       ∧ ∀ row col, ci_dentro cam row col = true →
                    eh_nodata (ci_nodata cam) (bloco row col) = true) →
  ∃ m, analisar_inclinacao_terreno false cam area = _resultado_erro_objeto m.
Proof.
  unfold analisar_inclinacao_terreno. intros H.
  destruct (ci_valida cam); cbn [negb]; [|eauto].
  destruct (ci_extent_vazio cam); [eauto|].
  destruct (Qzero_bool _ || Qzero_bool _); [eauto|].
  destruct H as [H|[H|(bloco & Hb & H)]]; [done|done|].
  rewrite Hb. rewrite contar_sem_dados by done. cbn. eauto.
Qed.

End Orquestrador.

(** ** C10: numerals of the parameter table *)

Lemma py_int_inteiro n :
  NumeralBR.grupos n = [] → NumeralBR.decimais n = None →
  Numeral.py_int (NumeralBR.escrever n) = Some (valor_inteiro n).
Proof.
  intros Hg Hd. unfold Numeral.py_int, NumeralBR.escrever, valor_inteiro.
  rewrite chars_of_chars.
  assert (Hc : NumeralBR.escrever_chars n
               = (if NumeralBR.negativo n then ["-"%char] else [])
                 ++ (NumeralBR.char_digito <$> NumeralBR.inteiros n)).
  { unfold NumeralBR.escrever_chars, NumeralBR.inteiros. rewrite Hg, Hd. cbn [fmap list_fmap concat].
    by rewrite !app_nil_r. }
  rewrite Hc. rewrite strip_chars_sem_espaco.
  2:{ apply Forall_app. split; [destruct (NumeralBR.negativo n); repeat constructor|].
      apply digitos_sem_espaco. }
  assert (Hs : Numeral.take_sign ((if NumeralBR.negativo n then ["-"%char] else [])
                                  ++ (NumeralBR.char_digito <$> NumeralBR.inteiros n))
               = (NumeralBR.negativo n, NumeralBR.char_digito <$> NumeralBR.inteiros n)).
  { destruct (NumeralBR.negativo n); [done|]. unfold NumeralBR.inteiros. cbn.
    by destruct (NumeralBR.primeiro n). }
  rewrite Hs.
  pose proof (take_digits_app (NumeralBR.inteiros n) [] I) as Ht. rewrite app_nil_r in Ht.
  rewrite Ht. unfold NumeralBR.inteiros. by rewrite fmap_cons.
Qed.

Lemma escrever_1234_5 : NumeralBR.escrever NumeralBR.n_1234_5 = "1.234,5".
Proof. reflexivity. Qed.

Lemma valor_1234_5 : (NumeralBR.valor NumeralBR.n_1234_5 == 1234.5)%Q.
Proof. reflexivity. Qed.

Lemma carregar_zona_campos cod indices p :
  carregar_zona cod indices = Ok p →
  ∀ campo, campo ∈ NumeralBR.campos_reais →
           NumeralBR.campo_real campo p = _conv (indices !! campo).
Proof.
  unfold carregar_zona.
  destruct (conv_int (indices !! "Npav_bas")) as [nb|]; [|done].
  destruct (conv_int (indices !! "Npav_max")) as [nm|]; [|done].
  intros [= <-] campo Hc. unfold NumeralBR.campos_reais in Hc.
  repeat (apply elem_of_cons in Hc as [->|Hc]; [reflexivity|]).
  by apply not_elem_of_nil in Hc.
Qed.

(** C10, amended: a numeral with dots between the thousands and a decimal
    comma, in the entry of any of the seven real-valued fields (CA_min,
    CA_bas, CA_max, Tperm, Tocup, Gab_bas, Gab_max), is loaded as the number
    it denotes, and 1.234,5 as 1234.5; the story counts Npav_bas and
    Npav_max are read by [int], which takes a numeral of digits alone. *)
Theorem numeral_nos_campos_reais (cod : string) (indices : gmap string json)
  (p : ParametrosZona) (campo : string) (n : NumeralBR.numeral) :
  carregar_zona cod indices = Ok p →
  (campo ∈ NumeralBR.campos_reais →
   indices !! campo = Some (JStr (NumeralBR.escrever n)) →
   ∃ q, NumeralBR.campo_real campo p = Some q ∧ (q == NumeralBR.valor n)%Q)
  ∧ (NumeralBR.grupos n = [] → NumeralBR.decimais n = None →
     (indices !! "Npav_bas" = Some (JStr (NumeralBR.escrever n)) →
      Npav_bas p = Some (valor_inteiro n))
     ∧ (indices !! "Npav_max" = Some (JStr (NumeralBR.escrever n)) →
        Npav_max p = Some (valor_inteiro n)))
  ∧ NumeralBR.escrever NumeralBR.n_1234_5 = "1.234,5"
  ∧ (NumeralBR.valor NumeralBR.n_1234_5 == 1234.5)%Q.
Proof.
  intros Hp. split; [|split; [|split; [apply escrever_1234_5|apply valor_1234_5]]].
  - intros Hc Hi. rewrite (carregar_zona_campos cod indices p Hp campo Hc), Hi.
    apply conv_numeral.
  - intros Hg Hd. unfold carregar_zona in Hp.
    destruct (conv_int (indices !! "Npav_bas")) as [nb|] eqn:Eb; [|done].
    destruct (conv_int (indices !! "Npav_max")) as [nm|] eqn:Em; [|done].
    injection Hp as <-. cbn [Npav_bas Npav_max]. split; intros Hi.
    + rewrite Hi in Eb. unfold conv_int in Eb. rewrite (py_int_inteiro n Hg Hd) in Eb.
      by injection Eb as <-.
    + rewrite Hi in Em. unfold conv_int in Em. rewrite (py_int_inteiro n Hg Hd) in Em.
      by injection Em as <-.
Qed.

Lemma numeral_nos_campos_reais_witness :
  ∃ p, carregar_zona "Z" {["CA_max" := JStr "1.234,5"]} = Ok p
       ∧ ∃ q, NumeralBR.campo_real "CA_max" p = Some q
              ∧ (q == NumeralBR.valor NumeralBR.n_1234_5)%Q.
Proof.
  destruct (carregar_zona "Z" {["CA_max" := JStr "1.234,5"]}) as [p|e] eqn:Hp;
    [|vm_compute in Hp; discriminate Hp].
  exists p. split; [reflexivity|].
  apply (proj1 (numeral_nos_campos_reais "Z" {["CA_max" := JStr "1.234,5"]} p "CA_max"
                  NumeralBR.n_1234_5 Hp)).
  - apply (bool_decide_unpack _). vm_compute. exact I.
  - reflexivity.
Defined.

(** The story counts are not read like the other fields: a numeral with a
    dot or a comma in [Npav_bas] or [Npav_max] makes the load fail. *)
Lemma npav_com_separadores_falha :
  carregar_zona "Z" {["Npav_max" := JStr "1.234"]}
  = Raise (ValueError "invalid literal for int() with base 10")
  ∧ carregar_parametros_de_arquivo (Ok [("Z", {["Npav_bas" := JStr "1.234,5"]})])
    = Raise (ValueError "invalid literal for int() with base 10").
Proof. split; reflexivity. Qed.

(** ** C3 *)



(** ** C4 *)

(** C4, amended: with no note flag and no frontage from which Note 37 is
    deduced, the reference zone is the special zone of largest incident
    area and, among the special zones of that area, the one of least code;
    so ZE1 for ZE1 and ZE2 of 300 m² each. It holds of the rulebook and of
    the engine's resolver, each with its own classification and zone set. *)
Theorem zona_especial_desempate (zonas : list string) (areas testadas : gmap string Q)
  (res_zon : ResultadoZoneamento) (z1 : string) :
  (Regra.acesso_lucio_deduzido testadas = false →
   z1 ∈ zonas → Regra._classificar_zona z1 = "ESPECIAL" →
   (0 <= default 0%Q (areas !! z1))%Q →
   (∀ z, z ∈ zonas → Regra._classificar_zona z = "ESPECIAL" →
         (default 0%Q (areas !! z) <= default 0%Q (areas !! z1))%Q
         ∧ ((default 0%Q (areas !! z) == default 0%Q (areas !! z1))%Q → String.le z1 z)) →
   Regra.zona_principal (Regra.aplicar_regra_sobreposicao zonas areas testadas false false)
   = Some z1)
  ∧ (Regra.vazia (Resolvedor.nao_vazias zonas) = false →
     z1 ∈ Resolvedor.zonas_set (Resolvedor.nao_vazias zonas) res_zon false false →
     Resolvedor._classificar_zona z1 = "ESPECIAL" →
     (∀ z, z ∈ Resolvedor.zonas_set (Resolvedor.nao_vazias zonas) res_zon false false →
           Resolvedor._classificar_zona z = "ESPECIAL" →
           (Resolvedor.area_de areas z <= Resolvedor.area_de areas z1)%Q
           ∧ ((Resolvedor.area_de areas z == Resolvedor.area_de areas z1)%Q
              → String.le z1 z)) →
     Resolvedor.s_zona_referencia
       (Resolvedor._resolver_sobreposicoes zonas areas res_zon false false) = Some z1).
Proof.
  split.
  - apply regra_especial_desempate.
  - apply resolvedor_especial_desempate.
Qed.

Lemma ze1_ze2_empatadas z :
  z = "ZE1" ∨ z = "ZE2" →
  (default 0%Q (Exemplo.areas_ze !! z) <= default 0%Q (Exemplo.areas_ze !! "ZE1"))%Q
  ∧ ((default 0%Q (Exemplo.areas_ze !! z) == default 0%Q (Exemplo.areas_ze !! "ZE1"))%Q
     → String.le "ZE1" z).
Proof.
  intros [-> | ->]; (split; [vm_compute; discriminate|intros _; vm_compute; exact I]).
Defined.

(** The scenario of the specification: ZE1 and ZE2 of 300 m² each. *)
Lemma zona_especial_desempate_witness :
  Regra.zona_principal
    (Regra.aplicar_regra_sobreposicao ["ZE1"; "ZE2"] Exemplo.areas_ze ∅ false false)
  = Some "ZE1"
  ∧ Resolvedor.s_zona_referencia
      (Resolvedor._resolver_sobreposicoes ["ZE1"; "ZE2"] Exemplo.areas_ze
         Exemplo.res_zon_vazio false false)
    = Some "ZE1".
Proof.
  destruct (zona_especial_desempate ["ZE1"; "ZE2"] Exemplo.areas_ze ∅
              Exemplo.res_zon_vazio "ZE1") as [Hregra Hres].
  split.
  - apply Hregra.
    + reflexivity.
    + apply (bool_decide_unpack _). vm_compute. exact I.
    + reflexivity.
    + vm_compute. discriminate.
    + intros z Hz _. apply ze1_ze2_empatadas.
      apply elem_of_cons in Hz as [->|Hz]; [by left|].
      apply list_elem_of_singleton in Hz. by right.
  - apply Hres.
    + reflexivity.
    + apply (bool_decide_unpack _). vm_compute. exact I.
    + reflexivity.
    + intros z Hz _. apply ze1_ze2_empatadas.
      apply elem_of_zonas_set in Hz.
      destruct Hz as [Hz|[Hz|[Hz|[[Hz _]|[Hz _]]]]].
      * apply elem_of_cons in Hz as [->|Hz]; [by left|].
        apply list_elem_of_singleton in Hz. by right.
      * exfalso. exact (not_elem_of_nil z Hz).
      * exfalso. exact (not_elem_of_nil z Hz).
      * discriminate Hz.
      * discriminate Hz.
Defined.

(** Two special zones of equal area do not decide the reference zone when
    a third one is larger, nor, in the rulebook, when a frontage on Rua
    Lúcio Joaquim Mendes brings Note 37 in. *)
Lemma especiais_empatadas_contraexemplo :
  Regra.zona_principal
    (Regra.aplicar_regra_sobreposicao ["ZE1"; "ZE2"; "ZE3"] Exemplo.areas_ze3 ∅ false false)
  = Some "ZE3"
  ∧ Resolvedor.s_zona_referencia
      (Resolvedor._resolver_sobreposicoes ["ZE1"; "ZE2"; "ZE3"] Exemplo.areas_ze3
         Exemplo.res_zon_vazio false false)
    = Some "ZE3"
  ∧ Regra.zona_principal
      (Regra.aplicar_regra_sobreposicao ["ZE1"; "ZE2"] Exemplo.areas_ze
         {["Rua Lúcio Joaquim Mendes" := 12%Q]} false false)
    = Some "MUQ3".
Proof. repeat split; vm_compute; reflexivity. Qed.

(** ** C6 *)

Lemma avaliar_conforme_sse_sem_pendencias_witness :
  ∃ r, avaliar_edificacao_na_zona "MUQ2" Exemplo.parametros_muq2 Exemplo.cenario = Ok r
    ∧ (conforme r = true ↔ pendencias r = [])
    ∧ (∀ f, informado Exemplo.cenario f = false →
         (∃ o, o ∈ observacoes r ∧ campo_da_observacao o = f)
         ∧ (∀ pd, pd ∈ pendencias r → campo_da_pendencia pd ≠ f)).
Proof.
  apply (avaliar_conforme_sse_sem_pendencias "MUQ2" Exemplo.parametros_muq2 Exemplo.cenario).
  reflexivity.
Defined.

(** The scenario of the specification: 600 m² built on 500 m² where the
    maximum floor-area ratio is 1 is one violation, of ratio 6/5. *)
Example avaliar_ca_excedido :
  ∃ r, avaliar_edificacao_na_zona "MUQ2" Exemplo.parametros_muq2 Exemplo.cenario = Ok r
    ∧ conforme r = false
    ∧ pendencias r = [CA_superior_ao_maximo (600 / 500) 1 "MUQ2"].
Proof. eexists. split; [reflexivity|]. split; reflexivity. Qed.

(** ** C8 *)


Example perimetro_do_quadrado :
  (Testadas.perimetro Exemplo.motor_quadrado Exemplo.quadrado == 40)%Q.
Proof. reflexivity. Qed.

(** ** C9 *)

Lemma decomposicao_vazia_ou_positiva_witness :
  calcular_zoneamento_incidente false None None = Ok ResultadoZoneamentoGeom_vazio
  ∧ ∃ r a, calcular_zoneamento_incidente false (Some Exemplo.camada_muq2) None = Ok r
           ∧ areas_por_zona r !! "MUQ2" = Some a ∧ (0 < a)%Q.
Proof.
  split.
  - apply (proj1 (decomposicao_vazia_ou_positiva false None None)). by left.
  - assert (Hr : ∃ r, calcular_zoneamento_incidente false (Some Exemplo.camada_muq2) None = Ok r
                      ∧ "MUQ2" ∈ zonas r).
    { eexists. split; [vm_compute; reflexivity|]. apply list_elem_of_singleton. reflexivity. }
    destruct Hr as (r & Hr & Hin).
    destruct (proj2 (decomposicao_vazia_ou_positiva false (Some Exemplo.camada_muq2) None)
                r Hr "MUQ2" Hin) as (a & Ha & Hpos).
    exists r, a. split; [exact Hr|]. by split.
Defined.

(** A feature whose intersection has no area leaves no zone. *)
Example intersecao_sem_area :
  calcular_zoneamento_incidente false
    (Some {| cz_campos := ["zona"]; cz_feicoes := [Exemplo.feicao_zona "MUQ2" 0] |}) None
  = Ok ResultadoZoneamentoGeom_vazio.
Proof. reflexivity. Qed.

Section Analise.

Import MotorAnaliseLote.

(** ** C1 *)

(** C1, on the code: for a parcel that is not empty, with the zoning layer
    there, the decomposition done (MUQ2 alone) and MUQ2 in the parameter
    table, the analysis returns with neither a resolved zoning nor a
    compliance evaluation: the call of the resolver reads two names that
    are not bound, and its handler turns the error into no result. *)
Theorem analise_sem_zoneamento_resolvido :
  ∃ r, analisar_lote globais_do_modulo Exemplo.ambiente (Some Exemplo.quadrado)
         Exemplo.cenario false 20 = Ok r
    ∧ zonas <$> zoneamento_geom r = Some ["MUQ2"]
    ∧ zona_resolvida r = None
    ∧ zoneamento_avaliacao r = None.
Proof. eexists. split; [vm_compute; reflexivity|]. repeat split. Qed.

(** The same request once the two names are bound: the resolver runs on
    the decomposition and the evaluation on its reference zone. *)
Example analise_com_nomes_ligados :
  ∃ r zr av, analisar_lote Exemplo.globais_ligados Exemplo.ambiente (Some Exemplo.quadrado)
               Exemplo.cenario false 20 = Ok r
    ∧ zona_resolvida r = Some zr
    ∧ Resolvedor.zona_principal zr = Some "MUQ2"
    ∧ zoneamento_avaliacao r = Some av
    ∧ conforme av = false.
Proof. do 3 eexists. split; [vm_compute; reflexivity|]. repeat split. Qed.

(** ** C2 *)

(** C2, on the code: with no slope layer the analysis writes six bands of
    example data, 40, 25, 15, 10, 7 and 3 per cent of the parcel area, and
    a protected area, where the specification has an unavailable result with no
    band. *)
Theorem inclinacao_de_exemplo_sem_camada :
  ∃ r i, analisar_lote globais_do_modulo Exemplo.ambiente (Some Exemplo.quadrado)
           Exemplo.cenario false 20 = Ok r
    ∧ inclinacao r = Some i
    ∧ Inclinacao.percentual <$> Inclinacao.faixas i = [40; 25; 15; 10; 7; 3]%Q
    ∧ Forall2 Qeq (Inclinacao.area_m2 <$> Inclinacao.faixas i) [200; 125; 75; 50; 35; 15]%Q
    ∧ Inclinacao.tem_app_por_inclinacao i = true.
Proof.
  do 2 eexists. split; [vm_compute; reflexivity|]. split; [reflexivity|].
  split; [reflexivity|]. split; [|reflexivity].
  repeat constructor.
Qed.

(** The cases in which the raster is there are as the specification has them: an
    invalid raster, one that does not cover the parcel and one with no
    data inside the parcel give the error result, with no band. *)
Lemma inclinacao_indisponivel amb c res_zon cam :
  camada_inclinacao amb = Some cam →
  (Inclinacao.ci_valida cam = false
   ∨ Inclinacao.ci_extent_vazio cam = true
   ∨ ∃ bloco, Inclinacao.ci_bloco cam = Some bloco
       ∧ ∀ row col, Inclinacao.ci_dentro cam row col = true →
                    Inclinacao.eh_nodata (Inclinacao.ci_nodata cam) (bloco row col) = true) →
  ∃ i m, (analisar_inclinacao amb c res_zon).1 = Some i
         ∧ Inclinacao.faixas i = []
         ∧ Inclinacao.mensagens i = [m]
         ∧ Inclinacao.tem_app_por_inclinacao i = false.
Proof.
  intros Hc H. unfold analisar_inclinacao. rewrite Hc.
  destruct (raster_indisponivel cam (Some (area_lote_m2 c)) H) as [m ->].
  exists (Inclinacao._resultado_erro_objeto m), m. by repeat split.
Qed.

Example raster_sem_dados_indisponivel :
  Inclinacao.analisar_inclinacao_terreno false Exemplo.raster_sem_dados (Some 500%Q)
  = Inclinacao._resultado_erro_objeto (Inclinacao.Texto "Nenhum pixel válido dentro do lote").
Proof. vm_compute. reflexivity. Qed.

(** ** C7 *)



(** With the two names bound, the same scenario takes the whole analysis
    down. *)
Example analise_abortada_com_nomes_ligados :
  analisar_lote Exemplo.globais_ligados Exemplo.ambiente (Some Exemplo.quadrado)
    Exemplo.cenario_sem_area false 20
  = Raise (ValueError msg_area_lote).
Proof. vm_compute. reflexivity. Qed.

(** ** Text *)

Example strip_ex : PyStr.strip "  MUQ2 " = "MUQ2".
Proof. reflexivity. Qed.

Example normalizar_ex :
  Regra._normalizar_nome_logradouro "Rua Lúcio Joaquim Mendes" = "RUA LUCIO JOAQUIM MENDES".
Proof. reflexivity. Qed.

Example lower_ex : PyStr.lower "Rua SEBASTIÃO" = "rua sebastião".
Proof. reflexivity. Qed.

Example classificar_ex :
  Regra._classificar_zona "MUQ2" = "MACRO" ∧ Regra._classificar_zona "ZE1" = "ESPECIAL"
  ∧ Resolvedor._classificar_zona "MUPA1" = "AMBIENTAL".
Proof. repeat split. Qed.

End Analise.

(** * Further properties of the code *)

(** ** The evaluation, field by field *)








Lemma avaliar_Ok_inv zona p c r :
  avaliar_edificacao_na_zona zona p c = Ok r →
  (0 < area_lote_m2 c)%Q
  ∧ ∃ st, st = passo_altura zona p c (passo_npav zona p c (passo_tperm zona p c
              (passo_tocup zona p c (passo_ca zona p c
                 {| st_pend := []; st_obs := []; st_val := ∅ |}))))
      ∧ pendencias r = st_pend st ∧ observacoes r = st_obs st
      ∧ valores_calculados r = st_val st
      ∧ conforme r = Nat.eqb (length (st_pend st)) 0
      ∧ av_zona r = zona ∧ av_parametros r = p.
Proof.
  unfold avaliar_edificacao_na_zona.
  destruct (Qle_bool (area_lote_m2 c) 0) eqn:E; [discriminate|].
  intros [= <-]. split; [by apply Qle_bool_false_lt|].
  eexists. split; [reflexivity|]. cbn. done.
Qed.





(** ** Scaling the areas *)






(** ** The computed values and the advisories *)

Lemma st_val_add_pend b pd st : st_val (add_pend b pd st) = st_val st.
Proof. by destruct b. Qed.

Lemma em_st_obs_add_obs o0 st o :
  o ∈ st_obs (add_obs o0 st) ↔ o ∈ st_obs st ∨ o = o0.
Proof. cbn. rewrite elem_of_app, list_elem_of_singleton. done. Qed.

Ltac abrir_passo :=
  rewrite ?st_val_add_pend, ?st_obs_add_pend; cbn [st_val st_obs set_val add_obs].

Lemma val_passo_ca zona p c st :
  st_val (passo_ca zona p c st)
  = match indicador c Area_construida with
    | Some v => <["CA_real" := v]> (st_val st)
    | None => st_val st
    end.
Proof. unfold passo_ca, indicador. by destruct (area_construida_total_m2 c); abrir_passo. Qed.

Lemma val_passo_tocup zona p c st :
  st_val (passo_tocup zona p c st)
  = match indicador c Area_ocupada with
    | Some v => <["Tocup_real" := v]> (st_val st)
    | None => st_val st
    end.
Proof. unfold passo_tocup, indicador. by destruct (area_ocupada_projecao_m2 c); abrir_passo. Qed.

Lemma val_passo_tperm zona p c st :
  st_val (passo_tperm zona p c st)
  = match indicador c Area_permeavel with
    | Some v => <["Tperm_real" := v]> (st_val st)
    | None => st_val st
    end.
Proof. unfold passo_tperm, indicador. by destruct (area_permeavel_m2 c); abrir_passo. Qed.

Lemma val_passo_npav zona p c st :
  st_val (passo_npav zona p c st)
  = match indicador c Numero_pavimentos with
    | Some v => <["Npav_real" := v]> (st_val st)
    | None => st_val st
    end.
Proof. unfold passo_npav, indicador. by destruct (numero_pavimentos c); abrir_passo. Qed.

Lemma val_passo_altura zona p c st :
  st_val (passo_altura zona p c st)
  = match indicador c Altura_maxima with
    | Some v => <["Gab_real" := v]> (st_val st)
    | None => st_val st
    end.
Proof. unfold passo_altura, indicador. by destruct (altura_maxima_m c); abrir_passo. Qed.

Lemma informado_indicador c f : informado c f = false ↔ indicador c f = None.
Proof.
  destruct f; cbn;
    match goal with |- context [bool_decide (is_Some ?o)] => destruct o end;
    cbn; split; try done; intros H; by apply informado_falso in H.
Qed.

Lemma obs_passo_ca zona p c st o :
  o ∈ st_obs (passo_ca zona p c st)
  ↔ o ∈ st_obs st ∨ (indicador c Area_construida = None ∧ o = CA_nao_avaliado).
Proof.
  unfold passo_ca, indicador. destruct (area_construida_total_m2 c); abrir_passo.
  - split; [by left|]. by intros [?|[? _]].
  - rewrite elem_of_app, list_elem_of_singleton. split; (intros [?|?]; [by left|right]); tauto.
Qed.

Lemma obs_passo_tocup zona p c st o :
  o ∈ st_obs (passo_tocup zona p c st)
  ↔ o ∈ st_obs st ∨ (indicador c Area_ocupada = None ∧ o = Tocup_nao_avaliada).
Proof.
  unfold passo_tocup, indicador. destruct (area_ocupada_projecao_m2 c); abrir_passo.
  - split; [by left|]. by intros [?|[? _]].
  - rewrite elem_of_app, list_elem_of_singleton. split; (intros [?|?]; [by left|right]); tauto.
Qed.

Lemma obs_passo_tperm zona p c st o :
  o ∈ st_obs (passo_tperm zona p c st)
  ↔ o ∈ st_obs st ∨ (indicador c Area_permeavel = None ∧ o = Tperm_nao_avaliada).
Proof.
  unfold passo_tperm, indicador. destruct (area_permeavel_m2 c); abrir_passo.
  - split; [by left|]. by intros [?|[? _]].
  - rewrite elem_of_app, list_elem_of_singleton. split; (intros [?|?]; [by left|right]); tauto.
Qed.

Lemma obs_passo_npav zona p c st o :
  o ∈ st_obs (passo_npav zona p c st)
  ↔ o ∈ st_obs st ∨ (indicador c Numero_pavimentos = None ∧ o = Npav_nao_informado).
Proof.
  unfold passo_npav, indicador. destruct (numero_pavimentos c); abrir_passo.
  - split; [by left|]. by intros [?|[? _]].
  - rewrite elem_of_app, list_elem_of_singleton. split; (intros [?|?]; [by left|right]); tauto.
Qed.

Lemma obs_passo_altura zona p c st o :
  o ∈ st_obs (passo_altura zona p c st)
  ↔ o ∈ st_obs st ∨ (indicador c Altura_maxima = None ∧ o = Altura_nao_informada).
Proof.
  unfold passo_altura, indicador. destruct (altura_maxima_m c); abrir_passo.
  - split; [by left|]. by intros [?|[? _]].
  - rewrite elem_of_app, list_elem_of_singleton. split; (intros [?|?]; [by left|right]); tauto.
Qed.

(** X3: a successful evaluation records, for each of the five scenario
    fields, either the value computed from it or an advisory, never both:
    the computed values hold exactly the ratio (or the number) of each field
    that is given, under the key of the field and under no other key, and the
    advisories are exactly those of the fields that are omitted. *)
Theorem valores_e_observacoes_por_campo (zona : string) (p : ParametrosZona)
  (c : CenarioEdificacao) (r : ResultadoAvaliacaoZona) :
  avaliar_edificacao_na_zona zona p c = Ok r →
  (∀ f, valores_calculados r !! chave_do_campo f = indicador c f)
  ∧ (∀ k, is_Some (valores_calculados r !! k) → ∃ f, k = chave_do_campo f)
  ∧ (∀ o, o ∈ observacoes r ↔ informado c (campo_da_observacao o) = false).
Proof.
  intros H. destruct (avaliar_Ok_inv _ _ _ _ H) as (_ & st & -> & _ & Ho & Hv & _).
  rewrite Hv, Ho.
  rewrite val_passo_altura, val_passo_npav, val_passo_tperm, val_passo_tocup, val_passo_ca.
  cbn [st_val]. split; [|split].
  - intros f.
    destruct (indicador c Area_construida) eqn:E1, (indicador c Area_ocupada) eqn:E2,
      (indicador c Area_permeavel) eqn:E3, (indicador c Numero_pavimentos) eqn:E4,
      (indicador c Altura_maxima) eqn:E5; destruct f; cbn [chave_do_campo];
      rewrite ?E1, ?E2, ?E3, ?E4, ?E5;
      repeat (rewrite lookup_insert_ne by done); rewrite ?lookup_insert_eq, ?lookup_empty;
      reflexivity.
  - intros k Hk.
    assert (k = "CA_real" ∨ k = "Tocup_real" ∨ k = "Tperm_real" ∨ k = "Npav_real"
            ∨ k = "Gab_real") as Hcasos.
    { destruct (indicador c Area_construida), (indicador c Area_ocupada),
        (indicador c Area_permeavel), (indicador c Numero_pavimentos),
        (indicador c Altura_maxima);
        repeat (apply lookup_insert_is_Some in Hk as [<-|[_ Hk]]; [tauto|]);
        rewrite lookup_empty in Hk; by destruct Hk. }
    destruct Hcasos as [->|[->|[->|[->| ->]]]];
      [by exists Area_construida|by exists Area_ocupada|by exists Area_permeavel
      |by exists Numero_pavimentos|by exists Altura_maxima].
  - intros o. rewrite informado_indicador.
    rewrite obs_passo_altura, obs_passo_npav, obs_passo_tperm, obs_passo_tocup, obs_passo_ca.
    cbn [st_obs]. rewrite elem_of_nil. split.
    + intros [[[[[[]|[? ->]]|[? ->]]|[? ->]]|[? ->]]|[? ->]]; done.
    + intros Hn. destruct o; cbn in Hn; tauto.
Qed.

Lemma valores_e_observacoes_por_campo_witness :
  ∃ r, avaliar_edificacao_na_zona "MUQ2" Exemplo.parametros_muq2 Exemplo.cenario = Ok r
    ∧ (∀ f, valores_calculados r !! chave_do_campo f = indicador Exemplo.cenario f)
    ∧ (∀ k, is_Some (valores_calculados r !! k) → ∃ f, k = chave_do_campo f)
    ∧ (∀ o, o ∈ observacoes r ↔ informado Exemplo.cenario (campo_da_observacao o) = false).
Proof.
  eexists. split; [vm_compute; reflexivity|].
  apply (valores_e_observacoes_por_campo "MUQ2" Exemplo.parametros_muq2). vm_compute. reflexivity.
Defined.

(** ** The parameter table *)

Lemma carregar_zona_codigo cod indices p :
  carregar_zona cod indices = Ok p → codigo p = cod.
Proof.
  unfold carregar_zona.
  destruct (conv_int (indices !! "Npav_bas")); [|discriminate].
  destruct (conv_int (indices !! "Npav_max")); [|discriminate].
  by intros [= <-].
Qed.

Lemma carregar_parametros_entradas bruto acc t cod p :
  carregar_parametros bruto acc = Ok t →
  t !! cod = Some p →
  (acc !! cod = Some p ∧ cod ∉ bruto.*1)
  ∨ ∃ indices, (cod, indices) ∈ bruto ∧ carregar_zona cod indices = Ok p.
Proof.
  revert acc. induction bruto as [|[cod' indices] resto IH]; intros acc.
  - intros [= <-] Hp. left. split; [done|]. apply not_elem_of_nil.
  - cbn [carregar_parametros]. destruct (carregar_zona cod' indices) as [p'|] eqn:E;
      [|discriminate]. cbn [res_bind]. intros H Hp.
    destruct (IH _ H Hp) as [[Hacc Hn]|(ind & Hin & Hz)].
    + apply lookup_insert_Some in Hacc as [[<- <-]|[Hne Hacc]].
      * right. exists indices. split; [left|done].
      * left. split; [done|]. cbn. rewrite not_elem_of_cons. done.
    + right. exists ind. split; [by right|done].
Qed.

Lemma carregar_parametros_chaves bruto acc t cod :
  carregar_parametros bruto acc = Ok t →
  is_Some (t !! cod) ↔ is_Some (acc !! cod) ∨ cod ∈ bruto.*1.
Proof.
  revert acc. induction bruto as [|[cod' indices] resto IH]; intros acc.
  - intros [= <-]. cbn. rewrite elem_of_nil. tauto.
  - cbn [carregar_parametros]. destruct (carregar_zona cod' indices) as [p'|] eqn:E;
      [|discriminate]. cbn [res_bind]. intros H.
    rewrite (IH _ H), lookup_insert_is_Some. cbn. rewrite elem_of_cons.
    destruct (decide (cod' = cod)) as [->|Hne]; [tauto|].
    split; [intros [[?|[_ ?]]|?]|intros [?|[?|?]]]; try tauto. congruence.
Qed.

(** X4: a table that loads has one entry per zone code of the file and
    nothing else; the entry of a code carries that code in its [codigo]
    field, and is what the [indices] object of an entry of the file under
    that code converts to. *)
Theorem tabela_indexada_por_codigo (bruto : list (string * gmap string json))
  (t : gmap string ParametrosZona) :
  carregar_parametros_de_arquivo (Ok bruto) = Ok t →
  (∀ cod, is_Some (t !! cod) ↔ cod ∈ bruto.*1)
  ∧ (∀ cod p, t !! cod = Some p →
       codigo p = cod
       ∧ ∃ indices, (cod, indices) ∈ bruto ∧ carregar_zona cod indices = Ok p).
Proof.
  cbn [carregar_parametros_de_arquivo res_bind]. intros H. split.
  - intros cod. rewrite (carregar_parametros_chaves _ _ _ cod H), lookup_empty.
    split; [intros [[? [=]]|?]; done|by right].
  - intros cod p Hp.
    destruct (carregar_parametros_entradas _ _ _ _ _ H Hp) as [[Hacc _]|(ind & Hin & Hz)].
    + by rewrite lookup_empty in Hacc.
    + split; [by eapply carregar_zona_codigo|by exists ind].
Qed.

Lemma tabela_indexada_por_codigo_witness :
  ∃ t, carregar_parametros_de_arquivo (Ok Exemplo.tabela_muq2) = Ok t
    ∧ (∀ cod, is_Some (t !! cod) ↔ cod ∈ Exemplo.tabela_muq2.*1)
    ∧ (∀ cod p, t !! cod = Some p →
         codigo p = cod
         ∧ ∃ indices, (cod, indices) ∈ Exemplo.tabela_muq2
                      ∧ carregar_zona cod indices = Ok p).
Proof.
  eexists. split; [vm_compute; reflexivity|].
  apply tabela_indexada_por_codigo. vm_compute. reflexivity.
Defined.





(** ** Sums of areas *)

Lemma Qsum_app l1 l2 : (Qsum (l1 ++ l2) == Qsum l1 + Qsum l2)%Q.
Proof.
  induction l1 as [|x l1 IH]; cbn [app].
  - unfold Qsum at 2. cbn. ring.
  - rewrite !Qsum_cons, IH. ring.
Qed.

Lemma Qsum_perm l1 l2 : l1 ≡ₚ l2 → (Qsum l1 == Qsum l2)%Q.
Proof.
  induction 1 as [|x l1 l2 _ IH|x y l|l1 l2 l3 _ IH1 _ IH2].
  - reflexivity.
  - rewrite !Qsum_cons, IH. reflexivity.
  - rewrite !Qsum_cons. ring.
  - by rewrite IH1.
Qed.


Lemma soma_valores_empty : soma_valores ∅ = 0%Q.
Proof. unfold soma_valores. by rewrite map_to_list_empty. Qed.

Lemma soma_valores_insert_novo (m : gmap string Q) k v :
  m !! k = None → (soma_valores (<[k := v]> m) == v + soma_valores m)%Q.
Proof.
  intros H. unfold soma_valores.
  rewrite (Qsum_perm _ (v :: (map_to_list m).*2)); [by rewrite Qsum_cons|].
  change (v :: (map_to_list m).*2) with (((k, v) :: map_to_list m).*2).
  apply fmap_Permutation. by apply map_to_list_insert.
Qed.

Lemma soma_valores_delete (m : gmap string Q) k v :
  m !! k = Some v → (soma_valores m == v + soma_valores (delete k m))%Q.
Proof.
  intros H. unfold soma_valores.
  rewrite (Qsum_perm _ (v :: (map_to_list (delete k m)).*2)); [by rewrite Qsum_cons|].
  change (v :: (map_to_list (delete k m)).*2) with (((k, v) :: map_to_list (delete k m)).*2).
  apply fmap_Permutation. symmetry. by apply map_to_list_delete.
Qed.

Lemma soma_valores_acumula (m : gmap string Q) k a :
  (soma_valores (<[k := (default 0 (m !! k) + a)%Q]> m) == soma_valores m + a)%Q.
Proof.
  destruct (m !! k) as [v|] eqn:E; cbn [default].
  - rewrite <- insert_delete_eq, soma_valores_insert_novo by apply lookup_delete_eq.
    rewrite (soma_valores_delete m k v E). unfold id. ring.
  - rewrite soma_valores_insert_novo by done. ring.
Qed.



(** ** The areas the decomposition accumulates *)

Lemma acumular_feicao_zona idx feat m m' :
  acumular_feicao idx feat m = Ok m' →
  m' = match zona_da_feicao idx feat with
       | Some z => <[z := (default 0 (m !! z) + fz_area_inter feat)%Q]> m
       | None => m
       end.
Proof.
  unfold acumular_feicao, zona_da_feicao.
  destruct (fz_geom_vazia feat); cbn [orb]; [by intros [= <-]|].
  destruct (fz_intersecta feat); cbn [negb orb]; [|by intros [= <-]].
  destruct (fz_inter_vazia feat); cbn [orb]; [by intros [= <-]|].
  destruct (Qle_bool (fz_area_inter feat) 0); [by intros [= <-]|].
  destruct (fz_atributos feat !! idx) as [v|]; [|discriminate].
  destruct (PyStr.truthy (PyStr.strip v)); cbn [negb]; by intros [= <-].
Qed.

Lemma Qsum_filter_cons {A} (P : A → Prop) `{∀ x, Decision (P x)} (f : A → Q) x l :
  (Qsum (f <$> filter P (x :: l))
   == (if decide (P x) then f x else 0) + Qsum (f <$> filter P l))%Q.
Proof.
  rewrite filter_cons. destruct (decide (P x)).
  - by rewrite fmap_cons, Qsum_cons.
  - ring.
Qed.

Lemma acumular_feicoes_por_zona idx feats m m' z :
  acumular_feicoes idx feats m = Ok m' →
  (default 0 (m' !! z)
   == default 0 (m !! z)
      + Qsum (fz_area_inter <$> filter (λ f, zona_da_feicao idx f = Some z) feats))%Q.
Proof.
  revert m. induction feats as [|feat resto IH]; intros m.
  - intros [= <-]. rewrite filter_nil. cbn. ring.
  - cbn [acumular_feicoes]. destruct (acumular_feicao idx feat m) as [m1|] eqn:E;
      [|discriminate]. cbn [res_bind]. intros H.
    rewrite (IH _ H), Qsum_filter_cons. apply acumular_feicao_zona in E. subst m1.
    destruct (zona_da_feicao idx feat) as [z'|] eqn:Ez.
    + destruct (decide (Some z' = Some z)) as [[= ->]|Hne].
      * rewrite lookup_insert_eq. cbn [default from_option]. unfold id. ring.
      * rewrite lookup_insert_ne by congruence. ring.
    + destruct (decide (None = Some z)); [done|]. ring.
Qed.

Lemma acumular_feicoes_soma idx feats m m' :
  acumular_feicoes idx feats m = Ok m' →
  (soma_valores m'
   == soma_valores m
      + Qsum (fz_area_inter <$> filter (λ f, is_Some (zona_da_feicao idx f)) feats))%Q.
Proof.
  revert m. induction feats as [|feat resto IH]; intros m.
  - intros [= <-]. rewrite filter_nil. cbn. ring.
  - cbn [acumular_feicoes]. destruct (acumular_feicao idx feat m) as [m1|] eqn:E;
      [|discriminate]. cbn [res_bind]. intros H.
    rewrite (IH _ H), Qsum_filter_cons. apply acumular_feicao_zona in E. subst m1.
    destruct (zona_da_feicao idx feat) as [z'|] eqn:Ez.
    + destruct (decide (is_Some (Some z'))) as [_|Hn]; [|by destruct Hn].
      rewrite soma_valores_acumula. ring.
    + destruct (decide (is_Some (@None string))) as [[? [=]]|_]. ring.
Qed.

Lemma calcular_inv cam campo r :
  calcular_zoneamento_incidente false (Some cam) campo = Ok r →
  r = ResultadoZoneamentoGeom_vazio
  ∨ ∃ c idx areas,
      detectar_campo_codigo_zona (Some cam) campo = Some c
      ∧ indexFromName c (cz_campos cam) = Some idx
      ∧ acumular_feicoes idx (cz_feicoes cam) ∅ = Ok areas
      ∧ areas ≠ ∅
      ∧ r = {| zonas := merge_sort String.le (elements (dom areas));
               areas_por_zona := areas;
               area_total_zoneada := soma_valores areas;
               percentuais :=
                 if Qle_bool (soma_valores areas) 0 then (λ _, 0%Q) <$> areas
                 else (λ a, (a * 100 / soma_valores areas)%Q) <$> areas |}.
Proof.
  unfold calcular_zoneamento_incidente.
  destruct (detectar_campo_codigo_zona (Some cam) campo) as [c|] eqn:Ec;
    [|intros [= <-]; by left].
  destruct (indexFromName c (cz_campos cam)) as [idx|] eqn:Ei; [|intros [= <-]; by left].
  destruct (acumular_feicoes idx (cz_feicoes cam) ∅) as [areas|] eqn:E; [|discriminate].
  cbn [res_bind]. destruct (bool_decide (areas = ∅)) eqn:Hv; intros [= <-]; [by left|].
  apply bool_decide_eq_false in Hv. right. by exists c, idx, areas.
Qed.

Lemma calcular_vazio_areas cam campo c idx :
  calcular_zoneamento_incidente false (Some cam) campo = Ok ResultadoZoneamentoGeom_vazio →
  detectar_campo_codigo_zona (Some cam) campo = Some c →
  indexFromName c (cz_campos cam) = Some idx →
  acumular_feicoes idx (cz_feicoes cam) ∅ = Ok ∅.
Proof.
  unfold calcular_zoneamento_incidente. intros H Hc Hi. rewrite Hc, Hi in H. revert H.
  destruct (acumular_feicoes idx (cz_feicoes cam) ∅) as [areas|] eqn:E; [|discriminate].
  cbn [res_bind]. destruct (bool_decide (areas = ∅)) eqn:Hv.
  { apply bool_decide_eq_true in Hv. by subst. }
  apply bool_decide_eq_false in Hv. intros [= H _]. exfalso. apply Hv. apply map_eq. intros k. rewrite lookup_empty.
  apply eq_None_not_Some. rewrite <- elem_of_dom. intros Hk.
  assert (k ∈ merge_sort String.le (elements (dom areas))) as Hin.
  { rewrite merge_sort_Permutation. by apply elem_of_elements. }
  rewrite H in Hin. by apply elem_of_nil in Hin.
Qed.

(** X6: the decomposition conserves area. The area recorded for a zone
    code is the sum of the intersection areas of the features counted under
    that code (codes that differ only by blanks around them are one code),
    a code with no counted feature has no area, and the total zoned area is
    the sum over all counted features. *)
Theorem areas_por_zona_somam_as_intersecoes (cam : CamadaZoneamento)
  (campo : option string) (r : ResultadoZoneamentoGeom) (c : string) (idx : nat) :
  calcular_zoneamento_incidente false (Some cam) campo = Ok r →
  detectar_campo_codigo_zona (Some cam) campo = Some c →
  indexFromName c (cz_campos cam) = Some idx →
  (∀ z, (default 0 (areas_por_zona r !! z)
         == Qsum (fz_area_inter
                    <$> filter (λ f, zona_da_feicao idx f = Some z) (cz_feicoes cam)))%Q)
  ∧ (area_total_zoneada r
     == Qsum (fz_area_inter
                <$> filter (λ f, is_Some (zona_da_feicao idx f)) (cz_feicoes cam)))%Q.
Proof.
  intros H Hc Hi.
  assert (∃ areas, acumular_feicoes idx (cz_feicoes cam) ∅ = Ok areas
                   ∧ areas_por_zona r = areas
                   ∧ (area_total_zoneada r == soma_valores areas)%Q)
    as (areas & Ha & -> & Ht).
  { destruct (calcular_inv _ _ _ H) as [->|(c' & idx' & areas & Hc' & Hi' & Ha & _ & ->)].
    - exists ∅. split; [by eapply calcular_vazio_areas|]. split; [done|].
      by rewrite soma_valores_empty.
    - rewrite Hc in Hc'. injection Hc' as <-. rewrite Hi in Hi'. injection Hi' as <-.
      exists areas. by repeat split. }
  split.
  - intros z. rewrite (acumular_feicoes_por_zona _ _ _ _ z Ha), lookup_empty. cbn. ring.
  - rewrite Ht, (acumular_feicoes_soma _ _ _ _ Ha), soma_valores_empty. ring.
Qed.

Lemma areas_por_zona_somam_as_intersecoes_witness :
  ∃ r, calcular_zoneamento_incidente false (Some Exemplo.camada_muq2) None = Ok r
    ∧ (∀ z, (default 0 (areas_por_zona r !! z)
             == Qsum (fz_area_inter
                        <$> filter (λ f, zona_da_feicao 0 f = Some z)
                              (cz_feicoes Exemplo.camada_muq2)))%Q)
    ∧ (area_total_zoneada r
       == Qsum (fz_area_inter
                  <$> filter (λ f, is_Some (zona_da_feicao 0 f))
                        (cz_feicoes Exemplo.camada_muq2)))%Q.
Proof.
  eexists. split; [vm_compute; reflexivity|].
  apply (areas_por_zona_somam_as_intersecoes Exemplo.camada_muq2 None _ "zona" 0%nat);
    vm_compute; reflexivity.
Defined.

(** ** Percentages *)








(** ** The codes of the zones *)






Lemma truthy_nao_vazio s : PyStr.truthy s = true ↔ s ≠ "".
Proof. by destruct s. Qed.





(** ** The field of the zone codes *)

Lemma indexFromName_lookup nome campos i :
  indexFromName nome campos = Some i → campos !! i = Some nome.
Proof.
  revert i. induction campos as [|c cs IH]; intros i; [done|]. cbn.
  destruct (String.eqb c nome) eqn:E.
  - intros [= <-]. apply String.eqb_eq in E. by subst.
  - destruct (indexFromName nome cs) as [j|]; [|done]. intros [= <-]. by apply IH.
Qed.

Lemma indexFromName_elem nome campos :
  nome ∈ campos → is_Some (indexFromName nome campos).
Proof.
  induction campos as [|c cs IH]; [by intros []%elem_of_nil|]. cbn.
  destruct (String.eqb c nome) eqn:E; [by eexists|].
  intros [->|Hin]%elem_of_cons.
  - by rewrite String.eqb_refl in E.
  - destruct (IH Hin) as [j ->]. by eexists.
Qed.

Lemma find_candidato campos c :
  List.find (λ nome, pertence nome campos) CAMPOS_CODIGO_ZONA_CANDIDATOS = Some c →
  c ∈ campos ∧ c ∈ CAMPOS_CODIGO_ZONA_CANDIDATOS.
Proof.
  intros [Hin Hp]%find_some. split.
  - by apply bool_decide_eq_true in Hp.
  - by apply list_elem_of_In.
Qed.

Lemma find_sem_candidato campos :
  List.find (λ nome, pertence nome campos) CAMPOS_CODIGO_ZONA_CANDIDATOS = None →
  ∀ n, n ∈ CAMPOS_CODIGO_ZONA_CANDIDATOS → n ∉ campos.
Proof.
  intros H n Hn Hin. apply list_elem_of_In in Hn.
  pose proof (find_none _ _ H n Hn) as Hf. cbn in Hf.
  by apply bool_decide_eq_false in Hf.
Qed.

(** X9: the field detected for the zone codes is a field of the layer, so
    that its index is always found (the test for a missing index never
    fires) and points at that field; a forced field that is not empty and
    is in the layer is the one returned, whatever candidates the layer also
    has; otherwise the field is one of the candidate names; and no field is
    detected only when the layer has none of the candidate names. *)
Theorem campo_detectado_e_da_camada (cam : CamadaZoneamento) (forcado : option string) :
  (∀ c, detectar_campo_codigo_zona (Some cam) forcado = Some c →
        c ∈ cz_campos cam
        ∧ (forcado = Some c ∨ c ∈ CAMPOS_CODIGO_ZONA_CANDIDATOS)
        ∧ ∃ i, indexFromName c (cz_campos cam) = Some i ∧ cz_campos cam !! i = Some c)
  ∧ (∀ c, forcado = Some c → c ≠ "" → c ∈ cz_campos cam →
          detectar_campo_codigo_zona (Some cam) forcado = Some c)
  ∧ (detectar_campo_codigo_zona (Some cam) forcado = None →
     ∀ n, n ∈ CAMPOS_CODIGO_ZONA_CANDIDATOS → n ∉ cz_campos cam).
Proof.
  split; [|split].
  - intros c H.
    assert (c ∈ cz_campos cam ∧ (forcado = Some c ∨ c ∈ CAMPOS_CODIGO_ZONA_CANDIDATOS))
      as [Hin Hor].
    { cbn in H. destruct forcado as [f|].
      - destruct (PyStr.truthy f && pertence f (cz_campos cam)) eqn:E.
        + injection H as ->. apply andb_true_iff in E as [_ E].
          apply bool_decide_eq_true in E. split; [done|by left].
        + apply find_candidato in H as [??]. split; [done|by right].
      - apply find_candidato in H as [??]. split; [done|by right]. }
    split; [done|]. split; [done|].
    destruct (indexFromName_elem _ _ Hin) as [i Hi]. exists i. split; [done|].
    by apply indexFromName_lookup.
  - intros c -> Hc Hin. cbn.
    assert (PyStr.truthy c = true) as -> by by apply truthy_nao_vazio.
    unfold pertence. by rewrite bool_decide_eq_true_2.
  - cbn. destruct forcado as [f|].
    + destruct (PyStr.truthy f && pertence f (cz_campos cam)); [done|].
      apply find_sem_candidato.
    + apply find_sem_candidato.
Qed.

Lemma campo_detectado_e_da_camada_witness :
  detectar_campo_codigo_zona
    (Some {| cz_campos := ["id"; "zona"; "SIGLA"]; cz_feicoes := [] |}) (Some "SIGLA")
  = Some "SIGLA"
  ∧ ∃ i, indexFromName "zona" ["id"; "zona"; "SIGLA"] = Some i
         ∧ ["id"; "zona"; "SIGLA"] !! i = Some "zona".
Proof.
  destruct (campo_detectado_e_da_camada
              {| cz_campos := ["id"; "zona"; "SIGLA"]; cz_feicoes := [] |} (Some "SIGLA"))
    as (_ & H2 & _).
  destruct (campo_detectado_e_da_camada
              {| cz_campos := ["id"; "zona"; "SIGLA"]; cz_feicoes := [] |} None)
    as (H1 & _ & _).
  split.
  - apply H2; [reflexivity|discriminate|].
    apply (bool_decide_unpack _). vm_compute. exact I.
  - destruct (H1 "zona") as (_ & _ & Hi); [vm_compute; reflexivity|exact Hi].
Defined.

(** ** The rulebook: notes, streets and precedence *)

Lemma sorted_set_nao_vazio (l : list string) : l ≠ [] → Regra.vazia (PyStr.sorted_set l) = false.
Proof.
  destruct l as [|x l]; [done|]. intros _. apply (vazia_false _ x).
  apply elem_of_sorted_set. by left.
Qed.

Lemma sorted_set_vazio (l : list string) : Regra.vazia (PyStr.sorted_set l) = true ↔ l = [].
Proof.
  split.
  - destruct l as [|x l]; [done|]. by rewrite sorted_set_nao_vazio.
  - by intros ->.
Qed.

Lemma via_da_testada (testadas : gmap string Q) nome :
  nome ∈ Regra.vias testadas ↔ is_Some (testadas !! nome).
Proof.
  unfold Regra.vias. rewrite list_elem_of_fmap. split.
  - intros ([k v] & -> & H%elem_of_map_to_list). by exists v.
  - intros [v H]. exists (nome, v). split; [done|]. by apply elem_of_map_to_list.
Qed.

Lemma acesso_lucio_por_via (testadas : gmap string Q) nome :
  is_Some (testadas !! nome) →
  PyStr.contains "LUCIO" (Regra._normalizar_nome_logradouro nome) = true →
  PyStr.contains "MENDES" (Regra._normalizar_nome_logradouro nome) = true →
  Regra.acesso_lucio_deduzido testadas = true.
Proof.
  intros Hin H1 H2. unfold Regra.acesso_lucio_deduzido. apply existsb_exists.
  exists nome. split; [by apply list_elem_of_In, via_da_testada|]. cbv zeta.
  by rewrite H1, H2.
Qed.

(** X10: Note 10 comes first in the rulebook. Whenever some zone is
    incident and the flag of Note 10 is set, the reference zone is ZEOT2 and
    the rule is NOTA_10_ZEOT2, whatever the flag of Note 37, the frontages
    and the zones are; the zones considered are the incident ones and ZEOT2,
    and ZEOT2 is the only zone reported as special. *)
Theorem nota10_vem_primeiro (zonas : list string) (areas testadas : gmap string Q)
  (n37 : bool) :
  zonas ≠ [] →
  let r := Regra.aplicar_regra_sobreposicao zonas areas testadas true n37 in
  Regra.zona_principal r = Some "ZEOT2"
  ∧ Regra.tipo_regra r = "NOTA_10_ZEOT2"
  ∧ Regra.zonas_especiais r = ["ZEOT2"]
  ∧ ∀ z, z ∈ Regra.zonas_consideradas r ↔ z ∈ zonas ∨ z = "ZEOT2".
Proof.
  intros Hz. cbv zeta. unfold Regra.aplicar_regra_sobreposicao.
  rewrite sorted_set_nao_vazio by done.
  cbn [Regra.zona_principal Regra.tipo_regra Regra.zonas_especiais Regra.zonas_consideradas].
  assert (∀ z, z ∈ PyStr.sorted_set (PyStr.sorted_set zonas ++ ["ZEOT2"])
               ↔ z ∈ zonas ∨ z = "ZEOT2") as Hc.
  { intros z. by rewrite elem_of_sorted_set, elem_of_app, elem_of_sorted_set,
      list_elem_of_singleton. }
  split; [done|]. split; [done|]. split; [|done].
  unfold pertence. rewrite bool_decide_eq_true_2; [done|]. apply Hc. by right.
Qed.

Lemma nota10_vem_primeiro_witness :
  Regra.zona_principal
    (Regra.aplicar_regra_sobreposicao ["ZE1"; "MUQ2"] ∅
       {["Rua Lúcio Joaquim Mendes" := 12%Q]} true true)
  = Some "ZEOT2".
Proof.
  destruct (nota10_vem_primeiro ["ZE1"; "MUQ2"] ∅ {["Rua Lúcio Joaquim Mendes" := 12%Q]} true)
    as [H _]; [discriminate|exact H].
Defined.

(** X11: Note 37 comes next, and the frontages alone trigger it. With the
    flag of Note 10 off and some zone incident, the reference zone is MUQ3
    and the rule NOTA_37_MUQ3 as soon as the flag of Note 37 is set or the
    parcel fronts a street whose name, in capitals and without accents, has
    both LUCIO and MENDES in it; this holds even when special zones are
    incident. MUQ3 is then the only zone reported as an axis. *)
Theorem nota37_manual_ou_pela_testada (zonas : list string) (areas testadas : gmap string Q)
  (n37 : bool) :
  zonas ≠ [] →
  (n37 = true
   ∨ ∃ nome, is_Some (testadas !! nome)
       ∧ PyStr.contains "LUCIO" (Regra._normalizar_nome_logradouro nome) = true
       ∧ PyStr.contains "MENDES" (Regra._normalizar_nome_logradouro nome) = true) →
  let r := Regra.aplicar_regra_sobreposicao zonas areas testadas false n37 in
  Regra.zona_principal r = Some "MUQ3"
  ∧ Regra.tipo_regra r = "NOTA_37_MUQ3"
  ∧ Regra.zonas_eixo r = ["MUQ3"]
  ∧ ∀ z, z ∈ Regra.zonas_consideradas r ↔ z ∈ zonas ∨ z = "MUQ3".
Proof.
  intros Hz Hn. cbv zeta. unfold Regra.aplicar_regra_sobreposicao.
  rewrite sorted_set_nao_vazio by done.
  assert (n37 || Regra.acesso_lucio_deduzido testadas = true) as ->.
  { destruct Hn as [->|(nome & H1 & H2 & H3)]; [done|].
    rewrite (acesso_lucio_por_via _ _ H1 H2 H3). apply orb_true_r. }
  cbn [Regra.zona_principal Regra.tipo_regra Regra.zonas_eixo Regra.zonas_consideradas].
  split; [done|]. split; [done|]. split; [done|].
  intros z. by rewrite elem_of_sorted_set, elem_of_app, elem_of_sorted_set,
    list_elem_of_singleton.
Qed.

Lemma nota37_manual_ou_pela_testada_witness :
  Regra.zona_principal
    (Regra.aplicar_regra_sobreposicao ["ZE1"] {["ZE1" := 300%Q]}
       {["Rua Lúcio Joaquim Mendes" := 12%Q]} false false)
  = Some "MUQ3".
Proof.
  destruct (nota37_manual_ou_pela_testada ["ZE1"] {["ZE1" := 300%Q]}
              {["Rua Lúcio Joaquim Mendes" := 12%Q]} false) as [H _].
  - discriminate.
  - right. exists "Rua Lúcio Joaquim Mendes".
    split; [by eexists|]. split; vm_compute; reflexivity.
  - exact H.
Defined.

(** The zones the rulebook may add to the incident ones. *)
Lemma deduzida_da_via (testadas : gmap string Q) nome z :
  is_Some (testadas !! nome) → Regra._zona_por_logradouro nome = Some z →
  z ∈ Regra.zonas_deduzidas testadas.
Proof.
  intros Hin Hz. unfold Regra.zonas_deduzidas. apply list_elem_of_omap.
  exists nome. split; [by apply via_da_testada|]. rewrite Hz.
  by destruct (zona_por_logradouro_eixo _ _ Hz) as [-> | ->].
Qed.

Lemma deduzidas_sao_eixo (testadas : gmap string Q) z :
  z ∈ Regra.zonas_deduzidas testadas → Regra._classificar_zona z = "EIXO".
Proof. intros [-> | ->]%deduzidas_eixo; vm_compute; reflexivity. Qed.

Ltac abrir_ramos :=
  repeat match goal with
         | |- context [if ?b then _ else _] =>
             match b with
             | context [Regra.com_categoria] => destruct b eqn:?
             | context [List.filter] => destruct b eqn:?
             end
         end.

Lemma regra_sem_notas_consideradas zonas areas testadas :
  Regra.vazia (PyStr.sorted_set zonas) = false →
  Regra.acesso_lucio_deduzido testadas = false →
  let r := Regra.aplicar_regra_sobreposicao zonas areas testadas false false in
  Regra.zonas_consideradas r = zonas_da_regra zonas testadas
  ∧ Regra.tipo_regra r ≠ "SEM_ZONEAMENTO"
  ∧ (Regra.com_categoria "EIXO" (zonas_da_regra zonas testadas) ≠ [] →
     Regra.zonas_eixo r = Regra.com_categoria "EIXO" (zonas_da_regra zonas testadas)).
Proof.
  intros Hv Hl. cbv zeta. unfold Regra.aplicar_regra_sobreposicao. rewrite Hv, Hl.
  cbn [orb]. fold (zonas_da_regra zonas testadas).
  set (zu := zonas_da_regra zonas testadas). cbv zeta.
  abrir_ramos; cbn [Regra.zonas_consideradas Regra.tipo_regra Regra.zonas_eixo];
    try (split; [done|split; [done|done]]).
  destruct (Regra.com_categoria "MACRO" zu) as [|m [|m' ms]];
      cbn [Regra.zonas_consideradas Regra.tipo_regra Regra.zonas_eixo];
      (split; [done|]; split; [done|]); intros Hne;
      repeat match goal with
             | H : _ && _ = true |- _ => apply andb_true_iff in H as [??]
             end;
      match goal with
      | H : Regra.vazia (Regra.com_categoria "EIXO" zu) = true |- _ =>
          apply vazia_nil in H; by rewrite H in Hne
      end.
Qed.

Lemma zonas_da_regra_NoDup zonas testadas : NoDup (zonas_da_regra zonas testadas).
Proof. unfold zonas_da_regra. destruct (Regra.vazia _); apply sorted_set_NoDup. Qed.

(** X12: whatever the incident zones, the areas, the frontages and the
    flags, the zones the rulebook reports as considered are in ascending
    order of their codes, each once; they include every incident zone; the
    only zones the rulebook ever adds are ZEOT2 (Note 10), MUQ3 (Note 37)
    and the axis codes EU1 and SEMIEIXO deduced from street names; and the
    rule is SEM_ZONEAMENTO exactly when no zone is incident, the flags and
    the frontages being ignored then. *)
Theorem zonas_consideradas_em_ordem (zonas : list string) (areas testadas : gmap string Q)
  (n10 n37 : bool) :
  let r := Regra.aplicar_regra_sobreposicao zonas areas testadas n10 n37 in
  StronglySorted String.le (Regra.zonas_consideradas r)
  ∧ NoDup (Regra.zonas_consideradas r)
  ∧ (∀ z, z ∈ zonas → z ∈ Regra.zonas_consideradas r)
  ∧ (∀ z, z ∈ Regra.zonas_consideradas r →
          z ∈ zonas ∨ z = "ZEOT2" ∨ z = "MUQ3" ∨ z = "EU1" ∨ z = "SEMIEIXO")
  ∧ (Regra.tipo_regra r = "SEM_ZONEAMENTO" ↔ zonas = [])
  ∧ (zonas = [] → Regra.zona_principal r = None ∧ Regra.zonas_consideradas r = []).
Proof.
  cbv zeta. destruct (Regra.vazia (PyStr.sorted_set zonas)) eqn:Hv.
  { pose proof Hv as ->%sorted_set_vazio.
    unfold Regra.aplicar_regra_sobreposicao. rewrite Hv. cbn.
    split; [constructor|]. split; [constructor|]. split; [done|].
    split; [by intros z []%elem_of_nil|]. done. }
  assert (zonas ≠ []) as Hne by (intros ->; by cbn in Hv).
  destruct n10.
  { destruct (nota10_vem_primeiro zonas areas testadas n37 Hne) as (Hp & Ht & _ & Hc).
    unfold Regra.aplicar_regra_sobreposicao in *. rewrite Hv in *.
    cbn [Regra.zonas_consideradas Regra.tipo_regra Regra.zona_principal] in *.
    split; [apply sorted_set_sorted|]. split; [apply sorted_set_NoDup|].
    split; [intros z Hz; apply Hc; by left|].
    split; [intros z [?|?]%Hc; tauto|]. split; [done|]. done. }
  destruct (n37 || Regra.acesso_lucio_deduzido testadas) eqn:Hl.
  { unfold Regra.aplicar_regra_sobreposicao. rewrite Hv, Hl.
    cbn [Regra.zonas_consideradas Regra.tipo_regra Regra.zona_principal].
    assert (∀ z, z ∈ PyStr.sorted_set (PyStr.sorted_set zonas ++ ["MUQ3"])
                 ↔ z ∈ zonas ∨ z = "MUQ3") as Hc.
    { intros z. by rewrite elem_of_sorted_set, elem_of_app, elem_of_sorted_set,
        list_elem_of_singleton. }
    split; [apply sorted_set_sorted|]. split; [apply sorted_set_NoDup|].
    split; [intros z Hz; apply Hc; by left|].
    split; [intros z [?|?]%Hc; tauto|]. split; [done|]. done. }
  apply orb_false_elim in Hl as [-> Hl].
  destruct (regra_sem_notas_consideradas zonas areas testadas Hv Hl) as (-> & Ht & _).
  split; [apply zonas_da_regra_sorted|]. split; [apply zonas_da_regra_NoDup|].
  split; [intros z Hz; apply elem_of_zonas_da_regra; by left|].
  split; [|done].
  intros z [?|[-> | ->]%deduzidas_eixo]%elem_of_zonas_da_regra; tauto.
Qed.

(** ** The first of the greatest *)

Lemma primeiro_maior_existe {A} (key : A → Q) (l : list A) :
  l ≠ [] → ∃ x, primeiro_maior key l x.
Proof.
  induction l as [|a l IH]; [done|]. intros _.
  destruct l as [|b l'].
  { exists a, [], []. split; [done|]. split; by intros y []%elem_of_nil. }
  destruct IH as (x & pre & post & E & Hpre & Hpost); [done|]. rewrite E.
  destruct (Qlt_le_dec (key a) (key x)) as [Hlt|Hle].
  - exists x, (a :: pre), post. split; [done|]. split; [|done].
    intros y [->|Hy]%elem_of_cons; [done|by apply Hpre].
  - exists a, [], (pre ++ x :: post). split; [done|].
    split; [by intros y []%elem_of_nil|].
    intros y [Hy|[->|Hy]%elem_of_cons]%elem_of_app.
    + apply Qlt_le_weak. eapply Qlt_le_trans; [by apply Hpre|done].
    + done.
    + eapply Qle_trans; [by apply Hpost|done].
Qed.

Lemma primeiro_maior_elem {A} (key : A → Q) (l : list A) x :
  primeiro_maior key l x → x ∈ l ∧ ∀ y, y ∈ l → (key y <= key x)%Q.
Proof.
  intros (pre & post & -> & Hpre & Hpost). split.
  - apply elem_of_app. right. by left.
  - intros y [Hy|[->|Hy]%elem_of_cons]%elem_of_app.
    + by apply Qlt_le_weak, Hpre.
    + apply Qle_refl.
    + by apply Hpost.
Qed.

Lemma zona_maior_area_maxima areas l :
  l ≠ [] → (∀ z, z ∈ l → (0 <= default 0%Q (areas !! z))%Q) →
  ∃ x, Regra._zona_maior_area areas l = Some x
       ∧ primeiro_maior (λ z, default 0%Q (areas !! z)) l x.
Proof.
  intros Hne Hpos.
  destruct (primeiro_maior_existe (λ z, default 0%Q (areas !! z)) l Hne) as [x Hx].
  exists x. split; [|done]. apply zona_maior_area_primeiro_maior; [|done].
  destruct (primeiro_maior_elem _ _ _ Hx) as [Hin _].
  eapply Qlt_le_trans; [|by apply Hpos]. reflexivity.
Qed.

Lemma em_com_categoria cat zs z :
  z ∈ Regra.com_categoria cat zs ↔ z ∈ zs ∧ Regra._classificar_zona z = cat.
Proof. unfold Regra.com_categoria. by rewrite elem_of_lfilter, eqb_cat. Qed.

(** X13: an axis prevails over an ordinary macro zone. With no note in
    force, no special zone among the zones the rulebook classifies, at
    least one axis and at least one macro zone outside the coexistence set,
    the rule is EIXO_SOBRE_MACRO and the reference zone is an axis: the one
    of greatest area, the first in code order among axes of equal area
    (areas being non-negative). *)
Theorem eixo_prevalece_sobre_macrozona (zonas : list string) (areas testadas : gmap string Q)
  (e m : string) :
  zonas ≠ [] →
  Regra.acesso_lucio_deduzido testadas = false →
  (∀ z, z ∈ zonas_da_regra zonas testadas → Regra._classificar_zona z ≠ "ESPECIAL") →
  e ∈ zonas_da_regra zonas testadas → Regra._classificar_zona e = "EIXO" →
  m ∈ zonas_da_regra zonas testadas → Regra._classificar_zona m = "MACRO" →
  m ∉ Regra.MACROZONAS_COEXISTENTES →
  (∀ z, z ∈ zonas_da_regra zonas testadas → (0 <= default 0%Q (areas !! z))%Q) →
  let r := Regra.aplicar_regra_sobreposicao zonas areas testadas false false in
  Regra.tipo_regra r = "EIXO_SOBRE_MACRO"
  ∧ ∃ z, Regra.zona_principal r = Some z
         ∧ Regra._classificar_zona z = "EIXO"
         ∧ primeiro_maior (λ z, default 0%Q (areas !! z))
             (Regra.com_categoria "EIXO" (zonas_da_regra zonas testadas)) z.
Proof.
  intros Hne Hl Hesp He Hce Hm Hcm Hfix Hpos. cbv zeta.
  unfold Regra.aplicar_regra_sobreposicao.
  rewrite sorted_set_nao_vazio, Hl by done. cbn [orb].
  fold (zonas_da_regra zonas testadas). set (zu := zonas_da_regra zonas testadas) in *.
  cbv zeta.
  assert (Regra.com_categoria "ESPECIAL" zu = []) as ->.
  { apply lfilter_nenhum. intros z Hz. apply not_true_iff_false. rewrite eqb_cat.
    by apply Hesp. }
  assert (e ∈ Regra.com_categoria "EIXO" zu) as Heixo by by apply em_com_categoria.
  rewrite (vazia_false _ _ Heixo).
  assert (Regra.vazia
            (List.filter (λ z, negb (pertence z Regra.MACROZONAS_COEXISTENTES))
               (Regra.com_categoria "MACRO" zu)) = false) as ->.
  { apply (vazia_false _ m), elem_of_lfilter. split; [by apply em_com_categoria|].
    unfold pertence. by rewrite bool_decide_eq_false_2. }
  cbn [Regra.vazia negb andb Regra.tipo_regra Regra.zona_principal]. split; [done|].
  destruct (zona_maior_area_maxima areas (Regra.com_categoria "EIXO" zu)) as (x & Hx & Hmax).
  { intros E. rewrite E in Heixo. by apply elem_of_nil in Heixo. }
  { intros z [Hz _]%em_com_categoria. by apply Hpos. }
  exists x. split; [done|]. split; [|done].
  destruct (primeiro_maior_elem _ _ _ Hmax) as [Hin _].
  by apply em_com_categoria in Hin as [_ ?].
Qed.

Lemma eixo_prevalece_sobre_macrozona_witness :
  Regra.tipo_regra
    (Regra.aplicar_regra_sobreposicao ["EU2"; "MUQ2"]
       (<["EU2" := 100%Q]> (<["MUQ2" := 400%Q]> ∅)) ∅ false false)
  = "EIXO_SOBRE_MACRO".
Proof.
  assert (zonas_da_regra ["EU2"; "MUQ2"] ∅ = ["EU2"; "MUQ2"]) as Hzu
    by (vm_compute; reflexivity).
  destruct (eixo_prevalece_sobre_macrozona ["EU2"; "MUQ2"]
              (<["EU2" := 100%Q]> (<["MUQ2" := 400%Q]> ∅)) ∅ "EU2" "MUQ2") as [H _].
  - discriminate.
  - vm_compute. reflexivity.
  - rewrite Hzu. intros z Hz. apply list_elem_of_In in Hz.
    destruct Hz as [<-|[<-|[]]]; vm_compute; discriminate.
  - rewrite Hzu. apply (bool_decide_unpack _). vm_compute. exact I.
  - vm_compute. reflexivity.
  - rewrite Hzu. apply (bool_decide_unpack _). vm_compute. exact I.
  - vm_compute. reflexivity.
  - apply (bool_decide_unpack _). vm_compute. exact I.
  - rewrite Hzu. intros z Hz. apply list_elem_of_In in Hz.
    destruct Hz as [<-|[<-|[]]]; vm_compute; discriminate.
  - exact H.
Defined.

(** X14: a frontage on a street of the axis tables makes its zone an axis
    of the parcel. With no note in force and some zone incident, if the
    parcel fronts a street to which the tables give a zone, then that zone
    is EU1 or SEMIEIXO, it is classified as an axis (also SEMIEIXO: its code
    has EIXO in it, which the classifier tests before the prefix SEMI), and
    it is among the zones considered and among the axes reported. *)
Theorem logradouro_de_eixo_entra_como_eixo (zonas : list string)
  (areas testadas : gmap string Q) (nome z : string) :
  zonas ≠ [] →
  Regra.acesso_lucio_deduzido testadas = false →
  is_Some (testadas !! nome) →
  Regra._zona_por_logradouro nome = Some z →
  let r := Regra.aplicar_regra_sobreposicao zonas areas testadas false false in
  (z = "EU1" ∨ z = "SEMIEIXO")
  ∧ Regra._classificar_zona z = "EIXO"
  ∧ z ∈ Regra.zonas_consideradas r
  ∧ z ∈ Regra.zonas_eixo r.
Proof.
  intros Hne Hl Hin Hz. cbv zeta.
  pose proof (deduzida_da_via _ _ _ Hin Hz) as Hd.
  pose proof (deduzidas_sao_eixo _ _ Hd) as Hc.
  assert (z ∈ zonas_da_regra zonas testadas) as Hzu
    by (apply elem_of_zonas_da_regra; by right).
  assert (z ∈ Regra.com_categoria "EIXO" (zonas_da_regra zonas testadas)) as He
    by by apply em_com_categoria.
  destruct (regra_sem_notas_consideradas zonas areas testadas) as (Hcons & _ & Heix);
    [by apply sorted_set_nao_vazio|done|].
  rewrite Hcons, Heix.
  - split; [by eapply zona_por_logradouro_eixo|]. done.
  - intros E. rewrite E in He. by apply elem_of_nil in He.
Qed.

Lemma logradouro_de_eixo_entra_como_eixo_witness :
  "SEMIEIXO" ∈ Regra.zonas_eixo
                 (Regra.aplicar_regra_sobreposicao ["MUQ2"] {["MUQ2" := 500%Q]}
                    {["Rua São Paulo" := 15%Q]} false false).
Proof.
  destruct (logradouro_de_eixo_entra_como_eixo ["MUQ2"] {["MUQ2" := 500%Q]}
              {["Rua São Paulo" := 15%Q]} "Rua São Paulo" "SEMIEIXO")
    as (_ & _ & _ & H).
  - discriminate.
  - vm_compute. reflexivity.
  - by eexists.
  - vm_compute. reflexivity.
  - exact H.
Defined.

(** ** The resolver of the engine *)

Lemma maior_area_some (l : list Resolvedor.ZonaAplicada) :
  Regra.vazia l = false → is_Some (Resolvedor.maior_area l).
Proof. destruct l as [|x l]; [done|]. intros _. cbn. by eexists. Qed.

Lemma maior_area_none (l : list Resolvedor.ZonaAplicada) :
  Regra.vazia l = true → Resolvedor.maior_area l = None.
Proof. by destruct l. Qed.

Lemma nao_vazias_elem (zonas : list string) z :
  z ∈ Resolvedor.nao_vazias zonas ↔ z ∈ zonas ∧ z ≠ "".
Proof. unfold Resolvedor.nao_vazias. by rewrite elem_of_lfilter, truthy_nao_vazio. Qed.

Lemma nao_vazias_tem (zonas : list string) :
  Regra.vazia (Resolvedor.nao_vazias zonas) = false ↔ ∃ z, z ∈ zonas ∧ z ≠ "".
Proof.
  split.
  - destruct (Resolvedor.nao_vazias zonas) as [|z l] eqn:E; [done|]. intros _.
    exists z. apply nao_vazias_elem. rewrite E. by left.
  - intros (z & Hz). apply (vazia_false _ z). by apply nao_vazias_elem.
Qed.

Lemma elem_of_zonas_ordenadas zonas res_zon n10 n37 z :
  z ∈ zonas_ordenadas zonas res_zon n10 n37 ↔
  (z ∈ zonas ∧ z ≠ "")
  ∨ (z ∈ rz_eixos res_zon ∧ z ≠ "")
  ∨ (z ∈ rz_especiais res_zon ∧ z ≠ "")
  ∨ (n10 = true ∧ z = "ZEOT2") ∨ (n37 = true ∧ z = "MUQ3").
Proof.
  unfold zonas_ordenadas.
  by rewrite elem_of_sorted_gset, elem_of_zonas_set, !nao_vazias_elem.
Qed.

Lemma info_vazia {A B} (f : A → B) (l : list A) :
  Regra.vazia (f <$> l) = Regra.vazia l.
Proof. by destruct l. Qed.

Lemma ordenadas_nao_vazias zonas res_zon n10 n37 :
  Regra.vazia (Resolvedor.nao_vazias zonas) = false →
  Regra.vazia (zonas_ordenadas zonas res_zon n10 n37) = false.
Proof.
  intros (z & Hz)%nao_vazias_tem. apply (vazia_false _ z).
  apply elem_of_zonas_ordenadas. by left.
Qed.

(** The rule label at the end of [_resolver_sobreposicoes], from the
    flags and the tests the steps make. *)
Ltac abstrair_resolvedor info :=
  pose proof (maior_area_some (Resolvedor.do_tipo "ESPECIAL" info)) as Fe;
  pose proof (maior_area_none (Resolvedor.do_tipo "ESPECIAL" info)) as Fe';
  pose proof (maior_area_some (Resolvedor.do_tipo "EIXO" info)) as Fx;
  pose proof (maior_area_none (Resolvedor.do_tipo "EIXO" info)) as Fx';
  revert Fe Fe' Fx Fx';
  generalize (Resolvedor.maior_area (Resolvedor.do_tipo "ESPECIAL" info));
  generalize (Regra.vazia (Resolvedor.do_tipo "ESPECIAL" info));
  generalize (Resolvedor.maior_area (Resolvedor.do_tipo "EIXO" info));
  generalize (Regra.vazia (Resolvedor.do_tipo "EIXO" info));
  generalize (Regra.vazia (Resolvedor.do_tipo "MACRO" info));
  generalize (1 <? length (Resolvedor.do_tipo "ORDINARIA" info))%nat;
  generalize (1 <? length (List.filter
                             (λ z, Resolvedor._eh_macro_coexistencia (Resolvedor.za_codigo z))
                             info))%nat;
  intros b_var b_ord vm vx mx ve me Fe Fe' Fx Fx'.

Lemma candidatos_tem_maior (info : list Resolvedor.ZonaAplicada) :
  Regra.vazia info = false →
  is_Some (Resolvedor.maior_area
             (if Regra.vazia (List.filter
                                (λ z, negb (Resolvedor.za_tipo z =? "AMBIENTAL")) info)
              then info
              else List.filter (λ z, negb (Resolvedor.za_tipo z =? "AMBIENTAL")) info)).
Proof.
  intros H. destruct (Regra.vazia (List.filter _ info)) eqn:E; by apply maior_area_some.
Qed.

(** The reference zone [_resolver_sobreposicoes] returns, in terms of the
    zones it lists. *)
Lemma referencia_explicita zonas areas res_zon n10 n37 :
  Regra.vazia (Resolvedor.nao_vazias zonas) = false →
  let s := Resolvedor._resolver_sobreposicoes zonas areas res_zon n10 n37 in
  let info := Resolvedor.s_zonas_aplicadas s in
  Resolvedor.s_zona_referencia s
  = if n10 then Some "ZEOT2"
    else if n37 then Some "MUQ3"
    else match Resolvedor.maior_area (Resolvedor.do_tipo "ESPECIAL" info) with
         | Some z => Some z
         | None =>
             match Resolvedor.maior_area (Resolvedor.do_tipo "EIXO" info) with
             | Some z => Some z
             | None =>
                 Resolvedor.maior_area
                   (if Regra.vazia
                         (List.filter (λ z, negb (Resolvedor.za_tipo z =? "AMBIENTAL")) info)
                    then info
                    else List.filter (λ z, negb (Resolvedor.za_tipo z =? "AMBIENTAL")) info)
             end
         end.
Proof.
  intros Hv. cbv zeta. unfold Resolvedor._resolver_sobreposicoes. rewrite Hv.
  cbn [Resolvedor.s_zona_referencia Resolvedor.s_zonas_aplicadas]. cbv zeta.
  destruct n10; [done|]. destruct n37; [done|].
  destruct (Resolvedor.maior_area (Resolvedor.do_tipo "ESPECIAL" _)); [done|].
  by destruct (Resolvedor.maior_area (Resolvedor.do_tipo "EIXO" _)).
Qed.

Lemma aplicadas_info zonas areas res_zon n10 n37 :
  Regra.vazia (Resolvedor.nao_vazias zonas) = false →
  ∃ total notas,
    Resolvedor.s_zonas_aplicadas
      (Resolvedor._resolver_sobreposicoes zonas areas res_zon n10 n37)
    = Resolvedor.info_zona areas total notas <$> zonas_ordenadas zonas res_zon n10 n37
    ∧ total = Qsum (Resolvedor.area_de areas <$> zonas_ordenadas zonas res_zon n10 n37)
    ∧ notas = (if n10 then ["10"] else []) ++ (if n37 then ["37"] else [])
    ∧ Resolvedor.s_notas_ativas
        (Resolvedor._resolver_sobreposicoes zonas areas res_zon n10 n37) = notas.
Proof.
  intros Hv. unfold Resolvedor._resolver_sobreposicoes. rewrite Hv.
  cbn [Resolvedor.s_zonas_aplicadas Resolvedor.s_notas_ativas]. eexists _, _.
  split; [reflexivity|]. done.
Qed.

(** The rule label [_resolver_sobreposicoes] returns. *)
Lemma rotulo_do_resolvedor zonas areas res_zon n10 n37 :
  Regra.vazia (Resolvedor.nao_vazias zonas) = false →
  let s := Resolvedor._resolver_sobreposicoes zonas areas res_zon n10 n37 in
  let info := Resolvedor.s_zonas_aplicadas s in
  Resolvedor.s_tipo_regra s ≠ "COEXISTENCIA_SIMPLES"
  ∧ Resolvedor.s_tipo_regra s ≠ "SEM_ZONEAMENTO"
  ∧ (n10 = true →
     Resolvedor.s_tipo_regra s = if n37 then "NOTAS_10_E_37" else "NOTA_10_ZEOT2")
  ∧ (n10 = false → n37 = true → Resolvedor.s_tipo_regra s = "NOTA_37_MUQ3")
  ∧ (n10 = false → n37 = false →
     Regra.vazia (Resolvedor.do_tipo "ESPECIAL" info) = false →
     Resolvedor.s_tipo_regra s = "ESPECIAL_PREDOMINANTE").
Proof.
  intros Hv. cbv zeta. unfold Resolvedor._resolver_sobreposicoes. rewrite Hv.
  cbn [Resolvedor.s_tipo_regra Resolvedor.s_zonas_aplicadas]. cbv zeta.
  fold (zonas_ordenadas zonas res_zon n10 n37).
  set (total := Qsum _).
  set (info := Resolvedor.info_zona _ _ _ <$> zonas_ordenadas zonas res_zon n10 n37).
  assert (Regra.vazia info = false) as Hi.
  { unfold info. rewrite info_vazia. by apply ordenadas_nao_vazias. }
  pose proof (candidatos_tem_maior info Hi) as Fc. revert Fc.
  generalize (Resolvedor.maior_area
                (if Regra.vazia (List.filter
                                   (λ z, negb (Resolvedor.za_tipo z =? "AMBIENTAL")) info)
                 then info
                 else List.filter (λ z, negb (Resolvedor.za_tipo z =? "AMBIENTAL")) info)).
  intros mc Fc.
  generalize (Resolvedor.ordinarias_equivalentes (Resolvedor.do_tipo "ORDINARIA" info) total).
  intros b_eq.
  abstrair_resolvedor info. clearbody info total. clear Hi Hv.
  destruct mc as [c|]; [|by destruct Fc]. clear Fc.
  destruct n10, n37; cbn; rewrite ?andb_false_r; cbn; [done|done|done|].
  destruct ve.
  - rewrite Fe' by done. clear Fe Fe'. cbn. destruct vx.
    + rewrite Fx' by done. clear Fx Fx'. cbn.
      destruct b_var, vm, b_ord, b_eq; cbn; done.
    + destruct mx as [x|]; [|by destruct Fx]. clear Fx Fx'. cbn.
      destruct b_var; cbn; done.
  - destruct me as [e|]; [|by destruct Fe]. clear Fe Fe'. cbn.
    rewrite ?andb_false_r. cbn. destruct b_var; cbn; rewrite ?andb_false_r; cbn; done.
Qed.

Lemma sobreposicoes_sem_zona zonas areas res_zon n10 n37 :
  Regra.vazia (Resolvedor.nao_vazias zonas) = true →
  Resolvedor._resolver_sobreposicoes zonas areas res_zon n10 n37
  = {| Resolvedor.s_zonas_aplicadas := []; Resolvedor.s_notas_ativas := [];
       Resolvedor.s_tipo_regra := "SEM_ZONEAMENTO";
       Resolvedor.s_resumo := Resolvedor.resumo_sem_zoneamento;
       Resolvedor.s_observacoes := []; Resolvedor.s_zona_referencia := None |}.
Proof. intros Hv. unfold Resolvedor._resolver_sobreposicoes. by rewrite Hv. Qed.

Lemma referencia_definida zonas areas res_zon n10 n37 :
  Regra.vazia (Resolvedor.nao_vazias zonas) = false →
  is_Some (Resolvedor.s_zona_referencia
             (Resolvedor._resolver_sobreposicoes zonas areas res_zon n10 n37)).
Proof.
  intros Hv. rewrite referencia_explicita by done. cbv zeta.
  destruct n10; [by eexists|]. destruct n37; [by eexists|].
  destruct (Resolvedor.maior_area (Resolvedor.do_tipo "ESPECIAL" _)); [by eexists|].
  destruct (Resolvedor.maior_area (Resolvedor.do_tipo "EIXO" _)); [by eexists|].
  apply candidatos_tem_maior.
  destruct (aplicadas_info zonas areas res_zon false false Hv) as (total & notas & -> & _).
  rewrite info_vazia. by apply ordenadas_nao_vazias.
Qed.

(** X15: the rule core of the resolver chooses a reference zone exactly
    when some incident zone code is not empty. With no such zone the result
    is SEM_ZONEAMENTO with no zone applied and no note active, even when the
    flags of Notes 10 and 37 are set; with one, a reference zone is always
    chosen and the label is never SEM_ZONEAMENTO nor the initial
    COEXISTENCIA_SIMPLES, which no result carries. *)
Theorem referencia_sse_ha_zona (zonas : list string) (areas : gmap string Q)
  (res_zon : ResultadoZoneamento) (n10 n37 : bool) :
  let s := Resolvedor._resolver_sobreposicoes zonas areas res_zon n10 n37 in
  (is_Some (Resolvedor.s_zona_referencia s) ↔ ∃ z, z ∈ zonas ∧ z ≠ "")
  ∧ (Resolvedor.s_tipo_regra s = "SEM_ZONEAMENTO" ↔ ¬ ∃ z, z ∈ zonas ∧ z ≠ "")
  ∧ Resolvedor.s_tipo_regra s ≠ "COEXISTENCIA_SIMPLES"
  ∧ ((¬ ∃ z, z ∈ zonas ∧ z ≠ "") →
     Resolvedor.s_zonas_aplicadas s = [] ∧ Resolvedor.s_notas_ativas s = []).
Proof.
  cbv zeta. destruct (Regra.vazia (Resolvedor.nao_vazias zonas)) eqn:Hv.
  - assert (¬ ∃ z, z ∈ zonas ∧ z ≠ "") as Hn.
    { intros H%nao_vazias_tem. congruence. }
    rewrite sobreposicoes_sem_zona by done. cbn.
    split; [split; [by intros [? [=]]|done]|]. done.
  - pose proof Hv as Hz%nao_vazias_tem.
    destruct (rotulo_do_resolvedor zonas areas res_zon n10 n37 Hv) as (H1 & H2 & _).
    split; [split; [done|intros _; by apply referencia_definida]|].
    split; [split; [done|by intros []]|]. split; [done|]. by intros [].
Qed.

(** ** The zones applied *)

Lemma em_aplicadas zonas areas res_zon n10 n37 za :
  Regra.vazia (Resolvedor.nao_vazias zonas) = false →
  za ∈ Resolvedor.s_zonas_aplicadas
         (Resolvedor._resolver_sobreposicoes zonas areas res_zon n10 n37) →
  ∃ total notas z,
    z ∈ zonas_ordenadas zonas res_zon n10 n37
    ∧ za = Resolvedor.info_zona areas total notas z
    ∧ notas = (if n10 then ["10"] else []) ++ (if n37 then ["37"] else []).
Proof.
  intros Hv Hza.
  destruct (aplicadas_info zonas areas res_zon n10 n37 Hv) as (total & notas & E & _ & Hn & _).
  rewrite E in Hza. apply list_elem_of_fmap in Hza as (z & -> & Hz). by exists total, notas, z.
Qed.

Lemma maior_area_info areas total notas (zs : list string) z :
  Resolvedor.maior_area (Resolvedor.info_zona areas total notas <$> zs) = Some z → z ∈ zs.
Proof. intros H%maior_area_in. by rewrite codigos_info in H. Qed.

Lemma classe_da_maior areas total notas (zs : list string) t z :
  Resolvedor.maior_area
    (Resolvedor.do_tipo t (Resolvedor.info_zona areas total notas <$> zs)) = Some z →
  z ∈ zs ∧ Resolvedor._classificar_zona z = t.
Proof.
  rewrite do_tipo_info. intros [Hz Ht]%maior_area_info%elem_of_lfilter.
  split; [done|]. by apply String.eqb_eq.
Qed.

Lemma sem_maior_sem_classe areas total notas (zs : list string) t z :
  Resolvedor.maior_area
    (Resolvedor.do_tipo t (Resolvedor.info_zona areas total notas <$> zs)) = None →
  z ∈ zs → Resolvedor._classificar_zona z ≠ t.
Proof.
  rewrite do_tipo_info. intros Hn Hz Ht.
  destruct (maior_area_some
              (Resolvedor.info_zona areas total notas
                 <$> List.filter (λ z, Resolvedor._classificar_zona z =? t) zs)) as [? E];
    [|congruence].
  rewrite info_vazia. apply (vazia_false _ z), elem_of_lfilter. split; [done|].
  by apply String.eqb_eq.
Qed.

Lemma nao_ambientais_info areas total notas (zs : list string) :
  List.filter (λ z, negb (Resolvedor.za_tipo z =? "AMBIENTAL"))
    (Resolvedor.info_zona areas total notas <$> zs)
  = Resolvedor.info_zona areas total notas
      <$> List.filter (λ z, negb (Resolvedor._classificar_zona z =? "AMBIENTAL")) zs.
Proof.
  induction zs as [|z zs IH]; [done|]. cbn [fmap list_fmap List.filter].
  cbn [Resolvedor.za_tipo Resolvedor.info_zona].
  destruct (negb _); cbn [fmap list_fmap]; by rewrite <- IH.
Qed.

(** X16: with no note in force, the reference zone follows a fixed
    hierarchy over the zones the resolver lists: it is a special zone
    whenever one is listed; otherwise an axis whenever one is listed; and it
    is an environmental macro zone only when every listed zone is one. *)
Theorem hierarquia_da_referencia (zonas : list string) (areas : gmap string Q)
  (res_zon : ResultadoZoneamento) (z : string) :
  let s := Resolvedor._resolver_sobreposicoes zonas areas res_zon false false in
  let listadas := zonas_ordenadas zonas res_zon false false in
  Resolvedor.s_zona_referencia s = Some z →
  z ∈ listadas
  ∧ ((∃ e, e ∈ listadas ∧ Resolvedor._classificar_zona e = "ESPECIAL") →
     Resolvedor._classificar_zona z = "ESPECIAL")
  ∧ ((∀ e, e ∈ listadas → Resolvedor._classificar_zona e ≠ "ESPECIAL") →
     (∃ x, x ∈ listadas ∧ Resolvedor._classificar_zona x = "EIXO") →
     Resolvedor._classificar_zona z = "EIXO")
  ∧ ((∃ y, y ∈ listadas ∧ Resolvedor._classificar_zona y ≠ "AMBIENTAL") →
     Resolvedor._classificar_zona z ≠ "AMBIENTAL").
Proof.
  cbv zeta. destruct (Regra.vazia (Resolvedor.nao_vazias zonas)) eqn:Hv.
  { by rewrite sobreposicoes_sem_zona. }
  rewrite referencia_explicita by done. cbv zeta.
  destruct (aplicadas_info zonas areas res_zon false false Hv) as (total & notas & -> & _).
  set (zo := zonas_ordenadas zonas res_zon false false).
  destruct (Resolvedor.maior_area (Resolvedor.do_tipo "ESPECIAL" _)) as [e|] eqn:Ee.
  { intros [= ->]. apply classe_da_maior in Ee as [Hz Hc]. split; [done|].
    split; [done|]. split; [intros Hn; by destruct (Hn z Hz)|].
    intros _. by rewrite Hc. }
  destruct (Resolvedor.maior_area (Resolvedor.do_tipo "EIXO" _)) as [x|] eqn:Ex.
  { intros [= ->]. apply classe_da_maior in Ex as [Hz Hc]. split; [done|].
    split; [intros (e & He & Hce); by destruct (sem_maior_sem_classe _ _ _ _ _ e Ee He)|].
    split; [done|]. intros _. by rewrite Hc. }
  rewrite nao_ambientais_info, info_vazia.
  destruct (Regra.vazia (List.filter _ zo)) eqn:Ea.
  - intros Hz%maior_area_info. split; [done|].
    split; [intros (e & He & Hce); by destruct (sem_maior_sem_classe _ _ _ _ _ e Ee He)|].
    split; [intros _ (x & Hx & Hcx); by destruct (sem_maior_sem_classe _ _ _ _ _ x Ex Hx)|].
    intros (y & Hy & Hcy). apply vazia_nil in Ea.
    assert (y ∈ List.filter
                  (λ z, negb (Resolvedor._classificar_zona z =? "AMBIENTAL")) zo) as Hin.
    { apply elem_of_lfilter. split; [done|]. apply negb_true_iff.
      apply not_true_iff_false. by rewrite String.eqb_eq. }
    rewrite Ea in Hin. by apply elem_of_nil in Hin.
  - intros [Hz Hc]%maior_area_info%elem_of_lfilter. split; [done|].
    split; [intros (e & He & Hce); by destruct (sem_maior_sem_classe _ _ _ _ _ e Ee He)|].
    split; [intros _ (x & Hx & Hcx); by destruct (sem_maior_sem_classe _ _ _ _ _ x Ex Hx)|].
    intros _. apply negb_true_iff in Hc. apply not_true_iff_false in Hc.
    by rewrite String.eqb_eq in Hc.
Qed.

Lemma hierarquia_da_referencia_witness :
  Resolvedor._classificar_zona "EU1" = "EIXO"
  ∧ Resolvedor._classificar_zona "EU1" ≠ "AMBIENTAL".
Proof.
  destruct (hierarquia_da_referencia ["MUPA1"; "EU1"; "MUQ2"]
              (<["MUPA1" := 900%Q]> (<["EU1" := 10%Q]> (<["MUQ2" := 90%Q]> ∅)))
              Exemplo.res_zon_vazio "EU1") as (_ & _ & H3 & H4).
  - vm_compute. reflexivity.
  - split.
    + apply H3.
      * intros e He. apply elem_of_zonas_ordenadas in He.
        destruct He as [[He _]|[[He _]|[[He _]|[[[=] _]|[[=] _]]]]];
          [|by apply elem_of_nil in He|by apply elem_of_nil in He].
        apply list_elem_of_In in He. destruct He as [<-|[<-|[<-|[]]]]; vm_compute; discriminate.
      * exists "EU1". split; [|vm_compute; reflexivity].
        apply (bool_decide_unpack _). vm_compute. exact I.
    + apply H4. exists "EU1". split; [|vm_compute; discriminate].
      apply (bool_decide_unpack _). vm_compute. exact I.
Defined.

(** ** Notes 10 and 37 in the resolver *)

Lemma pertence_notas (n10 n37 : bool) :
  pertence "10" ((if n10 then ["10"] else []) ++ (if n37 then ["37"] else [])) = n10
  ∧ pertence "37" ((if n10 then ["10"] else []) ++ (if n37 then ["37"] else [])) = n37.
Proof. by destruct n10, n37. Qed.

(** X17: the notes in the resolver. When some zone is incident, the active
    notes are those of the flags, in the order 10, 37; Note 10 makes ZEOT2
    the reference zone also when Note 37 is set with it, Note 37 alone makes
    MUQ3 the reference zone; the zone of an active note is always listed,
    and a listed zone has the origin NOTA10 or NOTA37 exactly when it is the
    zone of an active note (also when the parcel meets that zone), and the
    origin INTERSECCAO otherwise. *)
Theorem notas_no_resolvedor (zonas : list string) (areas : gmap string Q)
  (res_zon : ResultadoZoneamento) (n10 n37 : bool) :
  (∃ z, z ∈ zonas ∧ z ≠ "") →
  let s := Resolvedor._resolver_sobreposicoes zonas areas res_zon n10 n37 in
  Resolvedor.s_notas_ativas s = (if n10 then ["10"] else []) ++ (if n37 then ["37"] else [])
  ∧ (n10 = true →
     Resolvedor.s_zona_referencia s = Some "ZEOT2"
     ∧ Resolvedor.s_tipo_regra s = (if n37 then "NOTAS_10_E_37" else "NOTA_10_ZEOT2")
     ∧ "ZEOT2" ∈ Resolvedor.za_codigo <$> Resolvedor.s_zonas_aplicadas s)
  ∧ (n37 = true →
     Resolvedor.s_zona_referencia s = Some (if n10 then "ZEOT2" else "MUQ3")
     ∧ Resolvedor.s_tipo_regra s = (if n10 then "NOTAS_10_E_37" else "NOTA_37_MUQ3")
     ∧ "MUQ3" ∈ Resolvedor.za_codigo <$> Resolvedor.s_zonas_aplicadas s)
  ∧ (∀ za, za ∈ Resolvedor.s_zonas_aplicadas s →
       (Resolvedor.za_origem za = "NOTA10"
        ↔ Resolvedor.za_codigo za = "ZEOT2" ∧ n10 = true)
       ∧ (Resolvedor.za_origem za = "NOTA37"
          ↔ Resolvedor.za_codigo za = "MUQ3" ∧ n37 = true)
       ∧ (Resolvedor.za_origem za = "INTERSECCAO"
          ∨ Resolvedor.za_origem za = "NOTA10" ∨ Resolvedor.za_origem za = "NOTA37")).
Proof.
  intros Hv%nao_vazias_tem. cbv zeta.
  destruct (rotulo_do_resolvedor zonas areas res_zon n10 n37 Hv) as (_ & _ & T10 & T37 & _).
  pose proof (referencia_explicita zonas areas res_zon n10 n37 Hv) as R. cbv zeta in R.
  destruct (aplicadas_info zonas areas res_zon n10 n37 Hv) as (total & notas & E & _ & Hn & N).
  rewrite N, Hn. split; [done|].
  assert (Resolvedor.za_codigo <$>
            Resolvedor.s_zonas_aplicadas
              (Resolvedor._resolver_sobreposicoes zonas areas res_zon n10 n37)
          = zonas_ordenadas zonas res_zon n10 n37) as Hc by by apply sobreposicoes_codigos.
  rewrite Hc. split; [|split].
  - intros ->. rewrite R. split; [done|]. split; [by apply T10|].
    apply elem_of_zonas_ordenadas. tauto.
  - intros ->. rewrite R. destruct n10.
    + split; [done|]. split; [by apply T10|]. apply elem_of_zonas_ordenadas. tauto.
    + split; [done|]. split; [by apply T37|]. apply elem_of_zonas_ordenadas. tauto.
  - intros za Hza. rewrite E in Hza. apply list_elem_of_fmap in Hza as (z & -> & Hz).
    cbn [Resolvedor.za_origem Resolvedor.za_codigo Resolvedor.info_zona].
    subst notas. destruct (pertence_notas n10 n37) as [-> ->].
    destruct (String.eqb_spec z "MUQ3") as [E37|H37],
      (String.eqb_spec z "ZEOT2") as [E10|H10], n10, n37; cbn;
      intuition (try discriminate; try congruence).
Qed.

Lemma notas_no_resolvedor_witness :
  Resolvedor.s_zona_referencia
    (Resolvedor._resolver_sobreposicoes ["ZE1"; "MUQ2"] ∅ Exemplo.res_zon_vazio true true)
  = Some "ZEOT2".
Proof.
  destruct (notas_no_resolvedor ["ZE1"; "MUQ2"] ∅ Exemplo.res_zon_vazio true true)
    as (_ & H & _).
  - exists "ZE1". split; [|discriminate]. apply (bool_decide_unpack _). vm_compute. exact I.
  - destruct H as [H _]; [reflexivity|exact H].
Defined.

(** ** Areas and percentages of the zones applied *)



(** ** The list of the zones applied *)

Lemma zonas_ordenadas_NoDup zonas res_zon n10 n37 :
  NoDup (zonas_ordenadas zonas res_zon n10 n37).
Proof. unfold zonas_ordenadas. rewrite merge_sort_Permutation. apply NoDup_elements. Qed.

(** X19: no incident zone is dropped by the rule core, whatever zone is
    the reference. When some zone is incident, the zones applied are listed
    in ascending order of their codes, each once; they are exactly the
    incident codes that are not empty, the axes and special zones of the raw
    intersection that are not empty, and the zones of the active notes; each
    carries the class of its code and, at this stage, no parameters. *)
Theorem zonas_aplicadas_em_ordem (zonas : list string) (areas : gmap string Q)
  (res_zon : ResultadoZoneamento) (n10 n37 : bool) :
  (∃ z, z ∈ zonas ∧ z ≠ "") →
  let s := Resolvedor._resolver_sobreposicoes zonas areas res_zon n10 n37 in
  let codigos := Resolvedor.za_codigo <$> Resolvedor.s_zonas_aplicadas s in
  StronglySorted String.le codigos
  ∧ NoDup codigos
  ∧ (∀ z, z ∈ codigos ↔
          (z ∈ zonas ∧ z ≠ "")
          ∨ (z ∈ rz_eixos res_zon ∧ z ≠ "")
          ∨ (z ∈ rz_especiais res_zon ∧ z ≠ "")
          ∨ (n10 = true ∧ z = "ZEOT2") ∨ (n37 = true ∧ z = "MUQ3"))
  ∧ (∀ za, za ∈ Resolvedor.s_zonas_aplicadas s →
           Resolvedor.za_tipo za = Resolvedor._classificar_zona (Resolvedor.za_codigo za)
           ∧ Resolvedor.za_parametros za = None).
Proof.
  intros Hv%nao_vazias_tem. cbv zeta. rewrite sobreposicoes_codigos by done.
  split; [apply sorted_gset_sorted|]. split; [apply zonas_ordenadas_NoDup|].
  split; [apply elem_of_zonas_ordenadas|].
  intros za Hza. by destruct (em_aplicadas _ _ _ _ _ _ Hv Hza) as (total & notas & z & _ & -> & _).
Qed.

Lemma zonas_aplicadas_em_ordem_witness :
  let codigos :=
    Resolvedor.za_codigo
      <$> Resolvedor.s_zonas_aplicadas
            (Resolvedor._resolver_sobreposicoes ["MUQ2"; "EU1"; "MUPA1"; "MUQ2"] ∅
               Exemplo.res_zon_vazio false false) in
  StronglySorted String.le codigos ∧ NoDup codigos ∧ "MUPA1" ∈ codigos.
Proof.
  cbv zeta.
  destruct (zonas_aplicadas_em_ordem ["MUQ2"; "EU1"; "MUPA1"; "MUQ2"] ∅
              Exemplo.res_zon_vazio false false) as (H1 & H2 & H3 & _).
  - exists "MUQ2". split; [|discriminate]. apply (bool_decide_unpack _). vm_compute. exact I.
  - split; [exact H1|]. split; [exact H2|]. apply H3. left.
    split; [|discriminate]. apply (bool_decide_unpack _). vm_compute. exact I.
Defined.

(** ** What the resolver returns *)

Lemma sorted_set_id (l : list string) :
  StronglySorted String.le l → NoDup l → PyStr.sorted_set l = l.
Proof.
  intros Hs Hn. apply (StronglySorted_unique String.le); [apply sorted_set_sorted|done|].
  unfold PyStr.sorted_set. rewrite merge_sort_Permutation. by apply elements_list_to_set.
Qed.

Lemma resolver_inv tabela res_zon res_geom n10 n37 :
  ∃ inc ars,
    let s := Resolvedor._resolver_sobreposicoes inc ars res_zon n10 n37 in
    let aplicadas := Resolvedor.com_parametros tabela <$> Resolvedor.s_zonas_aplicadas s in
    Resolvedor.resolver tabela res_zon res_geom n10 n37
    = {| Resolvedor.zonas_aplicadas := aplicadas;
         Resolvedor.notas_ativas := Resolvedor.s_notas_ativas s;
         Resolvedor.tipo_regra := Resolvedor.s_tipo_regra s;
         Resolvedor.resumo := Resolvedor.s_resumo s;
         Resolvedor.observacoes := Resolvedor.s_observacoes s;
         Resolvedor.macrozona := rz_macrozona res_zon;
         Resolvedor.eixos := Resolvedor.za_codigo <$> Resolvedor.do_tipo "EIXO" aplicadas;
         Resolvedor.especiais :=
           Resolvedor.za_codigo <$> Resolvedor.do_tipo "ESPECIAL" aplicadas;
         Resolvedor.zona_principal := Resolvedor.s_zona_referencia s;
         Resolvedor.zonas_incidentes :=
           PyStr.sorted_set (Resolvedor.za_codigo <$> aplicadas);
         Resolvedor.parametros :=
           match Resolvedor.s_zona_referencia s with
           | Some z => if PyStr.truthy z then tabela !! z else None
           | None => None
           end;
         Resolvedor.motivo := "" |}
    ∧ (∀ z, z ∈ inc ↔ z ∈ zonas res_geom ∨ (rz_zona res_zon = Some z ∧ z ≠ ""))
    ∧ (∀ z, default 0%Q (ars !! z) = default 0%Q (areas_por_zona res_geom !! z)).
Proof.
  unfold Resolvedor.resolver. destruct (rz_zona res_zon) as [z0|] eqn:Ez.
  - destruct (PyStr.truthy z0 && negb (pertence z0 (zonas res_geom))) eqn:Eb.
    + apply andb_true_iff in Eb as [Ht Hp]. apply truthy_nao_vazio in Ht.
      eexists _, _. split; [reflexivity|]. split.
      * intros z. rewrite elem_of_app, list_elem_of_singleton. split.
        -- intros [?| ->]; [by left|by right].
        -- intros [?|[[= ->] _]]; [by left|by right].
      * intros z. destruct (areas_por_zona res_geom !! z0) eqn:Ea; [done|].
        destruct (decide (z0 = z)) as [->|Hne].
        -- by rewrite lookup_insert_eq, Ea.
        -- by rewrite lookup_insert_ne.
    + eexists _, _. split; [reflexivity|]. split; [|done].
      intros z. split; [by left|]. intros [?|[[= ->] Hz]]; [done|].
      apply truthy_nao_vazio in Hz. rewrite Hz in Eb. cbn in Eb.
      apply negb_false_iff in Eb. by apply bool_decide_eq_true in Eb.
  - eexists _, _. split; [reflexivity|]. split; [|done].
    intros z. split; [by left|]. by intros [?|[[=] _]].
Qed.

Lemma aplicadas_sempre_em_ordem zonas areas res_zon n10 n37 :
  let codigos :=
    Resolvedor.za_codigo
      <$> Resolvedor.s_zonas_aplicadas
            (Resolvedor._resolver_sobreposicoes zonas areas res_zon n10 n37) in
  StronglySorted String.le codigos ∧ NoDup codigos ∧ ∀ z, z ∈ codigos → z ≠ "".
Proof.
  cbv zeta. destruct (Regra.vazia (Resolvedor.nao_vazias zonas)) eqn:Hv.
  - rewrite sobreposicoes_sem_zona by done. cbn.
    split; [constructor|]. split; [constructor|]. by intros z []%elem_of_nil.
  - rewrite sobreposicoes_codigos by done.
    split; [apply sorted_gset_sorted|]. split; [apply zonas_ordenadas_NoDup|].
    intros z Hz%elem_of_zonas_ordenadas.
    destruct Hz as [[_ ?]|[[_ ?]|[[_ ?]|[[_ ->]|[_ ->]]]]]; done.
Qed.

Lemma do_tipo_com_parametros tabela t (l : list Resolvedor.ZonaAplicada) :
  Resolvedor.za_codigo <$> Resolvedor.do_tipo t (Resolvedor.com_parametros tabela <$> l)
  = List.filter (λ z, Resolvedor._classificar_zona z =? t)
      (Resolvedor.za_codigo <$> l)
  ∨ ¬ (∀ za, za ∈ l → Resolvedor.za_tipo za
                       = Resolvedor._classificar_zona (Resolvedor.za_codigo za)).
Proof.
  induction l as [|x l IH]; [by left|].
  destruct IH as [IH|Hn]; [|right; intros H; apply Hn; intros za Hza; apply H; by right].
  destruct (decide (Resolvedor.za_tipo x
                    = Resolvedor._classificar_zona (Resolvedor.za_codigo x))) as [Hx|Hx];
    [|right; intros H; apply Hx, H; by left].
  left. cbn [fmap list_fmap]. unfold Resolvedor.do_tipo in *. cbn [List.filter].
  assert (Resolvedor.za_tipo (Resolvedor.com_parametros tabela x) = Resolvedor.za_tipo x
          ∧ Resolvedor.za_codigo (Resolvedor.com_parametros tabela x)
            = Resolvedor.za_codigo x) as [-> Hc].
  { unfold Resolvedor.com_parametros. by destruct (tabela !! _). }
  rewrite Hx. destruct (_ =? t); cbn [fmap list_fmap]; by rewrite ?Hc, IH.
Qed.

Lemma tipos_das_aplicadas zonas areas res_zon n10 n37 za :
  za ∈ Resolvedor.s_zonas_aplicadas
         (Resolvedor._resolver_sobreposicoes zonas areas res_zon n10 n37) →
  Resolvedor.za_tipo za = Resolvedor._classificar_zona (Resolvedor.za_codigo za)
  ∧ Resolvedor.za_parametros za = None
  ∧ Resolvedor.za_area_m2 za = default 0%Q (areas !! Resolvedor.za_codigo za).
Proof.
  destruct (Regra.vazia (Resolvedor.nao_vazias zonas)) eqn:Hv.
  - rewrite sobreposicoes_sem_zona by done. by intros []%elem_of_nil.
  - intros Hza.
    by destruct (em_aplicadas _ _ _ _ _ _ Hv Hza) as (total & notas & z & _ & -> & _).
Qed.

(** X20: what the resolver returns around its rule core. Every zone
    applied carries the parameters the table has for its code, and none
    when the table has no entry for it; the parameters of the result are
    those the table has for the reference zone; the list of incident zones
    is the list of the codes of the zones applied (the sort and the removal
    of duplicates change nothing, the list being sorted and without
    repetition already); the axes and the special zones are the incident
    codes of those classes; the macro zone is that of the raw
    intersection. *)
Theorem resolver_anexa_parametros (tabela : gmap string ParametrosZona)
  (res_zon : ResultadoZoneamento) (res_geom : ResultadoZoneamentoGeom) (n10 n37 : bool) :
  let r := Resolvedor.resolver tabela res_zon res_geom n10 n37 in
  (∀ za, za ∈ Resolvedor.zonas_aplicadas r →
         Resolvedor.za_parametros za = tabela !! Resolvedor.za_codigo za)
  ∧ Resolvedor.parametros r = Resolvedor.zona_principal r ≫= (tabela !!.)
  ∧ Resolvedor.zonas_incidentes r = Resolvedor.za_codigo <$> Resolvedor.zonas_aplicadas r
  ∧ Resolvedor.eixos r
    = List.filter (λ z, Resolvedor._classificar_zona z =? "EIXO")
        (Resolvedor.zonas_incidentes r)
  ∧ Resolvedor.especiais r
    = List.filter (λ z, Resolvedor._classificar_zona z =? "ESPECIAL")
        (Resolvedor.zonas_incidentes r)
  ∧ Resolvedor.macrozona r = rz_macrozona res_zon.
Proof.
  cbv zeta.
  destruct (resolver_inv tabela res_zon res_geom n10 n37) as (inc & ars & -> & _ & _).
  cbn [Resolvedor.zonas_aplicadas Resolvedor.parametros Resolvedor.zona_principal
       Resolvedor.zonas_incidentes Resolvedor.eixos Resolvedor.especiais
       Resolvedor.macrozona].
  set (s := Resolvedor._resolver_sobreposicoes inc ars res_zon n10 n37).
  destruct (aplicadas_sempre_em_ordem inc ars res_zon n10 n37) as (Hs & Hn & Hne).
  fold s in Hs, Hn, Hne.
  rewrite codigos_com_parametros, sorted_set_id by done.
  split; [|split; [|split; [done|]]].
  - intros za (x & -> & Hx)%list_elem_of_fmap.
    destruct (tipos_das_aplicadas _ _ _ _ _ _ Hx) as (_ & Hp & _).
    unfold Resolvedor.com_parametros.
    by destruct (tabela !! Resolvedor.za_codigo x) eqn:E; cbn; rewrite ?E.
  - destruct (Resolvedor.s_zona_referencia s) as [z|] eqn:Ez; [|done]. cbn.
    assert (PyStr.truthy z = true) as ->; [|done].
    apply truthy_nao_vazio, Hne. by apply sobreposicoes_referencia_aplicada.
  - split; [|split; [|done]].
    + destruct (do_tipo_com_parametros tabela "EIXO" (Resolvedor.s_zonas_aplicadas s))
        as [->|Hn']; [done|].
      destruct Hn'. intros za Hza. by destruct (tipos_das_aplicadas _ _ _ _ _ _ Hza).
    + destruct (do_tipo_com_parametros tabela "ESPECIAL" (Resolvedor.s_zonas_aplicadas s))
        as [->|Hn']; [done|].
      destruct Hn'. intros za Hza. by destruct (tipos_das_aplicadas _ _ _ _ _ _ Hza).
Qed.

(** X21: the zone of the raw intersection is never lost. When the raw
    intersection names a zone, that zone is among the incident zones of the
    result, also when the decomposition by zone did not find it; it is
    applied with the area the decomposition recorded for it, zero when it
    recorded none; and the result then has a reference zone. *)
Theorem zona_bruta_entre_as_incidentes (tabela : gmap string ParametrosZona)
  (res_zon : ResultadoZoneamento) (res_geom : ResultadoZoneamentoGeom) (n10 n37 : bool)
  (z : string) :
  rz_zona res_zon = Some z → z ≠ "" →
  let r := Resolvedor.resolver tabela res_zon res_geom n10 n37 in
  z ∈ Resolvedor.zonas_incidentes r
  ∧ is_Some (Resolvedor.zona_principal r)
  ∧ ∃ za, za ∈ Resolvedor.zonas_aplicadas r
          ∧ Resolvedor.za_codigo za = z
          ∧ Resolvedor.za_area_m2 za = default 0%Q (areas_por_zona res_geom !! z).
Proof.
  intros Hz Hne. cbv zeta.
  destruct (resolver_inv tabela res_zon res_geom n10 n37) as (inc & ars & -> & Hinc & Hars).
  cbn [Resolvedor.zonas_aplicadas Resolvedor.zona_principal Resolvedor.zonas_incidentes].
  destruct (aplicadas_sempre_em_ordem inc ars res_zon n10 n37) as (Hs & Hn & _).
  rewrite codigos_com_parametros, sorted_set_id by done. clear Hs Hn.
  assert (Regra.vazia (Resolvedor.nao_vazias inc) = false) as Hv.
  { apply nao_vazias_tem. exists z. split; [|done]. apply Hinc. by right. }
  assert (z ∈ zonas_ordenadas inc res_zon n10 n37) as Hzo.
  { apply elem_of_zonas_ordenadas. left. split; [|done]. apply Hinc. by right. }
  rewrite sobreposicoes_codigos by done.
  split; [done|]. split; [by apply referencia_definida|].
  destruct (aplicadas_info inc ars res_zon n10 n37 Hv) as (total & notas & -> & _).
  exists (Resolvedor.com_parametros tabela (Resolvedor.info_zona ars total notas z)).
  split; [by apply list_elem_of_fmap_2, list_elem_of_fmap_2|].
  unfold Resolvedor.com_parametros. destruct (tabela !! _); cbn; by rewrite <- Hars.
Qed.

Lemma zona_bruta_entre_as_incidentes_witness :
  "ZE9" ∈ Resolvedor.zonas_incidentes
            (Resolvedor.resolver ∅
               {| rz_zona := Some "ZE9"; rz_macrozona := None; rz_eixos := [];
                  rz_especiais := []; rz_mensagens := [] |}
               ResultadoZoneamentoGeom_vazio false false).
Proof.
  destruct (zona_bruta_entre_as_incidentes ∅
              {| rz_zona := Some "ZE9"; rz_macrozona := None; rz_eixos := [];
                 rz_especiais := []; rz_mensagens := [] |}
              ResultadoZoneamentoGeom_vazio false false "ZE9") as [H _].
  - reflexivity.
  - discriminate.
  - exact H.
Defined.

(** ** The slope bands *)

Section Faixas.

Import Inclinacao.






(** The two outcomes of the slope analysis: an error result, or the
    bands of the counters of the loop. *)
Lemma analisar_inclinacao_inv lote_vazio cam area :
  let r := analisar_inclinacao_terreno lote_vazio cam area in
  (∃ m, r = _resultado_erro_objeto m ∧ ((∃ s, m = Texto s) ∨ ∃ e, m = ErroTecnico e))
  ∨ ∃ bloco c msg_area,
      let apx := Qabs (ci_x_res cam * ci_y_res cam) in
      ci_bloco cam = Some bloco
      ∧ c = foldl (contar_pixel cam bloco) contagem_inicial
              (pixels (tamanho_bloco (ci_altura cam) (ci_y_res cam))
                      (tamanho_bloco (ci_largura cam) (ci_x_res cam)))
      ∧ pixels_validos c ≠ 0%nat
      ∧ (0 < apx)%Q
      ∧ (∀ n, msg_area ≠ PixelsValidos n) ∧ (∀ a p, msg_area ≠ AppPorInclinacao a p)
      ∧ faixas r = omap (faixa_da_categoria apx (pixels_validos c) c) obter_categorias_completas
      ∧ tem_app_por_inclinacao r = Qlt_bool 0 (area_app apx c)
      ∧ mensagens r
        = [msg_area; RasterAnalisado (ci_nome cam); Resolucao (ci_x_res cam) (ci_y_res cam);
           PixelsValidos (pixels_validos c)]
          ++ (if Qlt_bool 0 (area_app apx c)
              then [AppPorInclinacao (area_app apx c)
                      (if Qlt_bool 0 (Qnat (pixels_validos c) * apx)
                       then area_app apx c / (Qnat (pixels_validos c) * apx) * 100
                       else 0)%Q]
              else [])
      ∧ ∃ e, estatisticas r = Some e
             ∧ e !! "pixels_validos" = Some (Qnat (pixels_validos c))
             ∧ e !! "pixels_totais" = Some (Qnat (pixels_totais c)).
Proof.
  cbv zeta. unfold analisar_inclinacao_terreno.
  destruct (ci_valida cam); cbn [negb]; [|left; eexists; split; [done|left; by eexists]].
  destruct lote_vazio; [left; eexists; split; [done|left; by eexists]|].
  destruct (ci_extent_vazio cam); [left; eexists; split; [done|left; by eexists]|].
  destruct (Qzero_bool (ci_x_res cam) || Qzero_bool (ci_y_res cam)) eqn:Ez;
    [left; eexists; split; [done|right; by eexists]|].
  destruct (ci_bloco cam) as [bloco|]; [|left; eexists; split; [done|left; by eexists]].
  set (c := foldl _ _ _).
  destruct (pixels_validos c =? 0)%nat eqn:Ev;
    [left; eexists; split; [done|left; by eexists]|].
  apply Nat.eqb_neq in Ev. apply orb_false_elim in Ez as [Ex Ey].
  right.
  exists bloco, c.
  eexists (match area with
           | Some al =>
               if Qlt_bool 0 al
               then if Qlt_bool 20 (Qabs ((Qnat (pixels_validos c)
                                           * Qabs (ci_x_res cam * ci_y_res cam) - al) / al * 100))
                    then Diferenca _ _ al else AreaCoerente _
               else AreaAnalisada _
           | None => AreaAnalisada _
           end).
  split; [done|]. split; [done|]. split; [done|]. split.
  { unfold Qzero_bool in Ex, Ey.
    assert (¬ (ci_x_res cam * ci_y_res cam == 0)%Q) as Hn.
    { intros [E|E]%Qmult_integral.
      - apply Qeq_bool_iff in E. congruence.
      - apply Qeq_bool_iff in E. congruence. }
    destruct (Qlt_le_dec 0 (Qabs (ci_x_res cam * ci_y_res cam))) as [|Hle]; [done|].
    destruct Hn. apply Qabs_Qle_condition in Hle as [H1 H2]. by apply Qle_antisym. }
  split; [intros n; destruct area as [al|]; [destruct (Qlt_bool 0 al);
                                               [destruct (Qlt_bool 20 _)|]|]; done|].
  split; [intros a p; destruct area as [al|]; [destruct (Qlt_bool 0 al);
                                                 [destruct (Qlt_bool 20 _)|]|]; done|].
  cbn [faixas tem_app_por_inclinacao mensagens estatisticas].
  split; [done|]. split; [done|]. split; [done|].
  eexists. split; [reflexivity|]. split; [|by rewrite lookup_insert_eq].
  rewrite lookup_insert_ne by done. by rewrite lookup_insert_eq.
Qed.



Lemma em_faixas apx v c (cats : list Categoria) f :
  f ∈ omap (faixa_da_categoria apx v c) cats →
  ∃ cat k, cat ∈ cats ∧ contadores c !! cat_id cat = Some k ∧ (0 < k)%nat
    ∧ f = {| faixa := cat_label cat; area_m2 := py_round2 (Qnat k * apx);
             percentual := py_round2 (Qnat k / Qnat v * 100); cor := cat_cor cat;
             app := cat_app cat; min_graus := Some (cat_min cat);
             max_graus := Some (cat_max cat); count := Some k |}.
Proof.
  intros (cat & Hcat & Hf)%list_elem_of_omap. unfold faixa_da_categoria in Hf.
  destruct (contadores c !! cat_id cat) as [k|] eqn:E; cbn [default from_option] in Hf;
    [|done]. unfold id in Hf.
  destruct (0 <? k)%nat eqn:Ek; [|done]. apply Nat.ltb_lt in Ek.
  injection Hf as <-. by exists cat, k.
Qed.



Lemma area_app_banda_seis apx c :
  (0 < apx)%Q →
  Qlt_bool 0 (area_app apx c) = true ↔ (0 < default 0%nat (contadores c !! 6%nat))%nat.
Proof.
  intros Hapx. rewrite Qlt_bool_true. unfold area_app.
  cbn [obter_categorias_completas List.filter cat_app fmap list_fmap cat_id].
  rewrite Qsum_cons. unfold Qsum. cbn [foldr]. rewrite Qplus_0_r.
  set (n := default 0%nat (contadores c !! 6%nat)). split.
  - intros H. destruct n as [|n]; [|lia]. exfalso. revert H.
    unfold Qnat. cbn. rewrite Qmult_0_l. apply Qlt_irrefl.
  - intros H. apply Qmult_lt_0_compat; [|done]. unfold Qnat.
    replace 0%Q with (inject_Z 0) by reflexivity. rewrite <- Zlt_Qlt. lia.
Qed.

(** X23: the flag of APP by slope says that the band above 45 degrees is
    present. For every outcome of the slope analysis, error results
    included, the flag is set exactly when some band listed is an APP band,
    and exactly when the result carries the message on APP by slope; and an
    APP band among those listed is always the band above 45 degrees. *)
Theorem app_por_inclinacao_sse_faixa_app (lote_vazio : bool) (cam : CamadaInclinacao)
  (area : option Q) :
  let r := analisar_inclinacao_terreno lote_vazio cam area in
  (tem_app_por_inclinacao r = true ↔ ∃ f, f ∈ faixas r ∧ app f = true)
  ∧ (tem_app_por_inclinacao r = true ↔ ∃ a p, AppPorInclinacao a p ∈ mensagens r)
  ∧ (∀ f, f ∈ faixas r → app f = true →
          faixa f = "> 45° (APP)" ∧ min_graus f = Some 45%Q).
Proof.
  cbv zeta.
  destruct (analisar_inclinacao_inv lote_vazio cam area)
    as [(m & -> & Hm)|(bloco & c & msg & Hb & Hc & Hv & Hapx & Hmsg & Hmsg' & Hf & Ht
                       & Hmens & _)].
  { cbn. split; [split; [done|by intros (f & []%elem_of_nil & _)]|].
    split; [|by intros f []%elem_of_nil]. split; [done|].
    intros (a & p & Hin%list_elem_of_singleton). by destruct Hm as [[? ->]|[? ->]]. }
  cbv zeta in *. rewrite Hf, Ht, Hmens, area_app_banda_seis by done. clear Hf Ht Hmens.
  split; [|split].
  - split.
    + intros Hn.
      destruct (contadores c !! 6%nat) as [k|] eqn:Ek; cbn in Hn; [|lia].
      eexists. split.
      * apply list_elem_of_omap. exists (List.nth 5 obter_categorias_completas
                                           {| cat_id := 0; cat_label := ""; cat_cor := "";
                                              cat_app := false; cat_min := 0; cat_max := 0 |}).
        split; [cbn; set_solver|]. unfold faixa_da_categoria. cbn [List.nth cat_id
          obter_categorias_completas]. rewrite Ek. cbn [default from_option]. unfold id.
        apply Nat.ltb_lt in Hn as ->. reflexivity.
      * reflexivity.
    + intros (f & (cat & k & Hcat & Hk & Hpos & ->)%em_faixas & Happ). cbn [app] in Happ.
      cbn [obter_categorias_completas] in Hcat.
      repeat (apply elem_of_cons in Hcat as [->|Hcat]; [try discriminate|]);
        [|by apply elem_of_nil in Hcat].
      cbn [cat_id] in Hk. by rewrite Hk.
  - split.
    + intros Hn. apply (area_app_banda_seis _ c Hapx) in Hn. rewrite Hn.
      eexists _, _. apply elem_of_app. right. left.
    + intros (a & p & Hin). apply elem_of_app in Hin as [Hin|Hin].
      * repeat (apply elem_of_cons in Hin as [Hin|Hin]; [try discriminate|]).
        -- by destruct (Hmsg' a p).
        -- by apply elem_of_nil in Hin.
      * destruct (Qlt_bool 0 (area_app _ c)) eqn:E; [|by apply elem_of_nil in Hin].
        by apply area_app_banda_seis in E.
  - intros f (cat & k & Hcat & Hk & Hpos & ->)%em_faixas Happ. cbn [app] in Happ.
    cbn [obter_categorias_completas] in Hcat.
    repeat (apply elem_of_cons in Hcat as [->|Hcat]; [try discriminate|]);
      [|by apply elem_of_nil in Hcat].
    done.
Qed.

End Faixas.

(** ** Frontages and divides *)

Section Frentes.

Import Testadas.

Lemma classificar_segmento_casos G cl cv d a b :
  ∃ logr tipo confr,
    classificar_segmento G cl cv d a b = (logr, tipo, confr)
    ∧ (tipo = "TESTADA" ∨ tipo = "DIVISA")
    ∧ (tipo = "TESTADA" ↔ ∃ nome, logr = Some nome ∧ nome ≠ "")
    ∧ (tipo = "TESTADA" → confr = None)
    ∧ (is_Some confr → tipo = "DIVISA" ∧ logr = None ∧ is_Some cl)
    ∧ (is_Some logr → is_Some cv).
Proof.
  unfold classificar_segmento.
  destruct (_normal_e_ponto_fora G a b) as [[normal pt]|].
  - destruct (_ponto_cai_em_algum_lote pt cl) eqn:Ec.
    + eexists _, _, _. split; [reflexivity|]. split; [by right|].
      split; [split; [done|by intros (? & [=] & _)]|]. split; [done|].
      split; [|by intros [? [=]]]. intros _. split; [done|]. split; [done|].
      destruct cl; [by eexists|done].
    + destruct (logradouro_do_raio G cv _ a b normal d) as [nome|] eqn:El.
      * assert (is_Some cv) as Hcv.
        { unfold logradouro_do_raio in El. destruct cv; [by eexists|done]. }
        destruct (PyStr.truthy nome) eqn:Et.
        -- eexists _, _, _. split; [reflexivity|]. split; [by left|].
           split; [split; [intros _; exists nome; by rewrite <- truthy_nao_vazio|done]|].
           split; [done|]. split; [by intros [? [=]]|done].
        -- eexists _, _, _. split; [reflexivity|]. split; [by right|].
           split; [split; [done|]|].
           { intros (n & [= <-] & Hn%truthy_nao_vazio). congruence. }
           split; [done|]. split; [by intros [? [=]]|done].
      * eexists _, _, _. split; [reflexivity|]. split; [by right|].
        split; [split; [done|by intros (? & [=] & _)]|]. split; [done|].
        split; by intros [? [=]].
  - eexists _, _, _. split; [reflexivity|]. split; [by right|].
    split; [split; [done|by intros (? & [=] & _)]|]. split; [done|].
    split; by intros [? [=]].
Qed.

Lemma somar_lookup k v (m : gmap string Q) nome :
  (default 0%Q (somar k v m !! nome)
   == default 0%Q (m !! nome)
      + (if decide (k = Some nome ∧ nome ≠ "") then v else 0))%Q.
Proof.
  unfold somar. destruct k as [n|].
  - destruct (PyStr.truthy n) eqn:Et.
    + apply truthy_nao_vazio in Et. destruct (decide (n = nome)) as [->|Hne].
      * rewrite lookup_insert_eq, decide_True by done. cbn [default from_option].
        unfold id. reflexivity.
      * rewrite lookup_insert_ne, decide_False by (try done; intros [[= ?] _]; done). ring.
    + rewrite decide_False; [ring|]. intros [[= ->] Hn%truthy_nao_vazio]. congruence.
  - rewrite decide_False; [ring|]. by intros [[=] _].
Qed.

Lemma somar_chaves k v (m : gmap string Q) nome :
  is_Some (somar k v m !! nome) ↔ is_Some (m !! nome) ∨ (k = Some nome ∧ nome ≠ "").
Proof.
  unfold somar. destruct k as [n|].
  - destruct (PyStr.truthy n) eqn:Et.
    + apply truthy_nao_vazio in Et. rewrite lookup_insert_is_Some. split.
      * intros [->|[_ ?]]; [by right|by left].
      * intros [?|[[= ->] _]]; [|by left].
        destruct (decide (n = nome)); [by left|by right].
    + split; [by left|]. intros [?|[[= ->] Hn%truthy_nao_vazio]]; [done|congruence].
  - split; [by left|]. by intros [?|[[=] _]].
Qed.

Lemma Qsum_filter_snoc {A} (P : A → Prop) `{∀ x, Decision (P x)} (f : A → Q) l x :
  (Qsum (f <$> filter P (l ++ [x]))
   == Qsum (f <$> filter P l) + (if decide (P x) then f x else 0))%Q.
Proof.
  rewrite filter_app, fmap_app, Qsum_app. apply Qplus_comp; [reflexivity|].
  rewrite filter_cons, filter_nil. destruct (decide (P x)); cbn; ring.
Qed.

Lemma filter_iff_em {A} (P1 P2 : A → Prop)
  `{∀ x, Decision (P1 x)} `{∀ x, Decision (P2 x)} (l : list A) :
  (∀ x, x ∈ l → P1 x ↔ P2 x) → filter P1 l = filter P2 l.
Proof.
  induction l as [|a l IH]; intros Hl; [done|]. rewrite !filter_cons.
  rewrite IH by (intros x Hx; apply Hl; by right).
  pose proof (Hl a (list_elem_of_here _ _)) as Ha.
  destruct (decide (P1 a)), (decide (P2 a)); tauto.
Qed.

Lemma percorrer_classificados G cl cv d (nums : list (nat * (Ponto * Ponto))) r :
  Forall (classificado cl cv) (segmentos r) →
  Forall (classificado cl cv) (segmentos (percorrer G cl cv d nums r)).
Proof.
  revert r. induction nums as [|[i [a b]] nums IH]; intros r Hr; [done|].
  cbn [percorrer].
  destruct (seg_vazio G a b); [by apply IH|].
  destruct (Qle_bool (seg_length G a b) 0); [by apply IH|].
  destruct (classificar_segmento_casos G cl cv d a b)
    as (logr & tipo & confr & -> & _ & H1 & H2 & H3 & H4).
  apply IH. cbn [segmentos]. apply Forall_app. split; [done|].
  constructor; [|constructor]. exact (conj H1 (conj H2 (conj H3 H4))).
Qed.

Lemma percorrer_totais G cl cv d (nums : list (nat * (Ponto * Ponto))) r nome :
  (default 0%Q (testadas_por_logradouro r !! nome)
   == Qsum (comprimento_m
              <$> filter (λ s, logradouro s = Some nome ∧ nome ≠ "") (segmentos r)))%Q →
  (default 0%Q (confrontantes_por_proprietario r !! nome)
   == Qsum (comprimento_m
              <$> filter (λ s, confrontante s = Some nome ∧ nome ≠ "") (segmentos r)))%Q →
  (is_Some (testadas_por_logradouro r !! nome)
   ↔ ∃ s, s ∈ segmentos r ∧ logradouro s = Some nome ∧ nome ≠ "") →
  (is_Some (confrontantes_por_proprietario r !! nome)
   ↔ ∃ s, s ∈ segmentos r ∧ confrontante s = Some nome ∧ nome ≠ "") →
  let r' := percorrer G cl cv d nums r in
  (default 0%Q (testadas_por_logradouro r' !! nome)
   == Qsum (comprimento_m
              <$> filter (λ s, logradouro s = Some nome ∧ nome ≠ "") (segmentos r')))%Q
  ∧ (default 0%Q (confrontantes_por_proprietario r' !! nome)
     == Qsum (comprimento_m
                <$> filter (λ s, confrontante s = Some nome ∧ nome ≠ "") (segmentos r')))%Q
  ∧ (is_Some (testadas_por_logradouro r' !! nome)
     ↔ ∃ s, s ∈ segmentos r' ∧ logradouro s = Some nome ∧ nome ≠ "")
  ∧ (is_Some (confrontantes_por_proprietario r' !! nome)
     ↔ ∃ s, s ∈ segmentos r' ∧ confrontante s = Some nome ∧ nome ≠ "").
Proof.
  revert r. induction nums as [|[i [a b]] nums IH]; intros r Ht Hc Hkt Hkc; [done|].
  cbn [percorrer].
  destruct (seg_vazio G a b); [by apply IH|].
  destruct (Qle_bool (seg_length G a b) 0); [by apply IH|].
  destruct (classificar_segmento_casos G cl cv d a b)
    as (logr & tipo & confr & -> & Htipo & H1 & H2 & H3 & H4).
  assert ((if String.eqb tipo "DIVISA"
           then somar confr (seg_length G a b) (confrontantes_por_proprietario r)
           else confrontantes_por_proprietario r)
          = somar confr (seg_length G a b) (confrontantes_por_proprietario r)) as ->.
  { destruct Htipo as [->| ->]; [|done]. by rewrite (H2 eq_refl). }
  apply IH; cbn [segmentos testadas_por_logradouro confrontantes_por_proprietario].
  - rewrite somar_lookup, Qsum_filter_snoc, Ht. cbn [logradouro comprimento_m].
    apply Qplus_comp; [reflexivity|]. by repeat case_decide.
  - rewrite somar_lookup, Qsum_filter_snoc, Hc. cbn [confrontante comprimento_m].
    apply Qplus_comp; [reflexivity|]. by repeat case_decide.
  - rewrite somar_chaves, Hkt. split.
    + intros [(s & Hs & ?)|[-> ?]].
      * exists s. split; [|done]. apply elem_of_app. by left.
      * eexists. split; [apply elem_of_app; right; by apply list_elem_of_singleton|done].
    + intros (s & [Hs| ->%list_elem_of_singleton]%elem_of_app & Hl & ?).
      * left. by exists s.
      * by right.
  - rewrite somar_chaves, Hkc. split.
    + intros [(s & Hs & ?)|[-> ?]].
      * exists s. split; [|done]. apply elem_of_app. by left.
      * eexists. split; [apply elem_of_app; right; by apply list_elem_of_singleton|done].
    + intros (s & [Hs| ->%list_elem_of_singleton]%elem_of_app & Hl & ?).
      * left. by exists s.
      * by right.
Qed.

Lemma percorrer_ids G cl cv d (l : list (Ponto * Ponto)) k r :
  StronglySorted lt (id_segmento <$> segmentos r) →
  Forall (λ s, (1 ≤ id_segmento s < k)%nat) (segmentos r) →
  (1 ≤ k)%nat →
  let r' := percorrer G cl cv d (zip (seq k (length l)) l) r in
  StronglySorted lt (id_segmento <$> segmentos r')
  ∧ Forall (λ s, (1 ≤ id_segmento s < k + length l)%nat) (segmentos r').
Proof.
  revert k r. induction l as [|[a b] l IH]; intros k r Hs Hk Hk1.
  - cbn. split; [done|]. eapply Forall_impl; [done|]. cbn. lia.
  - cbn [length seq zip zip_with percorrer].
    replace (k + S (length l))%nat with (S k + length l)%nat by lia.
    assert (Forall (λ s, (1 ≤ id_segmento s < S k)%nat) (segmentos r)) as Hk'.
    { eapply Forall_impl; [done|]. cbn. lia. }
    destruct (seg_vazio G a b); [by apply IH; try lia|].
    destruct (Qle_bool (seg_length G a b) 0); [by apply IH; try lia|].
    destruct (classificar_segmento G cl cv d a b) as [[logr tipo] confr].
    apply IH; cbn [segmentos]; [| |lia].
    + rewrite fmap_app. cbn. clear -Hs Hk.
      induction (segmentos r) as [|s ss IHs]; cbn.
      * repeat constructor.
      * apply Forall_cons in Hk as [Hs1 Hk]. cbn in Hs.
        apply StronglySorted_inv in Hs as [Hs Hall].
        constructor; [by apply IHs|]. apply Forall_app. split; [done|].
        constructor; [lia|constructor].
    + apply Forall_app. split; [done|]. constructor; [cbn; lia|constructor].
Qed.



(** X24: every limit of the result is classified coherently: it is a
    TESTADA exactly when it has a street with a name that is not empty, a
    TESTADA has no neighbour, a limit with a neighbour is a DIVISA without a
    street and needs a lots layer, a limit with a street needs a roads layer;
    the identifiers are positions of the segmented border, counted from 1,
    and strictly increase along the result. *)
Theorem limites_classificados (G : Motor) (g : Geometria)
  (cl : option CamadaLotes) (cv : option CamadaLogradouros) (d : Q) :
  let r := calcular_testadas_e_logradouros G (Some g) cl cv d in
  (∀ s, s ∈ segmentos r →
     (tipo_limite s = "TESTADA" ↔ ∃ nome, logradouro s = Some nome ∧ nome ≠ "")
     ∧ (tipo_limite s = "TESTADA" → confrontante s = None)
     ∧ (is_Some (confrontante s) →
        tipo_limite s = "DIVISA" ∧ logradouro s = None ∧ is_Some cl)
     ∧ (is_Some (logradouro s) → is_Some cv)
     ∧ (1 ≤ id_segmento s ≤ length (_segmentar_borda_lote G (Some g)))%nat)
  ∧ StronglySorted lt (id_segmento <$> segmentos r).
Proof.
  cbv zeta. unfold calcular_testadas_e_logradouros, enumerate1.
  pose proof (percorrer_classificados G cl cv d
                (zip (seq 1 (length (_segmentar_borda_lote G (Some g))))
                     (_segmentar_borda_lote G (Some g)))
                ResultadoTestadas_vazio (Forall_nil_2 _)) as Hc.
  destruct (percorrer_ids G cl cv d (_segmentar_borda_lote G (Some g)) 1
              ResultadoTestadas_vazio) as [Hs Hi];
    [constructor|constructor|lia|].
  rewrite Forall_forall in Hc, Hi. split; [|done].
  intros s Hs'. destruct (Hc s Hs') as (H1 & H2 & H3 & H4).
  specialize (Hi s Hs'). cbn beta in Hi.
  split; [exact H1|]. split; [exact H2|]. split; [exact H3|]. split; [exact H4|]. lia.
Qed.

(** X25: the total of a street is the sum of the lengths of the TESTADA
    limits on that street, and the street has an entry exactly when there is
    such a limit; the total of a neighbour is the sum of the lengths of the
    DIVISA limits with that neighbour, and a neighbour whose name is empty is
    not totalled. *)
Theorem totais_somam_os_limites (G : Motor) (g : Geometria)
  (cl : option CamadaLotes) (cv : option CamadaLogradouros) (d : Q) (nome : string) :
  let r := calcular_testadas_e_logradouros G (Some g) cl cv d in
  (default 0%Q (testadas_por_logradouro r !! nome)
   == Qsum (comprimento_m
              <$> filter (λ s, tipo_limite s = "TESTADA" ∧ logradouro s = Some nome)
                    (segmentos r)))%Q
  ∧ (is_Some (testadas_por_logradouro r !! nome)
     ↔ ∃ s, s ∈ segmentos r ∧ tipo_limite s = "TESTADA" ∧ logradouro s = Some nome)
  ∧ (default 0%Q (confrontantes_por_proprietario r !! nome)
     == Qsum (comprimento_m
                <$> filter (λ s, tipo_limite s = "DIVISA"
                                 ∧ confrontante s = Some nome ∧ nome ≠ "")
                      (segmentos r)))%Q
  ∧ (is_Some (confrontantes_por_proprietario r !! nome)
     ↔ ∃ s, s ∈ segmentos r ∧ tipo_limite s = "DIVISA"
            ∧ confrontante s = Some nome ∧ nome ≠ "").
Proof.
  cbv zeta. unfold calcular_testadas_e_logradouros.
  pose proof (percorrer_classificados G cl cv d
                (enumerate1 (_segmentar_borda_lote G (Some g)))
                ResultadoTestadas_vazio (Forall_nil_2 _)) as Hc.
  destruct (percorrer_totais G cl cv d (enumerate1 (_segmentar_borda_lote G (Some g)))
              ResultadoTestadas_vazio nome) as (Ht & Hn & Hkt & Hkn).
  { done. }
  { done. }
  { cbn. rewrite lookup_empty. split; [by intros [? [=]]|].
    by intros (? & ?%elem_of_nil & _). }
  { cbn. rewrite lookup_empty. split; [by intros [? [=]]|].
    by intros (? & ?%elem_of_nil & _). }
  rewrite Forall_forall in Hc.
  assert (∀ s, s ∈ segmentos (percorrer G cl cv d
                               (enumerate1 (_segmentar_borda_lote G (Some g)))
                               ResultadoTestadas_vazio) →
            (logradouro s = Some nome ∧ nome ≠ ""
             ↔ tipo_limite s = "TESTADA" ∧ logradouro s = Some nome)
            ∧ (confrontante s = Some nome ∧ nome ≠ ""
               ↔ tipo_limite s = "DIVISA" ∧ confrontante s = Some nome ∧ nome ≠ ""))
    as Heq.
  { intros s Hs. destruct (Hc s Hs) as (H1 & H2 & H3 & H4). split.
    - split.
      + intros [Hl Hne]. split; [|done]. apply H1. by exists nome.
      + intros [(n & Hn' & Hne)%H1 Hl]. split; [done|]. congruence.
    - split.
      + intros [Hcf Hne]. split; [|done]. apply H3. by rewrite Hcf.
      + by intros (_ & ? & ?). }
  split; [|split; [|split]].
  - rewrite Ht. erewrite filter_iff_em; [reflexivity|].
    intros s Hs. apply (Heq s Hs).
  - rewrite Hkt. split; intros (s & Hs & H); exists s; (split; [done|]);
      by apply (Heq s Hs).
  - rewrite Hn. erewrite filter_iff_em; [reflexivity|].
    intros s Hs. apply (Heq s Hs).
  - rewrite Hkn. split; intros (s & Hs & H); exists s; (split; [done|]);
      by apply (Heq s Hs).
Qed.

End Frentes.

(** ** The whole analysis *)

Section Consolidado.

Import MotorAnaliseLote.

Lemma acrescenta_refl a : acrescenta_mensagens a a.
Proof. by repeat split. Qed.

Lemma acrescenta_trans a b c :
  acrescenta_mensagens a b → acrescenta_mensagens b c → acrescenta_mensagens a c.
Proof.
  intros (H1 & H2 & H3 & H4) (K1 & K2 & K3 & K4). repeat split; try congruence.
  by etrans.
Qed.

Lemma acrescenta_com_mensagem msg a : acrescenta_mensagens a (com_mensagem msg a).
Proof. repeat split. cbn. by apply prefix_app_r. Qed.

Lemma acrescenta_com_zona z a : acrescenta_mensagens a (com_zona z a).
Proof. by repeat split. Qed.

Lemma acrescenta_se (b : bool) msg a :
  acrescenta_mensagens a (if b then com_mensagem msg a else a)
  ∧ rz_zona (if b then com_mensagem msg a else a) = rz_zona a.
Proof.
  destruct b; (split; [|done]); [apply acrescenta_com_mensagem|apply acrescenta_refl].
Qed.

Lemma integrar_mensagens_acrescenta zr rz :
  acrescenta_mensagens rz (integrar_mensagens zr rz)
  ∧ rz_zona (integrar_mensagens zr rz)
    = match zona_de_referencia zr with Some z => Some z | None => rz_zona rz end.
Proof.
  unfold integrar_mensagens, zona_de_referencia. destruct zr as [r|]; cbn.
  2: { split; [apply acrescenta_refl|done]. }
  set (a := if Regra.vazia (Resolvedor.notas_ativas r) then rz else _).
  set (b := if PyStr.truthy (Resolvedor.motivo r) then _ else a).
  set (c := if _ && _ then _ else b).
  assert (acrescenta_mensagens rz a ∧ rz_zona a = rz_zona rz) as [Ha Za].
  { subst a. destruct (Regra.vazia _); (split; [|done]);
      [apply acrescenta_refl|apply acrescenta_com_mensagem]. }
  destruct (acrescenta_se (PyStr.truthy (Resolvedor.motivo r)) (Resolvedor.motivo r) a)
    as [Hb Zb]. fold b in Hb, Zb.
  destruct (acrescenta_se
              (PyStr.truthy (Resolvedor.tipo_regra r)
               && negb (String.eqb (Resolvedor.tipo_regra r) "NAO_DEFINIDA"))
              (msg_regra (Resolvedor.tipo_regra r)) b) as [Hc Zc].
  fold c in Hc, Zc.
  assert (acrescenta_mensagens rz c) as Hrc.
  { eapply acrescenta_trans; [|done]. by eapply acrescenta_trans. }
  destruct (Resolvedor.zona_principal r) as [z|]; [|split; [done|congruence]].
  destruct (PyStr.truthy z); [|split; [done|congruence]].
  split; [|done]. eapply acrescenta_trans; [done|apply acrescenta_com_zona].
Qed.

Lemma avaliar_indices_Ok zr c rz av rz' :
  avaliar_indices zr c rz = Ok (av, rz') →
  acrescenta_mensagens rz rz' ∧ rz_zona rz' = rz_zona rz
  ∧ (zona_de_referencia zr = None →
     av = None ∧ rz_mensagens rz' = rz_mensagens rz ++ [msg_sem_referencia])
  ∧ (∀ a, av = Some a →
       rz' = rz
       ∧ ∃ r z p, zr = Some r ∧ zona_de_referencia zr = Some z
                  ∧ Resolvedor.parametros r = Some p
                  ∧ avaliar_edificacao_na_zona z p c = Ok a).
Proof.
  unfold avaliar_indices. destruct zr as [r|].
  2: { intros [= <- <-]. split; [apply acrescenta_com_mensagem|]. by repeat split. }
  destruct (zona_de_referencia (Some r)) as [z|] eqn:Ez.
  2: { intros [= <- <-]. split; [apply acrescenta_com_mensagem|]. by repeat split. }
  destruct (Resolvedor.parametros r) as [p|] eqn:Ep.
  - destruct (avaliar_edificacao_na_zona z p c) as [a|e] eqn:Ea; [|done].
    intros [= <- <-]. split; [apply acrescenta_refl|]. split; [done|].
    split; [done|]. intros a' [= <-]. split; [done|]. by exists r, z, p.
  - intros [= <- <-]. split; [apply acrescenta_com_mensagem|]. by repeat split.
Qed.


Lemma analisar_inclinacao_acrescenta amb c rz :
  let '(ri, rz') := analisar_inclinacao amb c rz in
  acrescenta_mensagens rz rz' ∧ rz_zona rz' = rz_zona rz
  ∧ rz_mensagens rz'
    = rz_mensagens rz
      ++ match camada_inclinacao amb with
         | Some cam =>
             if Inclinacao.tem_app_por_inclinacao
                  (Inclinacao.analisar_inclinacao_terreno false cam
                     (Some (area_lote_m2 c)))
             then [msg_app_inclinacao] else []
         | None => []
         end.
Proof.
  unfold analisar_inclinacao. destruct (camada_inclinacao amb) as [cam|].
  - destruct (Inclinacao.tem_app_por_inclinacao _).
    + split; [apply acrescenta_com_mensagem|]. by split.
    + split; [apply acrescenta_refl|]. split; [done|]. by rewrite app_nil_r.
  - split; [apply acrescenta_refl|]. split; [done|]. by rewrite app_nil_r.
Qed.



Lemma analisar_lote_Ok g amb geom c n10 d r :
  analisar_lote g amb (Some geom) c n10 d = Ok r →
  ∃ zr av rz1,
    resolver_zoneamento g amb (res_zon_bruto amb) (decompor_zoneamento amb) = Ok zr
    ∧ avaliar_indices zr c (integrar_mensagens zr (res_zon_bruto amb)) = Ok (av, rz1)
    ∧ zoneamento_intersecao r = (analisar_inclinacao amb c rz1).2
    ∧ zoneamento_avaliacao r = av
    ∧ zona_resolvida r = zr
    ∧ app r = res_app amb ∧ risco r = res_risco amb
    ∧ testadas r = medir_testadas amb (Some geom) d
    ∧ detectou_frente_nota_10 r
      = negb (Regra.vazia (List.filter (frente "sebastião manoel coelho")
                             (vias_de (medir_testadas amb (Some geom) d))))
    ∧ detectou_frente_nota_37 r
      = existsb (frente "lúcio joaquim mendes")
          (vias_de (medir_testadas amb (Some geom) d))
    ∧ nome_via_nota_10 r
      = last (List.filter (frente "sebastião manoel coelho")
                (vias_de (medir_testadas amb (Some geom) d))).
Proof.
  unfold analisar_lote.
  destruct (resolver_zoneamento g amb (res_zon_bruto amb) (decompor_zoneamento amb))
    as [zr|e] eqn:Er; cbn [res_bind]; [|done].
  destruct (avaliar_indices zr c (integrar_mensagens zr (res_zon_bruto amb)))
    as [[av rz1]|e] eqn:Ea; cbn [res_bind]; [|done].
  destruct (analisar_inclinacao amb c rz1) as [ri rz2] eqn:Ei.
  intros [= <-]. exists zr, av, rz1. rewrite Ei. by repeat split.
Qed.

(** X27: the analysis only adds to the raw zoning result: its messages
    stay, in order, at the head of the final ones, its macrozone, axes and
    special zones are kept, and its zone is replaced only by a reference zone
    that is not empty; the protected-area and risk results are passed on as
    they came. With no resolved zoning, the messages added are the one of the
    missing reference zone and then, when there is a slope layer on which
    the analysis finds a protected area, the one of that area. *)
Theorem analise_so_acrescenta_mensagens (g : Globais) (amb : Ambiente)
  (geom : Testadas.Geometria) (c : CenarioEdificacao) (n10 : bool) (d : Q)
  (r : ResultadoAnaliseLote) :
  analisar_lote g amb (Some geom) c n10 d = Ok r →
  rz_mensagens (res_zon_bruto amb) `prefix_of` rz_mensagens (zoneamento_intersecao r)
  ∧ rz_macrozona (zoneamento_intersecao r) = rz_macrozona (res_zon_bruto amb)
  ∧ rz_eixos (zoneamento_intersecao r) = rz_eixos (res_zon_bruto amb)
  ∧ rz_especiais (zoneamento_intersecao r) = rz_especiais (res_zon_bruto amb)
  ∧ rz_zona (zoneamento_intersecao r)
    = match zona_de_referencia (zona_resolvida r) with
      | Some z => Some z
      | None => rz_zona (res_zon_bruto amb)
      end
  ∧ app r = res_app amb
  ∧ risco r = res_risco amb
  ∧ (zona_resolvida r = None →
     rz_mensagens (zoneamento_intersecao r)
     = rz_mensagens (res_zon_bruto amb) ++ [msg_sem_referencia]
       ++ match camada_inclinacao amb with
          | Some cam =>
              if Inclinacao.tem_app_por_inclinacao
                   (Inclinacao.analisar_inclinacao_terreno false cam
                      (Some (area_lote_m2 c)))
              then [msg_app_inclinacao] else []
          | None => []
          end).
Proof.
  intros (zr & av & rz1 & Hr & Ha & -> & _ & -> & -> & -> & _)%analisar_lote_Ok.
  destruct (integrar_mensagens_acrescenta zr (res_zon_bruto amb)) as [Hi Zi].
  destruct (avaliar_indices_Ok _ _ _ _ _ Ha) as (Hv & Zv & Hn & _).
  pose proof (analisar_inclinacao_acrescenta amb c rz1) as Hs.
  destruct (analisar_inclinacao amb c rz1) as [ri rz2]. cbn [snd].
  destruct Hs as (Hs & Zs & Ms).
  destruct (acrescenta_trans _ _ _ (acrescenta_trans _ _ _ Hi Hv) Hs)
    as (P1 & P2 & P3 & P4).
  split; [done|]. split; [done|]. split; [done|]. split; [done|].
  split; [congruence|]. split; [done|]. split; [done|].
  intros ->. destruct (Hn eq_refl) as [_ Hm]. rewrite Ms, Hm. cbn [integrar_mensagens].
  by rewrite <- app_assoc.
Qed.

Lemma analise_so_acrescenta_mensagens_witness :
  ∃ r, analisar_lote globais_do_modulo Exemplo.ambiente (Some Exemplo.quadrado)
         Exemplo.cenario false 20 = Ok r
    ∧ rz_mensagens (zoneamento_intersecao r) = [msg_sem_referencia].
Proof.
  eexists. split; [vm_compute; reflexivity|].
  match goal with
  | |- rz_mensagens (zoneamento_intersecao ?r) = _ =>
      destruct (analise_so_acrescenta_mensagens globais_do_modulo Exemplo.ambiente
                  Exemplo.quadrado Exemplo.cenario false 20 r)
        as (_ & _ & _ & _ & _ & _ & _ & H)
  end.
  - vm_compute. reflexivity.
  - exact (H eq_refl).
Defined.

(** X28: a compliance evaluation is in the result exactly when the resolved
    zoning has a reference zone that is not empty and parameters: it is then
    the evaluation of the scenario in that zone with those parameters, and
    the zone of the zoning result is that zone. With a reference zone and no
    parameters, or with no reference zone, there is no evaluation and a
    message says which of the two it was. *)
Theorem avaliacao_pela_zona_de_referencia (g : Globais) (amb : Ambiente)
  (geom : Testadas.Geometria) (c : CenarioEdificacao) (n10 : bool) (d : Q)
  (r : ResultadoAnaliseLote) :
  analisar_lote g amb (Some geom) c n10 d = Ok r →
  (∀ av, zoneamento_avaliacao r = Some av ↔
     ∃ zr z p, zona_resolvida r = Some zr
               ∧ zona_de_referencia (Some zr) = Some z
               ∧ Resolvedor.parametros zr = Some p
               ∧ avaliar_edificacao_na_zona z p c = Ok av)
  ∧ (is_Some (zoneamento_avaliacao r) →
     rz_zona (zoneamento_intersecao r) = zona_de_referencia (zona_resolvida r))
  ∧ (∀ zr z, zona_resolvida r = Some zr → zona_de_referencia (Some zr) = Some z →
       Resolvedor.parametros zr = None →
       zoneamento_avaliacao r = None
       ∧ msg_sem_parametros z ∈ rz_mensagens (zoneamento_intersecao r))
  ∧ (zona_de_referencia (zona_resolvida r) = None →
     zoneamento_avaliacao r = None
     ∧ msg_sem_referencia ∈ rz_mensagens (zoneamento_intersecao r)).
Proof.
  intros (zr & av & rz1 & Hr & Ha & Hz & -> & -> & _)%analisar_lote_Ok.
  destruct (integrar_mensagens_acrescenta zr (res_zon_bruto amb)) as [Hi Zi].
  pose proof (analisar_inclinacao_acrescenta amb c rz1) as Hs.
  destruct (analisar_inclinacao amb c rz1) as [ri rz2]. cbn [snd] in Hz.
  destruct Hs as ((Hp & _) & Zs & _). rewrite Hz. clear Hz.
  assert (∀ m, m ∈ rz_mensagens rz1 → m ∈ rz_mensagens rz2) as Hin.
  { intros m Hm. destruct Hp as [k ->]. apply elem_of_app. by left. }
  unfold avaliar_indices in Ha. split; [|split; [|split]].
  - intros a. split.
    + intros ->. destruct zr as [r'|]; [|done].
      destruct (zona_de_referencia (Some r')) as [z|] eqn:Ez; [|done].
      destruct (Resolvedor.parametros r') as [p|] eqn:Ep; [|done].
      destruct (avaliar_edificacao_na_zona z p c) as [a'|] eqn:Ea; [|done].
      injection Ha as [= -> _]. by exists r', z, p.
    + intros (r' & z & p & -> & Ez & Ep & Ea). rewrite Ez, Ep, Ea in Ha.
      by injection Ha as [= <- _].
  - intros [a ->]. destruct zr as [r'|]; [|done].
    destruct (zona_de_referencia (Some r')) as [z|] eqn:Ez; [|done].
    destruct (Resolvedor.parametros r') as [p|] eqn:Ep; [|done].
    destruct (avaliar_edificacao_na_zona z p c) as [a'|] eqn:Ea; [|done].
    cbn [res_bind] in Ha.
    assert (rz1 = integrar_mensagens (Some r') (res_zon_bruto amb)) as -> by congruence.
    by rewrite Zs, Zi.
  - intros r' z -> Ez Ep. rewrite Ez, Ep in Ha. injection Ha as [= <- <-].
    split; [done|]. apply Hin. cbn. apply elem_of_app. right.
    by apply list_elem_of_singleton.
  - intros Ez. destruct zr as [r'|].
    + rewrite Ez in Ha. injection Ha as [= <- <-]. split; [done|].
      apply Hin. cbn. apply elem_of_app. right. by apply list_elem_of_singleton.
    + injection Ha as [= <- <-]. split; [done|].
      apply Hin. cbn. apply elem_of_app. right. by apply list_elem_of_singleton.
Qed.

Lemma avaliacao_pela_zona_de_referencia_witness :
  ∃ r, analisar_lote Exemplo.globais_ligados Exemplo.ambiente (Some Exemplo.quadrado)
         Exemplo.cenario false 20 = Ok r
    ∧ is_Some (zoneamento_avaliacao r)
    ∧ rz_zona (zoneamento_intersecao r) = zona_de_referencia (zona_resolvida r).
Proof.
  eexists. split; [vm_compute; reflexivity|]. split; [by eexists|].
  match goal with
  | |- rz_zona (zoneamento_intersecao ?r) = _ =>
      destruct (avaliacao_pela_zona_de_referencia Exemplo.globais_ligados
                  Exemplo.ambiente Exemplo.quadrado Exemplo.cenario false 20 r)
        as (_ & H & _)
  end.
  - vm_compute. reflexivity.
  - apply H. by eexists.
Defined.






End Consolidado.

(** ** The street of a frontage *)

Section Vias.

Import Testadas.

Lemma primeiro_menor_cota {A} (key : A → Q) l (x y : A) :
  primeiro_menor key l x → y ∈ l → (key x <= key y)%Q.
Proof.
  intros (pre & post & -> & Hpre & Hpost) [Hy|[->|Hy]%elem_of_cons]%elem_of_app.
  - apply Qlt_le_weak. by apply Hpre.
  - apply Qle_refl.
  - by apply Hpost.
Qed.

Lemma via_mais_proxima_acumulada mid (visto resto : list FeicaoVia) v :
  primeiro_menor (λ u, fv_distancia u mid) visto v →
  ∃ v', via_mais_proxima mid resto (Some (v, fv_distancia v mid)) = Some v'
        ∧ primeiro_menor (λ u, fv_distancia u mid) (visto ++ resto) v'.
Proof.
  revert visto v. induction resto as [|u resto IH]; intros visto v Hv.
  - exists v. split; [done|]. by rewrite app_nil_r.
  - cbn [via_mais_proxima].
    replace (visto ++ u :: resto) with ((visto ++ [u]) ++ resto)
      by by rewrite <- app_assoc.
    destruct (Qlt_bool (fv_distancia u mid) (fv_distancia v mid)) eqn:E.
    + apply IH. apply Qlt_bool_true in E. exists visto, []. split; [done|].
      split; [|by intros ? ?%elem_of_nil].
      intros y Hy. eapply Qlt_le_trans; [done|].
      by apply (primeiro_menor_cota _ _ _ _ Hv).
    + apply IH. destruct Hv as (pre & post & -> & Hpre & Hpost).
      exists pre, (post ++ [u]). split; [by rewrite <- !app_assoc|].
      split; [done|]. intros y [Hy| ->%list_elem_of_singleton]%elem_of_app.
      * by apply Hpost.
      * apply Qnot_lt_le. intros Hlt%Qlt_bool_true. cbn in Hlt. congruence.
Qed.

Lemma via_mais_proxima_primeira mid (l : list FeicaoVia) :
  match via_mais_proxima mid l None with
  | Some v => primeiro_menor (λ u, fv_distancia u mid) l v
  | None => l = []
  end.
Proof.
  destruct l as [|u l]; [done|]. cbn [via_mais_proxima].
  destruct (via_mais_proxima_acumulada mid [u] l u) as (v & -> & Hv); [|done].
  exists [], []. split; [done|]. split; by intros ? ?%elem_of_nil.
Qed.

Lemma logradouro_do_raio_Some G cam campo a b normal d nome :
  logradouro_do_raio G (Some cam) (Some campo) a b normal d = Some nome →
  ∃ v, primeiro_menor (λ u, fv_distancia u (seg_meio G a b))
         (vias_cruzadas G cam (a, b) normal d) v
       ∧ fv_atributos v !! campo = Some nome.
Proof.
  unfold logradouro_do_raio, vias_cruzadas. cbn [fst snd].
  match goal with
  | |- context [via_mais_proxima ?m ?l None] =>
      pose proof (via_mais_proxima_primeira m l) as H;
      destruct (via_mais_proxima m l None) as [v|]; [|done]
  end.
  cbn. intros Hn. by exists v.
Qed.

Lemma percorrer_classificacao G cl cv d (nums : list (nat * (Ponto * Ponto))) r :
  Forall (λ s, classificar_segmento G cl cv d (geom s).1 (geom s).2
               = (logradouro s, tipo_limite s, confrontante s)) (segmentos r) →
  Forall (λ s, classificar_segmento G cl cv d (geom s).1 (geom s).2
               = (logradouro s, tipo_limite s, confrontante s))
    (segmentos (percorrer G cl cv d nums r)).
Proof.
  revert r. induction nums as [|[i [a b]] nums IH]; intros r Hr; [done|].
  cbn [percorrer].
  destruct (seg_vazio G a b); [by apply IH|].
  destruct (Qle_bool (seg_length G a b) 0); [by apply IH|].
  destruct (classificar_segmento G cl cv d a b) as [[logr tipo] confr] eqn:E.
  apply IH. cbn [segmentos]. apply Forall_app. split; [done|].
  constructor; [|constructor]. done.
Qed.

(** X30: the street of a limit is the name of the nearest road its ray
    meets. For a limit with a street, the probe point outside the parcel
    falls in no lot, and the street is the value of the name field on the
    road at the least distance from the midpoint among the roads the ray
    from the midpoint meets, the first of them to be tried among
    roads at equal distance; the names of roads farther away are not
    looked at. *)
Theorem logradouro_da_via_mais_proxima (G : Motor) (g : Geometria)
  (cl : option CamadaLotes) (cam : CamadaLogradouros) (d : Q)
  (s : SegmentoTestada) (nome : string) :
  s ∈ segmentos (calcular_testadas_e_logradouros G (Some g) cl (Some cam) d) →
  logradouro s = Some nome →
  ∃ campo normal fora v,
    _achar_campo_nome_logradouro (Some cam) = Some campo
    ∧ _normal_e_ponto_fora G (geom s).1 (geom s).2 = Some (normal, fora)
    ∧ _ponto_cai_em_algum_lote fora cl = false
    ∧ primeiro_menor (λ u, fv_distancia u (seg_meio G (geom s).1 (geom s).2))
        (vias_cruzadas G cam (geom s) normal d) v
    ∧ fv_atributos v !! campo = Some nome.
Proof.
  intros Hs Hl. unfold calcular_testadas_e_logradouros in Hs.
  pose proof (percorrer_classificacao G cl (Some cam) d
                (enumerate1 (_segmentar_borda_lote G (Some g)))
                ResultadoTestadas_vazio (Forall_nil_2 _)) as Hc.
  rewrite Forall_forall in Hc. specialize (Hc s Hs).
  unfold classificar_segmento in Hc.
  destruct (_normal_e_ponto_fora G (geom s).1 (geom s).2) as [[normal fora]|];
    [|injection Hc as Hc _ _; congruence].
  destruct (_ponto_cai_em_algum_lote fora cl) eqn:Ecai;
    [injection Hc as Hc _ _; congruence|].
  destruct (_achar_campo_nome_logradouro (Some cam)) as [campo|] eqn:Ecampo.
  2: { cbn in Hc. injection Hc as Hc _ _. congruence. }
  destruct (logradouro_do_raio G (Some cam) (Some campo) (geom s).1 (geom s).2 normal d)
    as [n|] eqn:Er; [|injection Hc as Hc _ _; congruence].
  assert (n = nome) as ->.
  { destruct (PyStr.truthy n); injection Hc as Hc _ _; congruence. }
  apply logradouro_do_raio_Some in Er as (v & Hv & Ha).
  exists campo, normal, fora, v. by repeat split.
Qed.

Lemma logradouro_da_via_mais_proxima_witness :
  ∃ s campo normal fora v,
    s ∈ segmentos (calcular_testadas_e_logradouros Exemplo.motor_quadrado
                     (Some Exemplo.quadrado) None (Some camada_rua_a) 20)
    ∧ logradouro s = Some "Rua A"
    ∧ _achar_campo_nome_logradouro (Some camada_rua_a) = Some campo
    ∧ _normal_e_ponto_fora Exemplo.motor_quadrado (geom s).1 (geom s).2
      = Some (normal, fora)
    ∧ _ponto_cai_em_algum_lote fora None = false
    ∧ primeiro_menor
        (λ u, fv_distancia u (seg_meio Exemplo.motor_quadrado (geom s).1 (geom s).2))
        (vias_cruzadas Exemplo.motor_quadrado camada_rua_a (geom s) normal 20) v
    ∧ fv_atributos v !! campo = Some "Rua A".
Proof.
  assert (∃ s l, segmentos (calcular_testadas_e_logradouros Exemplo.motor_quadrado
                              (Some Exemplo.quadrado) None (Some camada_rua_a) 20)
                 = s :: l ∧ logradouro s = Some "Rua A") as (s & l & E & Hl).
  { vm_compute. eexists _, _. split; reflexivity. }
  assert (s ∈ segmentos (calcular_testadas_e_logradouros Exemplo.motor_quadrado
                           (Some Exemplo.quadrado) None (Some camada_rua_a) 20)) as Hs.
  { rewrite E. by left. }
  destruct (logradouro_da_via_mais_proxima _ _ _ _ _ _ _ Hs Hl)
    as (campo & normal & fora & v & H).
  exists s, campo, normal, fora, v. by repeat split; try apply H.
Defined.

End Vias.
